(** * forwarder: URI / path normalisation and validation

    A shallow embedding of

    - [fileurl.ParseFilePathOrURL]                       (package fileurl),
    - [ProxyConfig], [ParseUserInfo], [ParseProxyURI],
      [ParseDNSURI] and their validators                 (package forwarder),
    - [Compose.Run]                                      (package compose),

    together with the parts of the Go standard library they call
    ([strings], [strconv.Atoi], [net.ParseIP], [net/url]).

    Go strings are byte sequences: they are modelled by [string], whose
    characters are the 256 values of [ascii].  A Go [(T, error)] result is a
    [result T]; a bare [error] result is an [option error] ([None] is nil). *)

From Stdlib Require Import ZArith Ascii String List Bool Lia.
From stdpp Require Import base gmap strings list.

Local Open Scope string_scope.
Local Open Scope list_scope.

(** ** Go strings *)

Module Strings.

Definition byte (c : ascii) : N := N_of_ascii c.

(** [lo <= c && c <= hi] on bytes. *)
Definition between (lo hi c : ascii) : bool :=
  (byte lo <=? byte c)%N && (byte c <=? byte hi)%N.

Definition eqb_byte (a b : ascii) : bool := Ascii.eqb a b.

Definition len (s : string) : nat := String.length s.

(** [s == ""] *)
Definition isEmpty (s : string) : bool :=
  match s with
  | EmptyString => true
  | String _ _ => false
  end.

(** [s[:i]] *)
Fixpoint str_take (i : nat) (s : string) : string :=
  match i, s with
  | S i', String c s' => String c (str_take i' s')
  | _, _ => EmptyString
  end.

(** [s[i:]] *)
Fixpoint str_drop (i : nat) (s : string) : string :=
  match i, s with
  | S i', String _ s' => str_drop i' s'
  | _, _ => s
  end.

Fixpoint HasPrefix (s prefix : string) {struct prefix} : bool :=
  match prefix, s with
  | EmptyString, _ => true
  | String p prefix', String c s' => eqb_byte c p && HasPrefix s' prefix'
  | String _ _, EmptyString => false
  end.

Definition HasSuffix (s suffix : string) : bool :=
  (len suffix <=? len s)%nat
  && String.eqb (str_drop (len s - len suffix) s) suffix.

(** [strings.Index]; Go's [-1] is [None]. *)
Fixpoint Index (s substr : string) : option nat :=
  if HasPrefix s substr then Some 0%nat
  else match s with
       | EmptyString => None
       | String _ s' => option_map S (Index s' substr)
       end.

(** [strings.LastIndex]; Go's [-1] is [None]. *)
Fixpoint LastIndex (s substr : string) : option nat :=
  match s with
  | EmptyString => if HasPrefix s substr then Some 0%nat else None
  | String _ s' =>
      match LastIndex s' substr with
      | Some i => Some (S i)
      | None => if HasPrefix s substr then Some 0%nat else None
      end
  end.

Definition LastIndexByte (s : string) (c : ascii) : option nat :=
  LastIndex s (String c EmptyString).

Definition Contains (s substr : string) : bool :=
  match Index s substr with Some _ => true | None => false end.

(** [strings.Cut]: [(before, after, found)]. *)
Definition Cut (s sep : string) : string * string * bool :=
  match Index s sep with
  | Some i => (str_take i s, str_drop (i + len sep) s, true)
  | None => (s, EmptyString, false)
  end.

(** [strings.Count(s, substr)] for a one-byte [substr], the only way the
    program calls it. *)
Fixpoint Count (s : string) (c : ascii) : nat :=
  match s with
  | EmptyString => 0
  | String a s' => (if eqb_byte a c then 1 else 0) + Count s' c
  end.

(** [strings.ReplaceAll(s, old, new)] for a one-byte [old], the only way
    the program calls it. *)
Fixpoint ReplaceAll (s : string) (old : ascii) (new : string) : string :=
  match s with
  | EmptyString => EmptyString
  | String a s' =>
      if eqb_byte a old then new +:+ ReplaceAll s' old new
      else String a (ReplaceAll s' old new)
  end.

Definition lower_byte (c : ascii) : ascii :=
  if between "A" "Z" c then ascii_of_N (byte c + 32) else c.

(** [strings.ToLower] on ASCII input: the program applies it to the result
    of [getScheme] only, which holds letters, digits, [+], [-] and [.]. *)
Fixpoint ToLower (s : string) : string :=
  match s with
  | EmptyString => EmptyString
  | String c s' => String (lower_byte c) (ToLower s')
  end.

End Strings.

(** ** Go errors

    An error value keeps the constructor call that made it: [errors.New msg],
    [fmt.Errorf format args...] (with [%w] arguments kept as errors), and the
    error types of [net/url]. *)

Inductive error : Type :=
| New (msg : string)
| Errorf (format : string) (args : list fmt_arg)
| EscapeError (s : string)
| InvalidHostError (s : string)
| UrlError (op url : string) (err : error)
with fmt_arg : Type :=
| ArgS (s : string)
| ArgD (n : Z)
| ArgW (e : error).

Inductive result (A : Type) : Type :=
| Ok (a : A)
| Err (e : error).
Arguments Ok {A} a.
Arguments Err {A} e.

(** [result] is a monad: [x ← r; k] returns the error of [r], if any, and
    otherwise continues with its value, as the source's
    [if err != nil { return nil, err }] does. *)
#[global] Instance result_bind : MBind result := fun A B k r =>
  match r with
  | Ok a => k a
  | Err e => Err e
  end.

#[global] Instance result_ret : MRet result := fun A a => Ok a.

(** [p != nil] on a pointer modelled as an option. *)
Definition is_Some_b {A} (o : option A) : bool :=
  match o with Some _ => true | None => false end.

(** ** strconv *)

Module Strconv.
Import Strings.

Definition is_digit (c : ascii) : bool := between "0" "9" c.

Definition digit_val (c : ascii) : Z := Z.of_N (byte c) - 48.

(** The digit loop shared by [Atoi]'s fast path and [ParseUint(s, 10, _)]:
    [n = n*10 + int(ch - '0')], failing on a byte that is not a digit. *)
Fixpoint digits (s : string) (n : Z) : option Z :=
  match s with
  | EmptyString => Some n
  | String ch s' =>
      if is_digit ch then digits s' (n * 10 + digit_val ch) else None
  end.

Definition maxInt : Z := 2 ^ 63 - 1.
Definition minInt : Z := - 2 ^ 63.

(** [strconv.Atoi] on a 64-bit platform.  Its fast path (fewer than 19
    bytes) and its slow path [ParseInt(s, 10, 0)] accept the same syntax,
    an optional sign followed by at least one decimal digit; the slow path
    also fails when the value does not fit [int].  The error value is
    never inspected by the program, so failure is [None]. *)
Definition Atoi (s : string) : option Z :=
  match s with
  | EmptyString => None
  | String c s' =>
      let neg := eqb_byte c "-" in
      let body := if eqb_byte c "-" || eqb_byte c "+" then s' else s in
      match body with
      | EmptyString => None
      | _ =>
          match digits body 0 with
          | None => None
          | Some n =>
              let v := if neg then (- n)%Z else n in
              if (minInt <=? v)%Z && (v <=? maxInt)%Z then Some v else None
          end
      end
  end.

End Strconv.

(** ** net: literal IP addresses *)

Module Net.
Import Strings.

(** [netip.parseIPv4]: the loop state is the fields stored so far
    ([pos] is their number), the current octet [val], its digit count
    [digLen], whether the scan is at index 0, and whether the previous
    byte was a dot. *)
Fixpoint parseIPv4_loop (s : string) (first prevdot : bool)
    (fields : list N) (val : N) (digLen : nat) : option (list N) :=
  match s with
  | EmptyString =>
      if (List.length fields <? 3)%nat then None
      else Some (fields ++ [val])
  | String c s' =>
      if between "0" "9" c then
        if (digLen =? 1)%nat && (val =? 0)%N then None
        else
          let val' := (val * 10 + (byte c - 48))%N in
          if (255 <? val')%N then None
          else parseIPv4_loop s' false false fields val' (S digLen)
      else if eqb_byte c "." then
        if first || isEmpty s' || prevdot then None
        else if (List.length fields =? 3)%nat then None
        else parseIPv4_loop s' false true (fields ++ [val]) 0%N 0%nat
      else None
  end.

Definition parseIPv4 (s : string) : option (list N) :=
  parseIPv4_loop s true false [] 0%N 0%nat.

Definition hex_val (c : ascii) : option N :=
  if between "0" "9" c then Some (byte c - 48)%N
  else if between "a" "f" c then Some (byte c - 97 + 10)%N
  else if between "A" "F" c then Some (byte c - 65 + 10)%N
  else None.

(** The inner loop of [netip.parseIPv6] reading one hexadecimal group:
    returns [(off, acc, s[off:])], or fails on a fifth digit or a value
    above [0xffff]. *)
Fixpoint hex_group (s : string) (off : nat) (acc : N)
    : option (nat * N * string) :=
  match s with
  | EmptyString => Some (off, acc, s)
  | String c s' =>
      match hex_val c with
      | None => Some (off, acc, s)
      | Some d =>
          let acc' := (N.shiftl acc 4 + d)%N in
          if (3 <? off)%nat then None
          else if (65535 <? acc')%N then None
          else hex_group s' (S off) acc'
      end
  end.

(** The outer loop [for i < 16] of [netip.parseIPv6].  [groups] counts the
    16-bit groups still free, so [i = 16 - 2 * groups] and the loop guard
    is [groups > 0]; [ip] holds the [i] bytes written so far.  The result
    is [(ip, ellipsis, s)] at loop exit. *)
Fixpoint parseIPv6_loop (groups : nat) (s : string) (ip : list N)
    (ellipsis : option nat) : option (list N * option nat * string) :=
  match groups with
  | O => Some (ip, ellipsis, s)
  | S groups' =>
      match hex_group s 0 0%N with
      | None => None
      | Some (off, acc, rest) =>
          if (off =? 0)%nat then None
          else if HasPrefix rest "." then
            (* trailing embedded IPv4 *)
            let i := List.length ip in
            if (match ellipsis with None => true | Some _ => false end)
               && negb (i =? 12)%nat then None
            else if (16 <? i + 4)%nat then None
            else
              match parseIPv4 s with
              | None => None
              | Some ip4 => Some (ip ++ ip4, ellipsis, EmptyString)
              end
          else
            let ip' := ip ++ [N.shiftr acc 8; N.land acc 255] in
            match rest with
            | EmptyString => Some (ip', ellipsis, rest)
            | String c rest1 =>
                if negb (eqb_byte c ":") then None
                else
                  match rest1 with
                  | EmptyString => None
                  | String c1 rest2 =>
                      if eqb_byte c1 ":" then
                        match ellipsis with
                        | Some _ => None
                        | None =>
                            let ellipsis' := Some (List.length ip') in
                            match rest2 with
                            | EmptyString => Some (ip', ellipsis', rest2)
                            | _ => parseIPv6_loop groups' rest2 ip' ellipsis'
                            end
                        end
                      else parseIPv6_loop groups' rest1 ip' ellipsis
                  end
            end
      end
  end.

(** [netip.parseIPv6]: the 16 bytes and the zone. *)
Definition parseIPv6 (in_ : string) : option (list N * string) :=
  let '(s, zone, zone_ok) :=
    match Index in_ "%" with
    | Some i =>
        let zone := str_drop (i + 1) in_ in
        (str_take i in_, zone, negb (isEmpty zone))
    | None => (in_, EmptyString, true)
    end in
  if negb zone_ok then None
  else
    let lead := HasPrefix s "::" in
    let s1 := if lead then str_drop 2 s else s in
    let ellipsis := if lead then Some 0%nat else None in
    if lead && isEmpty s1 then Some (repeat 0%N 16, zone)
    else
      match parseIPv6_loop 8 s1 [] ellipsis with
      | None => None
      | Some (ip, ellipsis, rest) =>
          if negb (isEmpty rest) then None
          else
            let i := List.length ip in
            if (i <? 16)%nat then
              match ellipsis with
              | None => None
              | Some e =>
                  Some (firstn e ip ++ repeat 0%N (16 - i) ++ skipn e ip,
                        zone)
              end
            else
              match ellipsis with
              | Some _ => None
              | None => Some (ip, zone)
              end
      end.

Definition v4InV6Prefix : list N :=
  [0; 0; 0; 0; 0; 0; 0; 0; 0; 0; 255; 255]%N.

(** [netip.ParseAddr] followed by [As16]: dispatch on the first of [.],
    [:] and [%]. *)
Fixpoint ParseAddr_scan (whole s : string) : option (list N * string) :=
  match s with
  | EmptyString => None
  | String c s' =>
      if eqb_byte c "." then
        option_map (fun f => (v4InV6Prefix ++ f, EmptyString))
                   (parseIPv4 whole)
      else if eqb_byte c ":" then parseIPv6 whole
      else if eqb_byte c "%" then None
      else ParseAddr_scan whole s'
  end.

Definition ParseAddr (s : string) : option (list N * string) :=
  ParseAddr_scan s s.

(** [net.ParseIP]: the 16-byte form, or [None] (Go's nil) when the text is
    not an address or carries a zone. *)
Definition ParseIP (s : string) : option (list N) :=
  match ParseAddr s with
  | Some (ip, zone) => if isEmpty zone then Some ip else None
  | None => None
  end.

End Net.

(** ** net/url *)

Module Url.
Import Strings.

(** [url.Userinfo]: [passwordSet] tells [User(u)] from
    [UserPassword(u, p)]. *)
Record Userinfo : Type := mkUserinfo {
  username : string;
  password : string;
  passwordSet : bool
}.

Definition UserPassword (u p : string) : Userinfo := mkUserinfo u p true.
Definition User (u : string) : Userinfo := mkUserinfo u EmptyString false.

(** [url.URL].  [User] is a [*Userinfo]: [None] is the nil pointer. *)
Record URL : Type := mkURL {
  Scheme : string;
  Opaque : string;
  User_ : option Userinfo;
  Host : string;
  Path : string;
  RawPath : string;
  OmitHost : bool;
  ForceQuery : bool;
  RawQuery : string;
  Fragment : string;
  RawFragment : string
}.

(** The zero value [url.URL{}]. *)
Definition zero : URL :=
  mkURL EmptyString EmptyString None EmptyString EmptyString EmptyString
        false false EmptyString EmptyString EmptyString.

Definition set_Scheme (u : URL) (v : string) : URL :=
  mkURL v (Opaque u) (User_ u) (Host u) (Path u) (RawPath u) (OmitHost u)
        (ForceQuery u) (RawQuery u) (Fragment u) (RawFragment u).
Definition set_Opaque (u : URL) (v : string) : URL :=
  mkURL (Scheme u) v (User_ u) (Host u) (Path u) (RawPath u) (OmitHost u)
        (ForceQuery u) (RawQuery u) (Fragment u) (RawFragment u).
Definition set_User (u : URL) (v : option Userinfo) : URL :=
  mkURL (Scheme u) (Opaque u) v (Host u) (Path u) (RawPath u) (OmitHost u)
        (ForceQuery u) (RawQuery u) (Fragment u) (RawFragment u).
Definition set_Host (u : URL) (v : string) : URL :=
  mkURL (Scheme u) (Opaque u) (User_ u) v (Path u) (RawPath u) (OmitHost u)
        (ForceQuery u) (RawQuery u) (Fragment u) (RawFragment u).
Definition set_Path (u : URL) (v : string) : URL :=
  mkURL (Scheme u) (Opaque u) (User_ u) (Host u) v (RawPath u) (OmitHost u)
        (ForceQuery u) (RawQuery u) (Fragment u) (RawFragment u).
Definition set_RawPath (u : URL) (v : string) : URL :=
  mkURL (Scheme u) (Opaque u) (User_ u) (Host u) (Path u) v (OmitHost u)
        (ForceQuery u) (RawQuery u) (Fragment u) (RawFragment u).
Definition set_OmitHost (u : URL) (v : bool) : URL :=
  mkURL (Scheme u) (Opaque u) (User_ u) (Host u) (Path u) (RawPath u) v
        (ForceQuery u) (RawQuery u) (Fragment u) (RawFragment u).
Definition set_ForceQuery (u : URL) (v : bool) : URL :=
  mkURL (Scheme u) (Opaque u) (User_ u) (Host u) (Path u) (RawPath u)
        (OmitHost u) v (RawQuery u) (Fragment u) (RawFragment u).
Definition set_RawQuery (u : URL) (v : string) : URL :=
  mkURL (Scheme u) (Opaque u) (User_ u) (Host u) (Path u) (RawPath u)
        (OmitHost u) (ForceQuery u) v (Fragment u) (RawFragment u).
Definition set_Fragment (u : URL) (v : string) : URL :=
  mkURL (Scheme u) (Opaque u) (User_ u) (Host u) (Path u) (RawPath u)
        (OmitHost u) (ForceQuery u) (RawQuery u) v (RawFragment u).
Definition set_RawFragment (u : URL) (v : string) : URL :=
  mkURL (Scheme u) (Opaque u) (User_ u) (Host u) (Path u) (RawPath u)
        (OmitHost u) (ForceQuery u) (RawQuery u) (Fragment u) v.

Inductive encoding : Type :=
| encodePath
| encodePathSegment
| encodeHost
| encodeZone
| encodeUserPassword
| encodeQueryComponent
| encodeFragment.

Definition encoding_eqb (a b : encoding) : bool :=
  match a, b with
  | encodePath, encodePath
  | encodePathSegment, encodePathSegment
  | encodeHost, encodeHost
  | encodeZone, encodeZone
  | encodeUserPassword, encodeUserPassword
  | encodeQueryComponent, encodeQueryComponent
  | encodeFragment, encodeFragment => true
  | _, _ => false
  end.

(** [c] is one of the bytes of [set]. *)
Definition one_of (set : string) (c : ascii) : bool :=
  existsb (eqb_byte c) (list_ascii_of_string set).

Definition is_alpha (c : ascii) : bool :=
  between "a" "z" c || between "A" "Z" c.

Definition is_alnum (c : ascii) : bool :=
  is_alpha c || between "0" "9" c.

Definition ishex (c : ascii) : bool :=
  between "0" "9" c || between "a" "f" c || between "A" "F" c.

Definition unhex (c : ascii) : N :=
  if between "0" "9" c then (byte c - 48)%N
  else if between "a" "f" c then (byte c - 97 + 10)%N
  else if between "A" "F" c then (byte c - 65 + 10)%N
  else 0%N.

(** The double quote, byte 34. *)
Definition dquote : ascii := "034"%char.

(** [url.shouldEscape]. *)
Definition shouldEscape (c : ascii) (mode : encoding) : bool :=
  if is_alnum c then false
  else if (encoding_eqb mode encodeHost || encoding_eqb mode encodeZone)
          && (one_of "!$&'()*+,;=:[]<>" c || eqb_byte c dquote)
  then false
  else if one_of "-_.~" c then false
  else if one_of "$&+,/:;=?@" c then
    match mode with
    | encodePath => eqb_byte c "?"
    | encodePathSegment => one_of "/;,?" c
    | encodeUserPassword => one_of "@/?:" c
    | encodeQueryComponent => true
    | encodeFragment => false
    | encodeHost | encodeZone => true
    end
  else if encoding_eqb mode encodeFragment && one_of "!()*" c then false
  else true.

(** First pass of [url.unescape]: count the [%] and check that each one is
    well formed; returns [(n, hasPlus)]. *)
Fixpoint unescape_check (s : string) (mode : encoding) (n : nat)
    (hasPlus : bool) : result (nat * bool) :=
  match s with
  | EmptyString => Ok (n, hasPlus)
  | String c s' =>
      if eqb_byte c "%" then
        match s' with
        | String h1 (String h2 s'') =>
            if negb (ishex h1) || negb (ishex h2) then
              Err (EscapeError (str_take 3 s))
            else if encoding_eqb mode encodeHost && (unhex h1 <? 8)%N
                    && negb (String.eqb (str_take 3 s) "%25") then
              Err (EscapeError (str_take 3 s))
            else if encoding_eqb mode encodeZone
                    && negb (String.eqb (str_take 3 s) "%25")
                    && negb (N.lor (N.shiftl (unhex h1) 4) (unhex h2) =? 32)%N
                    && shouldEscape
                         (ascii_of_N (N.lor (N.shiftl (unhex h1) 4) (unhex h2)))
                         encodeHost then
              Err (EscapeError (str_take 3 s))
            else unescape_check s'' mode (S n) hasPlus
        | _ => Err (EscapeError (str_take 3 s))
        end
      else if eqb_byte c "+" then
        unescape_check s' mode n (encoding_eqb mode encodeQueryComponent)
      else if (encoding_eqb mode encodeHost || encoding_eqb mode encodeZone)
              && (byte c <? 128)%N && shouldEscape c encodeHost then
        Err (InvalidHostError (String c EmptyString))
      else unescape_check s' mode n hasPlus
  end.

(** Second pass of [url.unescape]: decode. *)
Fixpoint unescape_build (s : string) (mode : encoding) : string :=
  match s with
  | EmptyString => EmptyString
  | String c s' =>
      if eqb_byte c "%" then
        match s' with
        | String h1 (String h2 s'') =>
            String (ascii_of_N (N.lor (N.shiftl (unhex h1) 4) (unhex h2)))
                   (unescape_build s'' mode)
        | _ => EmptyString
        end
      else if eqb_byte c "+" then
        String (if encoding_eqb mode encodeQueryComponent then " " else "+")
               (unescape_build s' mode)
      else String c (unescape_build s' mode)
  end.

Definition unescape (s : string) (mode : encoding) : result string :=
  '(n, hasPlus) ← unescape_check s mode 0 false;
  if (n =? 0)%nat && negb hasPlus then Ok s
  else Ok (unescape_build s mode).

Definition upperhex (d : N) : ascii :=
  if (d <? 10)%N then ascii_of_N (48 + d) else ascii_of_N (65 + d - 10).

(** [url.escape]; the counting pass of the source only sizes the buffer
    (and returns [s] itself when nothing is escaped, which is what the
    loop below produces then). *)
Fixpoint escape (s : string) (mode : encoding) : string :=
  match s with
  | EmptyString => EmptyString
  | String c s' =>
      if eqb_byte c " " && encoding_eqb mode encodeQueryComponent then
        String "+" (escape s' mode)
      else if shouldEscape c mode then
        String "%" (String (upperhex (N.shiftr (byte c) 4))
                      (String (upperhex (N.land (byte c) 15))
                         (escape s' mode)))
      else String c (escape s' mode)
  end.

(** [url.getScheme]; [s] is [rawURL[i:]]. *)
Fixpoint getScheme_loop (rawURL : string) (i : nat) (s : string)
    : result (string * string) :=
  match s with
  | EmptyString => Ok (EmptyString, rawURL)
  | String c s' =>
      if is_alpha c then getScheme_loop rawURL (S i) s'
      else if between "0" "9" c || one_of "+-." c then
        if (i =? 0)%nat then Ok (EmptyString, rawURL)
        else getScheme_loop rawURL (S i) s'
      else if eqb_byte c ":" then
        if (i =? 0)%nat then Err (New "missing protocol scheme")
        else Ok (str_take i rawURL, str_drop (i + 1) rawURL)
      else Ok (EmptyString, rawURL)
  end.

Definition getScheme (rawURL : string) : result (string * string) :=
  getScheme_loop rawURL 0 rawURL.

(** [url.validOptionalPort]. *)
Definition validOptionalPort (port : string) : bool :=
  match port with
  | EmptyString => true
  | String c digits =>
      eqb_byte c ":"
      && forallb (between "0" "9") (list_ascii_of_string digits)
  end.

(** [url.validUserinfo].  The source ranges over runes; every rune outside
    ASCII is rejected, and so is every byte above [0x7f] here. *)
Definition validUserinfo (s : string) : bool :=
  forallb (fun r => is_alnum r || one_of "-._:~!$&'()*+,;=%@" r)
          (list_ascii_of_string s).

(** [url.stringContainsCTLByte]. *)
Definition stringContainsCTLByte (s : string) : bool :=
  existsb (fun b => (byte b <? 32)%N || (byte b =? 127)%N)
          (list_ascii_of_string s).

(** [url.parseHost]. *)
Definition parseHost (host : string) : result string :=
  if HasPrefix host "[" then
    match LastIndex host "]" with
    | None => Err (New "missing ']' in host")
    | Some i =>
        let colonPort := str_drop (i + 1) host in
        if negb (validOptionalPort colonPort) then
          Err (Errorf "invalid port %q after host" [ArgS colonPort])
        else
          match Index (str_take i host) "%25" with
          | Some zone =>
              host1 ← unescape (str_take zone host) encodeHost;
              host2 ←
                unescape (str_drop zone (str_take i host)) encodeZone;
              host3 ← unescape (str_drop i host) encodeHost;
              Ok (host1 +:+ host2 +:+ host3)
          | None => unescape host encodeHost
          end
    end
  else
    match LastIndex host ":" with
    | Some i =>
        let colonPort := str_drop i host in
        if negb (validOptionalPort colonPort) then
          Err (Errorf "invalid port %q after host" [ArgS colonPort])
        else unescape host encodeHost
    | None => unescape host encodeHost
    end.

(** [url.parseAuthority]. *)
Definition parseAuthority (authority : string)
    : result (option Userinfo * string) :=
  let i := LastIndex authority "@" in
  host ←
    match i with
    | None => parseHost authority
    | Some i => parseHost (str_drop (i + 1) authority)
    end;
  match i with
  | None => Ok (None, host)
  | Some i =>
      let userinfo := str_take i authority in
      if negb (validUserinfo userinfo) then
        Err (New "net/url: invalid userinfo")
      else if negb (Contains userinfo ":") then
        userinfo ← unescape userinfo encodeUserPassword;
        Ok (Some (User userinfo), host)
      else
        let '(username, password, _) := Cut userinfo ":" in
        username ← unescape username encodeUserPassword;
        password ← unescape password encodeUserPassword;
        Ok (Some (UserPassword username password), host)
  end.

(** [URL.setPath] (pointer receiver). *)
Definition setPath (u : URL) (p : string) : result URL :=
  path ← unescape p encodePath;
  let u := set_Path u path in
  if String.eqb p (escape path encodePath) then Ok (set_RawPath u EmptyString)
  else Ok (set_RawPath u p).

(** [URL.setFragment] (pointer receiver). *)
Definition setFragment (u : URL) (f : string) : result URL :=
  frag ← unescape f encodeFragment;
  let u := set_Fragment u frag in
  if String.eqb f (escape frag encodeFragment)
  then Ok (set_RawFragment u EmptyString)
  else Ok (set_RawFragment u f).

(** [url.parse(rawURL, viaRequest)] at [viaRequest = false], the only way
    [url.Parse] calls it. *)
Definition parse (rawURL : string) : result URL :=
  if stringContainsCTLByte rawURL then
    Err (New "net/url: invalid control character in URL")
  else if String.eqb rawURL "*" then Ok (set_Path zero "*")
  else
    '(scheme, rest) ← getScheme rawURL;
    let url := set_Scheme zero (ToLower scheme) in
    let '(url, rest) :=
      if HasSuffix rest "?" && (Count rest "?" =? 1)%nat then
        (set_ForceQuery url true, str_take (len rest - 1) rest)
      else
        let '(rest, query, _) := Cut rest "?" in
        (set_RawQuery url query, rest) in
    if negb (HasPrefix rest "/") && negb (isEmpty (Scheme url)) then
      (* rootless paths are opaque *)
      Ok (set_Opaque url rest)
    else if negb (HasPrefix rest "/")
            && Contains (fst (fst (Cut rest "/"))) ":" then
      Err (New "first path segment in URL cannot contain colon")
    else
      '(url, rest) ←
        if (negb (isEmpty (Scheme url)) || negb (HasPrefix rest "///"))
           && HasPrefix rest "//" then
          let authority := str_drop 2 rest in
          let '(authority, rest) :=
            match Index authority "/" with
            | Some i => (str_take i authority, str_drop i authority)
            | None => (authority, EmptyString)
            end in
          '(user, host) ← parseAuthority authority;
          Ok (set_Host (set_User url user) host, rest)
        else if negb (isEmpty (Scheme url)) && HasPrefix rest "/" then
          Ok (set_OmitHost url true, rest)
        else Ok (url, rest);
      setPath url rest.

(** [url.Parse]. *)
Definition Parse (rawURL : string) : result URL :=
  let '(u, frag, _) := Cut rawURL "#" in
  match parse u with
  | Err err => Err (UrlError "parse" u err)
  | Ok url =>
      if isEmpty frag then Ok url
      else
        match setFragment url frag with
        | Err err => Err (UrlError "parse" rawURL err)
        | Ok url => Ok url
        end
  end.

(** [url.splitHostPort]. *)
Definition splitHostPort (hostPort : string) : string * string :=
  let '(host, port) :=
    match LastIndexByte hostPort ":" with
    | Some colon =>
        if validOptionalPort (str_drop colon hostPort)
        then (str_take colon hostPort, str_drop (colon + 1) hostPort)
        else (hostPort, EmptyString)
    | None => (hostPort, EmptyString)
    end in
  if HasPrefix host "[" && HasSuffix host "]"
  then (str_take (len host - 1 - 1) (str_drop 1 host), port)
  else (host, port).

Definition Hostname (u : URL) : string := fst (splitHostPort (Host u)).
Definition Port (u : URL) : string := snd (splitHostPort (Host u)).

End Url.

(** ** unicode/utf8 and regexp: what the two patterns of [fileurl] need *)

Module Regexp.
Import Strings.

Definition is_cont (b : ascii) : bool := between "128" "191" b.

(** Width in bytes of the first rune of a non-empty string, as
    [utf8.DecodeRuneInString] reports it: an ill-formed or truncated
    sequence is one byte wide (it decodes to [utf8.RuneError]). *)
Definition rune_width (s : string) : nat :=
  match s with
  | EmptyString => 0
  | String b0 s1 =>
      let n0 := byte b0 in
      if (n0 <? 128)%N then 1
      else
        match s1 with
        | EmptyString => 1
        | String b1 s2 =>
            let n1 := byte b1 in
            if (194 <=? n0)%N && (n0 <=? 223)%N then
              if is_cont b1 then 2 else 1
            else
              let lo :=
                (if (n0 =? 224) then 160 else if (n0 =? 240) then 144
                 else 128)%N in
              let hi :=
                (if (n0 =? 237) then 159 else if (n0 =? 244) then 143
                 else 191)%N in
              if negb ((lo <=? n1) && (n1 <=? hi))%N then 1
              else if (224 <=? n0)%N && (n0 <=? 239)%N then
                match s2 with
                | String b2 _ => if is_cont b2 then 3 else 1
                | EmptyString => 1
                end
              else if (240 <=? n0)%N && (n0 <=? 244)%N then
                match s2 with
                | String b2 (String b3 _) =>
                    if is_cont b2 && is_cont b3 then 4 else 1
                | _ => 1
                end
              else 1
        end
  end.

(** Number of leading [/] of [s]: the greedy [/{4,}] takes them all,
    because the next atom [[^/]] cannot match a slash. *)
Fixpoint slash_run (s : string) : nat :=
  match s with
  | String c s' => if eqb_byte c "/" then S (slash_run s') else 0
  | EmptyString => 0
  end.

(** [FindStringSubmatch] of [^file:/{4,}([^/])]: [(m[0], m[1])].
    The class [[^/]] matches any one rune other than [/], also a newline
    and also [utf8.RuneError]. *)
Definition uncEmptyAuthorityRegex (val : string) : option (string * string) :=
  if HasPrefix val "file:" then
    let k := slash_run (str_drop 5 val) in
    let tail := str_drop (5 + k) val in
    if (4 <=? k)%nat && negb (isEmpty tail) then
      let m1 := str_take (rune_width tail) tail in
      Some (str_take (5 + k) val +:+ m1, m1)
    else None
  else None.

Definition is_letter (c : ascii) : bool :=
  between "a" "z" c || between "A" "Z" c.

(** [FindStringSubmatch] of [^/?([a-zA-Z])[:\|]/]: [(m[0], m[1])].  The
    optional slash is tried first; without it the pattern needs a letter
    at index 0, so a string that begins with a slash has no second way to
    match. *)
Definition windowsVolumeRegex (s : string) : option (string * string) :=
  let lead := if HasPrefix s "/" then "/" else "" in
  match str_drop (len lead) s with
  | String l (String sep (String sl _)) =>
      if is_letter l && (eqb_byte sep ":" || eqb_byte sep "|")
         && eqb_byte sl "/"
      then Some (lead +:+ String l (String sep (String sl EmptyString)),
                 String l EmptyString)
      else None
  | _ => None
  end.

End Regexp.

(** ** package fileurl *)

Module Fileurl.
Import Strings Url Regexp.

Definition backslash : ascii := "\"%char.

Definition ParseFilePathOrURL (val : string) : result URL :=
  (* Handle stdin. *)
  if String.eqb val "-" then Ok (set_Path (set_Scheme zero "file") "-")
  else
    let val := ReplaceAll val backslash "/" in
    (* Handle UNC paths. *)
    let val := if HasPrefix val "//" then "file:" +:+ val else val in
    let val :=
      match uncEmptyAuthorityRegex val with
      | Some (m0, m1) => "file://" +:+ m1 +:+ str_drop (len m0) val
      | None => val
      end in
    u ← Parse val;
    let u := if isEmpty (Scheme u) then set_Scheme u "file" else u in
    if negb (String.eqb (Scheme u) "file") then Ok u
    else
      (* Handle Windows paths. *)
      let u :=
        if isEmpty (Path u) && negb (isEmpty (Opaque u))
        then set_Opaque (set_Path u (Opaque u)) (Path u)
        else u in
      let u :=
        match windowsVolumeRegex (Path u) with
        | Some (m0, m1) =>
            set_Path u (m1 +:+ ":/" +:+ str_drop (len m0) (Path u))
        | None => u
        end in
      Ok (set_OmitHost u false).

End Fileurl.

(** ** package forwarder *)

Module Forwarder.
Import Strings Url.

(** [ProxyConfig], read through its pointers: a [*url.URL] field is an
    [option URL] ([None] is nil). *)
Record ProxyConfig : Type := mkProxyConfig {
  LocalProxyURI : option URL;
  UpstreamProxyURI : option URL;
  PACURI : option URL;
  PACProxiesCredentials : list string;
  DNSURIs : list (option URL);
  ProxyLocalhost : bool;
  SiteCredentials : list string
}.

(** Outcome of a call that returns an [error]: it returns ([None] is the
    nil error) or it panics. *)
Inductive outcome : Type :=
| Returns (err : option error)
| Panics.

(** [isPort] *)
Definition isPort (port : string) : bool :=
  match Strconv.Atoi port with
  | None => false
  | Some p => (1 <=? p)%Z && (p <=? 65535)%Z
  end.

Definition validatedUserInfo (ui : option Userinfo) : option error :=
  match ui with
  | None => None
  | Some ui =>
      if isEmpty (username ui) then
        Some (Errorf "username cannot be empty" [])
      else if isEmpty (password ui) then
        Some (Errorf "password cannot be empty" [])
      else None
  end.

(** [ParseUserInfo] *)
Definition ParseUserInfo (val : string) : result (option Userinfo) :=
  if isEmpty val then Ok None
  else
    let '(u, p, ok) := Cut val ":" in
    if negb ok then Err (Errorf "expected username:password" [])
    else
      let ui := UserPassword u p in
      match validatedUserInfo (Some ui) with
      | Some err => Err err
      | None => Ok (Some ui)
      end.

Definition minHostLength : nat := 4.

Definition validateProxyURI (u : option URL) : option error :=
  match u with
  | None => None
  | Some u =>
      if negb (String.eqb (Scheme u) "http")
         && negb (String.eqb (Scheme u) "https")
         && negb (String.eqb (Scheme u) "socks5")
         && negb (String.eqb (Scheme u) "socks")
         && negb (String.eqb (Scheme u) "quic") then
        Some (Errorf "invalid scheme %q" [ArgS (Scheme u)])
      else if (len (Hostname u) <? minHostLength)%nat then
        Some (Errorf "invalid hostname: %s is too short" [ArgS (Hostname u)])
      else if isEmpty (Port u) then
        Some (Errorf "port is required" [])
      else if negb (isPort (Port u)) then
        Some (Errorf "invalid port: %s" [ArgS (Port u)])
      else
        match validatedUserInfo (User_ u) with
        | Some err => Some err
        | None => None
        end
  end.

(** [ParseProxyURI] *)
Definition ParseProxyURI (val : string) : result URL :=
  u ← Parse val;
  match validateProxyURI (Some u) with
  | Some err => Err err
  | None => Ok u
  end.

Definition validateDNSURI (u : URL) : option error :=
  if negb (String.eqb (Scheme u) "udp") && negb (String.eqb (Scheme u) "tcp")
  then
    Some (Errorf "invalid protocol: %s, supported protocols are udp and tcp"
                 [ArgS (Scheme u)])
  else if negb (is_Some_b (Net.ParseIP (Hostname u))) then
    Some (Errorf "invalid hostname: %s DNS must be an IP address"
                 [ArgS (Hostname u)])
  else if negb (isPort (Port u)) then
    Some (Errorf "invalid port: %s" [ArgS (Port u)])
  else if is_Some_b (User_ u) then
    Some (Errorf "username and password are not allowed in DNS URI" [])
  else if negb (isEmpty (Path u)) || negb (isEmpty (RawQuery u))
          || negb (isEmpty (Fragment u)) then
    Some (Errorf "path, query, and fragment are not allowed in DNS URI" [])
  else None.

(** [ParseDNSURI] *)
Definition ParseDNSURI (val : string) : result URL :=
  u ← Parse val;
  let u := if isEmpty (Host u) then set_Host zero val else u in
  let u := if isEmpty (Scheme u) then set_Scheme u "udp" else u in
  let u := if isEmpty (Port u) then set_Host u (Host u +:+ ":53") else u in
  match validateDNSURI u with
  | Some err => Err err
  | None => Ok u
  end.

(** The loop [for i, u := range c.DNSURIs] of [Validate]; a nil element
    makes [validateDNSURI] dereference a nil pointer. *)
Fixpoint validateDNSURIs (i : Z) (us : list (option URL)) : outcome :=
  match us with
  | [] => Returns None
  | None :: _ => Panics
  | Some u :: us' =>
      match validateDNSURI u with
      | Some err => Returns (Some (Errorf "dns_uris[%d]: %w" [ArgD i; ArgW err]))
      | None => validateDNSURIs (i + 1) us'
      end
  end.

(** [ProxyConfig.Validate] *)
Definition Validate (c : ProxyConfig) : outcome :=
  match LocalProxyURI c with
  | None => Returns (Some (Errorf "local_proxy_uri is required" []))
  | Some _ =>
      match validateProxyURI (LocalProxyURI c) with
      | Some err => Returns (Some (Errorf "local_proxy_uri: %w" [ArgW err]))
      | None =>
      match validateProxyURI (UpstreamProxyURI c) with
      | Some err => Returns (Some (Errorf "upstream_proxy_uri: %w" [ArgW err]))
      | None =>
      match validateProxyURI (PACURI c) with
      | Some err => Returns (Some (Errorf "pac_uri: %w" [ArgW err]))
      | None =>
          if is_Some_b (UpstreamProxyURI c) && is_Some_b (PACURI c) then
            Returns (Some (Errorf
              "only one of upstream_proxy_uri or pac_uri can be set" []))
          else validateDNSURIs 0 (DNSURIs c)
      end end end
  end.

End Forwarder.

(** ** [ProxyConfig.Clone]: pointers and the heap

    [Clone] is about aliasing, so here the configuration is laid out as Go
    has it: the struct holds pointers to [url.URL] values and slices, a
    [url.URL] holds a pointer to its [Userinfo], and all of them live in a
    heap of cells. *)

Module Memory.
Import Url Forwarder.

Definition loc : Type := positive.

(** The [ProxyConfig] struct itself: pointer and slice fields are
    locations ([None] is a nil pointer or a nil slice). *)
Record ConfigCell : Type := mkConfigCell {
  pLocalProxyURI : option loc;
  pUpstreamProxyURI : option loc;
  pPACURI : option loc;
  pPACProxiesCredentials : option loc;
  pDNSURIs : option loc;
  vProxyLocalhost : bool;
  pSiteCredentials : option loc
}.

Inductive cell : Type :=
| CUserinfo (ui : Userinfo)
| CURL (fields : URL) (user : option loc)
    (* a [url.URL]; its [User] pointer is [user], and the [User_] field
       of [fields] is not used *)
| CStrings (xs : list string)          (* backing array of a [[]string] *)
| CURLs (ps : list (option loc))       (* backing array of a [[]*url.URL] *)
| CConfig (c : ConfigCell).

Abbreviation heap := (gmap loc cell).

(** Allocation returns a location that is not in use. *)
Definition alloc (h : heap) (x : cell) : heap * loc :=
  let l := fresh (dom h) in (<[l := x]> h, l).

(** *** Reading a configuration through its pointers

    Each reader fails ([None]) on a dangling or ill-typed pointer, which a
    Go heap never holds. *)

Definition read_userinfo (h : heap) (p : option loc)
    : option (option Userinfo) :=
  match p with
  | None => Some None
  | Some l =>
      match h !! l with
      | Some (CUserinfo ui) => Some (Some ui)
      | _ => None
      end
  end.

Definition read_url (h : heap) (p : option loc) : option (option URL) :=
  match p with
  | None => Some None
  | Some l =>
      match h !! l with
      | Some (CURL f up) =>
          match read_userinfo h up with
          | Some ui => Some (Some (set_User f ui))
          | None => None
          end
      | _ => None
      end
  end.

Fixpoint read_url_list (h : heap) (ps : list (option loc))
    : option (list (option URL)) :=
  match ps with
  | [] => Some []
  | p :: ps' =>
      match read_url h p, read_url_list h ps' with
      | Some u, Some us => Some (u :: us)
      | _, _ => None
      end
  end.

Definition read_strings (h : heap) (p : option loc) : option (list string) :=
  match p with
  | None => Some []
  | Some l =>
      match h !! l with
      | Some (CStrings xs) => Some xs
      | _ => None
      end
  end.

Definition read_urls (h : heap) (p : option loc)
    : option (list (option URL)) :=
  match p with
  | None => Some []
  | Some l =>
      match h !! l with
      | Some (CURLs ps) => read_url_list h ps
      | _ => None
      end
  end.

(** The configuration behind a [*ProxyConfig]. *)
Definition read_config (h : heap) (c : loc) : option ProxyConfig :=
  match h !! c with
  | Some (CConfig k) =>
      match read_url h (pLocalProxyURI k), read_url h (pUpstreamProxyURI k),
            read_url h (pPACURI k), read_strings h (pPACProxiesCredentials k),
            read_urls h (pDNSURIs k), read_strings h (pSiteCredentials k) with
      | Some l, Some u, Some pac, Some creds, Some dns, Some sites =>
          Some (mkProxyConfig l u pac creds dns (vProxyLocalhost k) sites)
      | _, _, _, _, _, _ => None
      end
  | _ => None
  end.

(** *** The cells a configuration is made of *)

Definition cells_ptr (p : option loc) : gset loc :=
  match p with
  | None => ∅
  | Some l => {[ l ]}
  end.

Definition cells_url (h : heap) (p : option loc) : gset loc :=
  match p with
  | None => ∅
  | Some l =>
      match h !! l with
      | Some (CURL _ up) => {[ l ]} ∪ cells_ptr up
      | _ => {[ l ]}
      end
  end.

Fixpoint cells_url_list (h : heap) (ps : list (option loc)) : gset loc :=
  match ps with
  | [] => ∅
  | p :: ps' => cells_url h p ∪ cells_url_list h ps'
  end.

Definition cells_urls (h : heap) (p : option loc) : gset loc :=
  match p with
  | None => ∅
  | Some l =>
      match h !! l with
      | Some (CURLs ps) => {[ l ]} ∪ cells_url_list h ps
      | _ => {[ l ]}
      end
  end.

(** Every location reachable from the [*ProxyConfig] [c], [c] included:
    the struct, its URLs and their credentials, the backing arrays of its
    slices and the URLs these point to. *)
Definition cells_config (h : heap) (c : loc) : gset loc :=
  match h !! c with
  | Some (CConfig k) =>
      {[ c ]} ∪ cells_url h (pLocalProxyURI k)
        ∪ cells_url h (pUpstreamProxyURI k) ∪ cells_url h (pPACURI k)
        ∪ cells_ptr (pPACProxiesCredentials k) ∪ cells_urls h (pDNSURIs k)
        ∪ cells_ptr (pSiteCredentials k)
  | _ => {[ c ]}
  end.

(** *** deepCopy *)

Definition copy_userinfo (h : heap) (p : option loc) : heap * option loc :=
  match p with
  | None => (h, None)
  | Some l =>
      match h !! l with
      | Some (CUserinfo ui) =>
          let '(h, l') := alloc h (CUserinfo ui) in (h, Some l')
      | _ => (h, None)
      end
  end.

Definition copy_url (h : heap) (p : option loc) : heap * option loc :=
  match p with
  | None => (h, None)
  | Some l =>
      match h !! l with
      | Some (CURL f up) =>
          let '(h, up') := copy_userinfo h up in
          let '(h, l') := alloc h (CURL f up') in (h, Some l')
      | _ => (h, None)
      end
  end.

Fixpoint copy_url_list (h : heap) (ps : list (option loc))
    : heap * list (option loc) :=
  match ps with
  | [] => (h, [])
  | p :: ps' =>
      let '(h, p') := copy_url h p in
      let '(h, ps'') := copy_url_list h ps' in
      (h, p' :: ps'')
  end.

Definition copy_strings (h : heap) (p : option loc) : heap * option loc :=
  match p with
  | None => (h, None)
  | Some l =>
      match h !! l with
      | Some (CStrings xs) =>
          let '(h, l') := alloc h (CStrings xs) in (h, Some l')
      | _ => (h, None)
      end
  end.

Definition copy_urls (h : heap) (p : option loc) : heap * option loc :=
  match p with
  | None => (h, None)
  | Some l =>
      match h !! l with
      | Some (CURLs ps) =>
          let '(h, ps') := copy_url_list h ps in
          let '(h, l') := alloc h (CURLs ps') in (h, Some l')
      | _ => (h, None)
      end
  end.

(** Modelled from the spec: [deepCopy(dst, src)], which [Clone] calls and
    whose source is not part of the files at hand.  Following the spec
    ("an explicit, recursive field-by-field copy, including every element
    of every list and every nested URI/credential structure, never a
    shared-reference assignment"), every URL, every credential and every
    backing array reachable from [src] is copied into a newly allocated
    cell, and the struct at [dst] is overwritten with the pointers to the
    copies. *)
Definition deepCopy (h : heap) (dst src : loc) : heap :=
  match h !! src with
  | Some (CConfig k) =>
      let '(h, l) := copy_url h (pLocalProxyURI k) in
      let '(h, u) := copy_url h (pUpstreamProxyURI k) in
      let '(h, pac) := copy_url h (pPACURI k) in
      let '(h, creds) := copy_strings h (pPACProxiesCredentials k) in
      let '(h, dns) := copy_urls h (pDNSURIs k) in
      let '(h, sites) := copy_strings h (pSiteCredentials k) in
      <[dst := CConfig (mkConfigCell l u pac creds dns (vProxyLocalhost k)
                                     sites)]> h
  | _ => h
  end.

(** The zero value [ProxyConfig{}] that [new(ProxyConfig)] allocates. *)
Definition zeroConfig : ConfigCell :=
  mkConfigCell None None None None None false None.

(** [ProxyConfig.Clone] *)
Definition Clone (h : heap) (c : loc) : heap * loc :=
  let '(h, v) := alloc h (CConfig zeroConfig) in
  (deepCopy h v c, v).

End Memory.

(** ** package compose: [Compose.Run] *)

Module Compose.

Inductive stage : Type := Save | Up | Wait | Callback | Down.

Section Run.
(** The state of everything outside the program (file system, docker). *)
Context {World : Type}.

(** A call that acts on the world and returns an [error]. *)
Definition action : Type := World -> World * option error.

(** [Service]; [WaitFunc] is a [func() error], nil when absent. *)
Record Service : Type := mkService {
  Name : string;
  Image : string;
  Command : string;
  Environment : gmap string string;
  Ports : list string;
  Volumes : list string;
  WaitFunc : option action
}.

Record Compose : Type := mkCompose {
  Path : string;
  Version : string;
  Services : gmap string Service
}.

(** The methods [Run] calls.  They act on the world only: [save] writes the
    manifest to the path it is given, [up] and [down] run docker, and [wait]
    runs the services' wait functions concurrently and returns the first
    error; what each of them does to the world is left open. *)
Variable save : Compose -> string -> action.
Variables up wait down : Compose -> action.

(** A computation over the world that also records which stages were
    run, in order. *)
Definition M (A : Type) : Type :=
  World * list stage -> A * (World * list stage).

Definition call (s : stage) (a : action) : M (option error) :=
  fun '(w, tr) => let '(w', err) := a w in (err, (w', tr ++ [s])).

Definition Run (c : Compose) (callback : action) (preserve : bool)
    : M (option error) :=
  fun st =>
    let '(err, st) := call Save (save c (Path c)) st in
    match err with
    | Some err => (Some (Errorf "compose save: %w" [ArgW err]), st)
    | None =>
    let '(err, st) := call Up (up c) st in
    match err with
    | Some err => (Some (Errorf "compose up: %w" [ArgW err]), st)
    | None =>
    let '(err, st) := call Wait (wait c) st in
    match err with
    | Some err => (Some (Errorf "compose wait: %w" [ArgW err]), st)
    | None =>
    let '(err, st) := call Callback callback st in
    match err with
    | Some err => (Some err, st)
    | None =>
        if negb preserve then
          let '(err, st) := call Down (down c) st in
          match err with
          | Some err => (Some (Errorf "compose down: %w" [ArgW err]), st)
          | None => (None, st)
          end
        else (None, st)
    end end end end.

End Run.

End Compose.

(** ** Vocabulary of the statements *)

Module Spec.
Import Strings Url Regexp Fileurl Forwarder.

(** The byte [c] does not occur in [s]. *)
Definition no_byte (c : ascii) (s : string) : Prop :=
  ~ In c (list_ascii_of_string s).

(** Every byte of [s] satisfies [p]. *)
Definition all_bytes (p : ascii -> bool) (s : string) : Prop :=
  Forall (fun c => p c = true) (list_ascii_of_string s).

(** The schemes a proxy URI may have. *)
Definition proxy_schemes : list string :=
  ["http"; "https"; "socks"; "socks5"; "quic"].

(** The error of [ProxyConfig.Validate] for an upstream proxy and a PAC
    URI that are both set. *)
Definition only_one_error : error :=
  Errorf "only one of upstream_proxy_uri or pac_uri can be set" [].

(** What [ParseDNSURI] does to the URL it got from [url.Parse] before it
    validates it. *)
Definition dns_host_default (val : string) (u : URL) : URL :=
  if isEmpty (Host u) then set_Host zero val else u.

(** Sample proxy URLs: one with a scheme that is not allowed, one that
    passes [validateProxyURI]. *)
Definition ftp_url : URL := set_Host (set_Scheme zero "ftp") "host.example:8080".
Definition http_url : URL := set_Host (set_Scheme zero "http") "host.example:8080".

(** Bytes of a host name or of a dotted IPv4 address: letters, digits,
    hyphen and dot. *)
Definition host_byte (c : ascii) : bool := is_alnum c || one_of "-." c.

(** Bytes that stand for themselves everywhere in a URI (RFC 3986,
    unreserved): letters, digits, hyphen, dot, underscore and tilde. *)
Definition plain_byte (c : ascii) : bool := is_alnum c || one_of "-._~" c.

(** The number a string of decimal digits writes. *)
Definition decimal_value (s : string) : Z :=
  fold_left (fun n c => (n * 10 + (Z.of_N (N_of_ascii c) - 48))%Z)
            (list_ascii_of_string s) 0%Z.

(** The sub-delimiters of RFC 3986. *)
Definition sub_delim (c : ascii) : bool := one_of "!$&'()*+,;=" c.

(** Bytes of a registered name or of an IPv4 address written without
    percent-escapes (RFC 3986): unreserved bytes and sub-delimiters. *)
Definition reg_name_byte (c : ascii) : bool := plain_byte c || sub_delim c.

(** Bytes of a username (RFC 3986, the userinfo up to its first colon):
    those of a registered name and the percent sign of an escape. *)
Definition username_byte (c : ascii) : bool :=
  reg_name_byte c || eqb_byte c "%".

(** Bytes of a password: those of a username and the colon. *)
Definition password_byte (c : ascii) : bool :=
  username_byte c || eqb_byte c ":".

(** Bytes of a path (RFC 3986, pchar and the slash). *)
Definition path_char (c : ascii) : bool := password_byte c || one_of "@/" c.

(** Bytes of a query or of a fragment: those of a path and the question
    mark. *)
Definition query_char (c : ascii) : bool := path_char c || eqb_byte c "?".

(** Every percent sign of [s] begins an escape: two hexadecimal digits
    follow it. *)
Fixpoint escapes_ok (s : string) : bool :=
  match s with
  | EmptyString => true
  | String c s' =>
      if eqb_byte c "%" then
        match s' with
        | String h1 (String h2 s'') => ishex h1 && ishex h2 && escapes_ok s''
        | _ => false
        end
      else escapes_ok s'
  end.

(** [cred] is the credential part of a proxy URI string: nothing at all, or
    "username:password@" with a username and a password that are not empty
    and are written in the syntax of RFC 3986. *)
Definition credential (cred : string) : Prop :=
  cred = ""
  \/ exists user pass : string,
      cred = user +:+ ":" +:+ pass +:+ "@"
      /\ user <> "" /\ pass <> ""
      /\ all_bytes username_byte user /\ escapes_ok user = true
      /\ all_bytes password_byte pass /\ escapes_ok pass = true.

(** [p] is the path of a URI with an authority (RFC 3986, path-abempty):
    empty or beginning with a slash. *)
Definition uri_path (p : string) : Prop :=
  (p = "" \/ HasPrefix p "/" = true)
  /\ all_bytes path_char p /\ escapes_ok p = true.

(** [q] is the query of a URI, if it has one. *)
Definition uri_query (q : option string) : Prop :=
  forall s, q = Some s -> all_bytes query_char s.

(** [f] is the fragment of a URI, if it has one. *)
Definition uri_fragment (f : option string) : Prop :=
  forall s, f = Some s -> all_bytes query_char s /\ escapes_ok s = true.

(** An optional part of a URI string, with the separator that introduces
    it. *)
Definition opt_part (sep : string) (o : option string) : string :=
  match o with
  | None => ""
  | Some s => sep +:+ s
  end.

(** Bytes of "host:port". *)
Definition hostport_byte (c : ascii) : bool :=
  reg_name_byte c || eqb_byte c ":".

(** [k] slashes. *)
Fixpoint slashes (k : nat) : string :=
  match k with
  | O => EmptyString
  | S k' => String "/" (slashes k')
  end.

(** The statements of [ParseFilePathOrURL] marked "Handle UNC paths",
    applied to the value after the backslash replacement. *)
Definition unc_rewrite (v : string) : string :=
  let val := if HasPrefix v "//" then "file:" +:+ v else v in
  match uncEmptyAuthorityRegex val with
  | Some (m0, m1) => "file://" +:+ m1 +:+ str_drop (len m0) val
  | None => val
  end.

(** The statements of [ParseFilePathOrURL] that follow [url.Parse]. *)
Definition file_fixup (u : URL) : URL :=
  let u := if isEmpty (Scheme u) then set_Scheme u "file" else u in
  if negb (String.eqb (Scheme u) "file") then u
  else
    let u :=
      if isEmpty (Path u) && negb (isEmpty (Opaque u))
      then set_Opaque (set_Path u (Opaque u)) (Path u)
      else u in
    let u :=
      match windowsVolumeRegex (Path u) with
      | Some (m0, m1) =>
          set_Path u (m1 +:+ ":/" +:+ str_drop (len m0) (Path u))
      | None => u
      end in
    set_OmitHost u false.

(** Bytes of an authority made of plain bytes, colons and at signs. *)
Definition auth_byte (c : ascii) : bool := plain_byte c || one_of ":@" c.

(** A byte that [unescape] copies in the given mode. *)
Definition copied (mode : encoding) (c : ascii) : bool :=
  negb (eqb_byte c "%") && negb (eqb_byte c "+")
  && negb ((encoding_eqb mode encodeHost || encoding_eqb mode encodeZone)
           && (byte c <? 128)%N && shouldEscape c encodeHost).

(** A byte that is not a control byte. *)
Definition not_ctl (b : ascii) : bool :=
  negb ((byte b <? 32)%N || (byte b =? 127)%N).

(** A byte that [validUserinfo] accepts. *)
Definition userinfo_byte (r : ascii) : bool :=
  is_alnum r || one_of "-._:~!$&'()*+,;=%@" r.

(** The cells [X] were allocated between the heaps [h] and [h']. *)
Definition allocated_since (h h' : Memory.heap) (X : gset Memory.loc) : Prop :=
  forall l, l ∈ X -> l ∈ dom h' /\ l ∉ dom h.

(** A heap with one configuration, at location 1: a local proxy URL with
    a credential, a list of PAC credentials and one DNS URL. *)
Definition sample_heap : Memory.heap :=
  <[1%positive := Memory.CConfig
       (Memory.mkConfigCell (Some 2%positive) None None (Some 4%positive)
                            (Some 5%positive) true None)]>
  (<[2%positive := Memory.CURL http_url (Some 3%positive)]>
   (<[3%positive := Memory.CUserinfo (UserPassword "user" "password")]>
    (<[4%positive := Memory.CStrings ["a:b"]]>
     (<[5%positive := Memory.CURLs [Some 6%positive]]>
      (<[6%positive := Memory.CURL
           (set_Host (set_Scheme zero "udp") "1.1.1.1:53") None]> ∅))))).

(** What [sample_heap] holds at location 1. *)
Definition sample_config : ProxyConfig :=
  mkProxyConfig
    (Some (set_User http_url (Some (UserPassword "user" "password"))))
    None None ["a:b"]
    [Some (set_Host (set_Scheme zero "udp") "1.1.1.1:53")] true [].

End Spec.

(** ** package compose: services *)

Module Services.
Import Strings Compose.

Section Services.
Context {World : Type}.

(** [Service.Validate]; the receiver is a [*Service], [None] when nil. *)
Definition Service_Validate (s : option (@Service World)) : option error :=
match s with
| None => Some (Errorf "service is nil" [])
| Some s =>
    if isEmpty (Image s) then Some (Errorf "service image is empty" [])
    else if isEmpty (Name s) then Some (Errorf "service name is empty" [])
    else None
end.

(** [newCompose] *)
Definition newCompose : @Compose World :=
mkCompose "docker-compose.yaml" "3.8" ∅.

(** [Compose.addService]: the compose after the call and the error.  The
    map holds the services themselves: [addService] never stores a nil
    pointer, so [c.Services[name] != nil] is "the key is present".  The
    case of a nil service that passes [Validate] does not occur. *)
Definition addService (c : @Compose World) (s : option (@Service World))
  : @Compose World * option error :=
match Service_Validate s, s with
| Some err, _ => (c, Some err)
| None, None => (c, None)
| None, Some s =>
    if is_Some_b (Services c !! Name s) then
      (c, Some (Errorf "service %s already exists" [ArgS (Name s)]))
    else
      (mkCompose (Path c) (Version c) (<[Name s := s]> (Services c)), None)
end.

End Services.

End Services.

(** ** More vocabulary *)

Module Vocabulary.
Import Strings Url Regexp Fileurl Forwarder Spec.

(** Bytes of a plain file path: unreserved bytes and the slash. *)
Definition path_byte (c : ascii) : bool := plain_byte c || eqb_byte c "/".

(** The schemes a DNS URI may have. *)
Definition dns_schemes : list string := ["udp"; "tcp"].

(** What [validateDNSURI] checks, as a proposition. *)
Definition dns_uri_ok (u : URL) : Prop :=
(Scheme u = "udp" \/ Scheme u = "tcp")
/\ Net.ParseIP (Hostname u) <> None
/\ (exists p, Strconv.Atoi (Port u) = Some p /\ (1 <= p <= 65535)%Z)
/\ User_ u = None
/\ Path u = "" /\ RawQuery u = "" /\ Fragment u = "".

(** What [validateProxyURI] checks on a URI that is present. *)
Definition proxy_uri_ok (u : URL) : Prop :=
In (Scheme u) proxy_schemes
/\ (4 <= len (Hostname u))%nat
/\ (exists p, Strconv.Atoi (Port u) = Some p /\ (1 <= p <= 65535)%Z)
/\ (forall ui, User_ u = Some ui -> username ui <> "" /\ password ui <> "").

(** A DNS entry that the loop of [Validate] passes. *)
Definition dns_entry_ok (d : option URL) : Prop :=
  exists u, d = Some u /\ dns_uri_ok u.

(** An optional proxy URI that [validateProxyURI] passes. *)
Definition proxy_opt_ok (o : option URL) : Prop :=
  forall u, o = Some u -> proxy_uri_ok u.

(** The checks of [Validate] that come before the loop over the DNS URIs
    all pass. *)
Definition prechecks_ok (c : ProxyConfig) : Prop :=
(exists l, LocalProxyURI c = Some l /\ proxy_uri_ok l)
/\ proxy_opt_ok (UpstreamProxyURI c)
/\ proxy_opt_ok (PACURI c)
/\ (UpstreamProxyURI c = None \/ PACURI c = None).

(** A proxy URI that is absent or was returned by [ParseProxyURI]. *)
Definition parsed_proxy (o : option URL) : Prop :=
forall u, o = Some u -> exists v, ParseProxyURI v = Ok u.

(** A run of [addService] calls, whatever each of them returns. *)
Definition add_all {World : Type} (c : @Compose.Compose World)
  (ss : list (option (@Compose.Service World))) : @Compose.Compose World :=
fold_left (fun c s => fst (Services.addService c s)) ss c.

(** Every service is stored under its own name, and has a name and an
    image. *)
Definition services_ok {World : Type} (c : @Compose.Compose World) : Prop :=
forall (k : string) (s : @Compose.Service World),
  Compose.Services c !! k = Some s ->
  Compose.Name s = k /\ Compose.Name s <> "" /\ Compose.Image s <> "".

(** A sample action on a world that is the list of the commands run so
    far: it appends its name and returns [err]. *)
Definition logged (name : string) (err : option error)
    : @Compose.action (list string) :=
  fun w => (w ++ [name], err).

End Vocabulary.

(** * Properties *)

Import Strings Url Regexp Fileurl Forwarder Spec Vocabulary.

(** ** Facts about Go strings *)

#[local] Arguments String.append !s1 s2 : simpl nomatch.

Section StringFacts.

Lemma append_nil_r (s : string) : s +:+ "" = s.
Proof. induction s as [|c s IH]; simpl; [reflexivity | now rewrite IH]. Qed.

Lemma append_assoc (a b c : string) : (a +:+ b) +:+ c = a +:+ (b +:+ c).
Proof. induction a as [|x a IH]; simpl; [reflexivity | now rewrite IH]. Qed.

Lemma len_append (a b : string) : len (a +:+ b) = (len a + len b)%nat.
Proof. induction a as [|x a IH]; simpl; [reflexivity | now rewrite IH]. Qed.

Lemma str_take_drop (n : nat) (s : string) : str_take n s +:+ str_drop n s = s.
Proof.
  revert s; induction n as [|n IH]; intros [|c s]; simpl; try reflexivity.
  now rewrite IH.
Qed.

Lemma len_str_take (n : nat) (s : string) :
  (n <= len s)%nat -> len (str_take n s) = n.
Proof.
  revert s; induction n as [|n IH]; intros [|c s]; simpl; intros H;
    try reflexivity; try lia.
  rewrite IH; [reflexivity | lia].
Qed.

Lemma str_drop_append (a b : string) : str_drop (len a) (a +:+ b) = b.
Proof. induction a as [|x a IH]; simpl; [now destruct b | exact IH]. Qed.

Lemma str_take_append (a b : string) : str_take (len a) (a +:+ b) = a.
Proof. induction a as [|x a IH]; simpl; [now destruct b | now rewrite IH]. Qed.

Lemma str_drop_add (n m : nat) (s : string) :
  str_drop (n + m) s = str_drop m (str_drop n s).
Proof.
  revert s; induction n as [|n IH]; intros s; simpl.
  - reflexivity.
  - destruct s as [|c s]; simpl; [now destruct m | apply IH].
Qed.

Lemma isEmpty_true (s : string) : isEmpty s = true <-> s = "".
Proof. destruct s; simpl; split; congruence. Qed.

Lemma isEmpty_false (s : string) : isEmpty s = false <-> s <> "".
Proof. destruct s; simpl; split; congruence. Qed.

Lemma eqb_byte_eq (a b : ascii) : eqb_byte a b = true <-> a = b.
Proof. apply Ascii.eqb_eq. Qed.

Lemma eqb_byte_neq (a b : ascii) : eqb_byte a b = false <-> a <> b.
Proof. apply Ascii.eqb_neq. Qed.

Lemma HasPrefix_spec (s p : string) :
  HasPrefix s p = true <-> exists t, s = p +:+ t.
Proof.
  revert s; induction p as [|x p IH]; intros s; simpl.
  - split; [intros _; now exists s | reflexivity].
  - destruct s as [|c s].
    + split; [discriminate | intros [t Ht]; discriminate].
    + rewrite andb_true_iff, eqb_byte_eq, IH. split.
      * intros [-> [t ->]]. now exists t.
      * intros [t Ht]. injection Ht as -> ->. split; [reflexivity | now exists t].
Qed.

Lemma HasPrefix_append (p t : string) : HasPrefix (p +:+ t) p = true.
Proof. apply HasPrefix_spec. now exists t. Qed.

Lemma LastIndex_byte_last (h : string) (c : ascii) (t : string) :
  ~ In c (list_ascii_of_string t) ->
  LastIndex (h +:+ String c t) (String c "") = Some (len h).
Proof.
  intros Ht.
  assert (Hnone : LastIndex t (String c "") = None).
  { induction t as [|x t IH]; [reflexivity|].
    simpl in Ht. simpl. rewrite IH by tauto.
    replace (eqb_byte x c) with false; [reflexivity|].
    symmetry. apply Ascii.eqb_neq. tauto. }
  induction h as [|x h IH]; simpl.
  - rewrite Hnone. unfold eqb_byte. now rewrite Ascii.eqb_refl.
  - now rewrite IH.
Qed.

Lemma no_byte_cons (c x : ascii) (s : string) :
  no_byte c (String x s) <-> x <> c /\ no_byte c s.
Proof. unfold no_byte. simpl. tauto. Qed.

Lemma Index_byte_absent (s : string) (c : ascii) :
  no_byte c s -> Index s (String c "") = None.
Proof.
  induction s as [|x s IH]; intros H; [reflexivity|].
  apply no_byte_cons in H as [Hx Hs]. simpl.
  apply eqb_byte_neq in Hx. rewrite Hx. simpl. now rewrite IH.
Qed.

Lemma Index_byte_first (u : string) (c : ascii) (p : string) :
  no_byte c u -> Index (u +:+ String c p) (String c "") = Some (len u).
Proof.
  induction u as [|x u IH]; intros H.
  - simpl. unfold eqb_byte. now rewrite Ascii.eqb_refl.
  - apply no_byte_cons in H as [Hx Hu]. simpl.
    apply eqb_byte_neq in Hx. rewrite Hx. simpl. now rewrite IH.
Qed.

Lemma Cut_byte_absent (s : string) (c : ascii) :
  no_byte c s -> Cut s (String c "") = (s, "", false).
Proof. intros H. unfold Cut. now rewrite Index_byte_absent. Qed.

Lemma Cut_byte_first (u : string) (c : ascii) (p : string) :
  no_byte c u -> Cut (u +:+ String c p) (String c "") = (u, p, true).
Proof.
  intros H. unfold Cut. rewrite Index_byte_first by assumption.
  rewrite str_take_append, str_drop_add, str_drop_append. reflexivity.
Qed.

End StringFacts.


(** ** [ParseFilePathOrURL] *)

Section FileurlFacts.

Lemma ParseFilePathOrURL_steps (val : string) :
  val <> "-" ->
  ParseFilePathOrURL val
  = (u ← Parse (unc_rewrite (ReplaceAll val backslash "/")); Ok (file_fixup u)).
Proof.
  intros Hne. unfold ParseFilePathOrURL, unc_rewrite, file_fixup.
  apply String.eqb_neq in Hne. rewrite Hne.
  destruct (Parse _) as [u|e]; simpl; [|reflexivity].
  destruct (negb (String.eqb _ "file")); reflexivity.
Qed.

Lemma ReplaceAll_append (a b : string) (old : ascii) (new : string) :
  ReplaceAll (a +:+ b) old new = ReplaceAll a old new +:+ ReplaceAll b old new.
Proof.
  induction a as [|c a IH]; simpl; [reflexivity|].
  destruct (eqb_byte c old); rewrite IH; [|reflexivity].
  now rewrite append_assoc.
Qed.

Lemma ReplaceAll_no_byte (s : string) (old : ascii) (new : string) :
  no_byte old s -> ReplaceAll s old new = s.
Proof.
  unfold no_byte. induction s as [|c s IH]; simpl; intros H; [reflexivity|].
  destruct (eqb_byte c old) eqn:E.
  - apply eqb_byte_eq in E. exfalso. apply H. now left.
  - rewrite IH; [reflexivity|]. intros Hin. apply H. now right.
Qed.

Lemma ReplaceAll_clears (s : string) :
  no_byte backslash (ReplaceAll s backslash "/").
Proof.
  unfold no_byte. induction s as [|c s IH]; simpl; [tauto|].
  destruct (eqb_byte c backslash) eqn:E; simpl.
  - intros [H|H]; [discriminate | tauto].
  - apply eqb_byte_neq in E. intros [H|H]; [congruence | tauto].
Qed.

Lemma no_byte_append (c : ascii) (a b : string) :
  no_byte c (a +:+ b) <-> no_byte c a /\ no_byte c b.
Proof.
  unfold no_byte. induction a as [|x a IH]; simpl; [tauto|]. tauto.
Qed.

Lemma slash_run_slashes (k : nat) (c : ascii) (rest : string) :
  c <> "/"%char -> slash_run (slashes k +:+ String c rest) = k.
Proof.
  intros Hc. induction k as [|k IH]; simpl.
  - apply eqb_byte_neq in Hc. now rewrite Hc.
  - now rewrite IH.
Qed.

Lemma len_slashes (k : nat) : len (slashes k) = k.
Proof. induction k as [|k IH]; simpl; [reflexivity | now rewrite IH]. Qed.

Lemma rune_width_le (s : string) : (rune_width s <= len s)%nat.
Proof.
  destruct s as [|b0 [|b1 [|b2 [|b3 s]]]]; simpl;
    repeat match goal with
           | |- context [if ?b then _ else _] => destruct b
           end; simpl; lia.
Qed.

(** The repair of the empty-authority form: whatever the width of the rune
    matched by the group, the slash run is dropped and the rest kept. *)
Lemma unc_rewrite_empty_authority (k : nat) (c : ascii) (rest : string) :
  (4 <= k)%nat -> c <> "/"%char ->
  unc_rewrite ("file:" +:+ slashes k +:+ String c rest)
  = "file://" +:+ String c rest.
Proof.
  intros Hk Hc. unfold unc_rewrite.
  change (HasPrefix ("file:" +:+ slashes k +:+ String c rest) "//") with false.
  cbv iota. unfold uncEmptyAuthorityRegex.
  rewrite HasPrefix_append.
  change (str_drop 5 ("file:" +:+ slashes k +:+ String c rest))
    with (slashes k +:+ String c rest).
  rewrite slash_run_slashes by assumption.
  replace (str_drop (5 + k) ("file:" +:+ slashes k +:+ String c rest))
    with (String c rest).
  2:{ rewrite str_drop_add.
      change (str_drop 5 ("file:" +:+ slashes k +:+ String c rest))
        with (slashes k +:+ String c rest).
      rewrite <- (len_slashes k) at 1. now rewrite str_drop_append. }
  apply Nat.leb_le in Hk. rewrite Hk. cbn [isEmpty negb andb].
  set (m1 := str_take (rune_width (String c rest)) (String c rest)).
  set (val := "file:" +:+ slashes k +:+ String c rest).
  assert (Hlen : len (str_take (5 + k) val) = (5 + k)%nat).
  { apply len_str_take. unfold val. rewrite !len_append, len_slashes.
    simpl. lia. }
  rewrite len_append, Hlen, str_drop_add.
  replace (str_drop (5 + k) val) with (String c rest).
  2:{ unfold val. rewrite str_drop_add.
      change (str_drop 5 ("file:" +:+ slashes k +:+ String c rest))
        with (slashes k +:+ String c rest).
      rewrite <- (len_slashes k) at 1. now rewrite str_drop_append. }
  unfold m1.
  rewrite (len_str_take _ _ (rune_width_le (String c rest))).
  now rewrite str_take_drop.
Qed.

End FileurlFacts.

(** The repair of drive-letter paths, which a URL of scheme "file" (or of no
    scheme) does reach: a path [/L:/rest], [L:/rest], [/L|/rest] or
    [L|/rest] becomes [L:/rest]. *)
Lemma drive_letter_repair (u : URL) (lead : string) (l sep : ascii)
    (rest : string) :
  Scheme u = "" \/ Scheme u = "file" ->
  lead = "" \/ lead = "/" ->
  is_letter l = true -> sep = ":"%char \/ sep = "|"%char ->
  Path u = lead +:+ String l (String sep (String "/" rest)) ->
  Path (file_fixup u) = String l (":/" +:+ rest).
Proof.
  intros Hs Hlead Hl Hsep Hp. unfold file_fixup.
  set (u1 := if isEmpty (Scheme u) then set_Scheme u "file" else u).
  assert (Hs1 : Scheme u1 = "file").
  { unfold u1. destruct Hs as [E|E]; rewrite E; simpl; [reflexivity | exact E]. }
  assert (Hp1 : Path u1 = Path u).
  { unfold u1. now destruct (isEmpty (Scheme u)). }
  rewrite Hs1. cbn [String.eqb Ascii.eqb Bool.eqb negb]. cbv iota.
  replace (isEmpty (Path u1)) with false.
  2:{ symmetry. apply isEmpty_false. rewrite Hp1, Hp.
      destruct Hlead as [-> | ->]; discriminate. }
  cbn [andb]. cbv iota. rewrite Hp1, Hp.
  assert (Hl' : l <> "/"%char) by (intros ->; discriminate Hl).
  apply eqb_byte_neq in Hl'.
  destruct Hlead as [-> | ->], Hsep as [-> | ->];
    unfold windowsVolumeRegex; simpl; rewrite ?Hl'; simpl; rewrite Hl;
    reflexivity.
Qed.

(** C1 (the code at the claim's input).  [ParseFilePathOrURL] does not give
    the Windows path [C:\foo\bar] the scheme "file" and the path
    "C:/foo/bar": after the backslashes are replaced, [url.Parse] reads the
    drive letter as the scheme "c", and the function returns at its
    non-file exit with the path "/foo/bar". *)
Theorem C1_drive_letter_read_as_scheme :
  ParseFilePathOrURL "C:\foo\bar"
  = Ok (set_OmitHost (set_Path (set_Scheme zero "c") "/foo/bar") true).
Proof. vm_compute. reflexivity. Qed.

(** The other spellings of the same Windows path reach the drive-letter
    repair and do give scheme "file" and path "C:/foo/bar". *)
Lemma drive_letter_sibling_forms :
  Forall (fun val =>
            ParseFilePathOrURL val
            = Ok (set_Path (set_Scheme zero "file") "C:/foo/bar"))
         ["file:C:\foo\bar"; "file:///C:/foo/bar"; "/C:\foo\bar";
          "file:/C:/foo/bar"].
Proof. repeat constructor. Qed.

Lemma drive_letter_pipe_form :
  ParseFilePathOrURL "C|\foo\bar"
  = Ok (set_RawPath (set_Path (set_Scheme zero "file") "C:/foo/bar")
                    "C|/foo/bar").
Proof. vm_compute. reflexivity. Qed.

(** C8.  UNC input: a string that starts with two slashes is parsed as the
    same string behind the marker "file:"; a string that (after the backslash
    replacement) is "file:" followed by four or more slashes and a byte other
    than a slash is parsed as "file://" followed by what comes after the slash
    run, so that the segment after the run is the authority; and the two
    examples. *)
Theorem C8_unc_paths :
  (forall val : string,
      HasPrefix val "//" = true ->
      ParseFilePathOrURL val = ParseFilePathOrURL ("file:" +:+ val))
  /\ (forall (val : string) (k : nat) (c : ascii) (rest : string),
         (4 <= k)%nat -> c <> "/"%char ->
         ReplaceAll val backslash "/"
         = "file:" +:+ slashes k +:+ String c rest ->
         ParseFilePathOrURL val
         = ParseFilePathOrURL ("file://" +:+ String c rest))
  /\ ParseFilePathOrURL "file:////server/share"
     = Ok (set_Path (set_Host (set_Scheme zero "file") "server") "/share")
  /\ ParseFilePathOrURL "//server/share/file"
     = Ok (set_Path (set_Host (set_Scheme zero "file") "server")
                    "/share/file").
Proof.
  split; [|split; [|split; vm_compute; reflexivity]].
  - intros val H. apply HasPrefix_spec in H as [t ->].
    rewrite !ParseFilePathOrURL_steps by discriminate.
    rewrite <- append_assoc, !ReplaceAll_append.
    reflexivity.
  - intros val k c rest Hk Hc Hval.
    assert (Hfree : no_byte backslash (String c rest)).
    { pose proof (ReplaceAll_clears val) as Hcl. rewrite Hval in Hcl.
      apply no_byte_append in Hcl as [_ Hcl].
      now apply no_byte_append in Hcl as [_ Hcl]. }
    rewrite (ParseFilePathOrURL_steps val).
    2:{ intros ->. discriminate Hval. }
    rewrite (ParseFilePathOrURL_steps ("file://" +:+ String c rest))
      by discriminate.
    rewrite Hval, unc_rewrite_empty_authority by assumption.
    rewrite ReplaceAll_append, (ReplaceAll_no_byte (String c rest)) by assumption.
    change (ReplaceAll "file://" backslash "/") with "file://".
    unfold unc_rewrite. simpl "+:+".
    cbn [HasPrefix eqb_byte Ascii.eqb Bool.eqb andb].
    unfold uncEmptyAuthorityRegex.
    cbn [HasPrefix eqb_byte Ascii.eqb Bool.eqb andb str_drop slash_run].
    apply eqb_byte_neq in Hc. rewrite Hc.
    reflexivity.
Qed.

Lemma C8_unc_paths_witness :
  ParseFilePathOrURL "//server/share/file"
  = ParseFilePathOrURL "file://server/share/file"
  /\ ParseFilePathOrURL "file:\\\\server\share"
     = ParseFilePathOrURL "file://server/share".
Proof.
  split.
  - apply (proj1 C8_unc_paths "//server/share/file"). reflexivity.
  - apply (proj1 (proj2 C8_unc_paths) "file:\\\\server\share" 4%nat "s"%char
                 "erver/share").
    + lia.
    + discriminate.
    + reflexivity.
Defined.

(** ** Credentials and proxy URIs *)

(** C6.  [ParseUserInfo]: the empty input is no credential and no error; an
    input without a colon fails; an input is split at its first colon, and
    fails when the part before or the part after is empty, and otherwise
    gives that username and password. *)
Theorem C6_ParseUserInfo :
  ParseUserInfo "" = Ok None
  /\ (forall val : string,
         val <> "" -> no_byte ":" val ->
         ParseUserInfo val = Err (Errorf "expected username:password" []))
  /\ (forall u p : string,
         no_byte ":" u ->
         ParseUserInfo (u +:+ ":" +:+ p)
         = if isEmpty u then Err (Errorf "username cannot be empty" [])
           else if isEmpty p then Err (Errorf "password cannot be empty" [])
           else Ok (Some (UserPassword u p)))
  /\ ParseUserInfo "alice:secret" = Ok (Some (UserPassword "alice" "secret")).
Proof.
  split; [reflexivity|]. split; [|split; [|reflexivity]].
  - intros val Hne Hcolon. unfold ParseUserInfo.
    apply isEmpty_false in Hne. rewrite Hne.
    now rewrite Cut_byte_absent.
  - intros u p Hu. unfold ParseUserInfo.
    replace (isEmpty (u +:+ ":" +:+ p)) with false by (now destruct u).
    change (":" +:+ p) with (String ":" p).
    rewrite Cut_byte_first by assumption.
    simpl. destruct (isEmpty u); [reflexivity|].
    destruct (isEmpty p); reflexivity.
Qed.

Lemma C6_ParseUserInfo_witness :
  ParseUserInfo "alice" = Err (Errorf "expected username:password" [])
  /\ ParseUserInfo "bob:p:w" = Ok (Some (UserPassword "bob" "p:w")).
Proof.
  split.
  - apply (proj1 (proj2 C6_ParseUserInfo) "alice").
    + discriminate.
    + unfold no_byte. simpl. intuition discriminate.
  - apply (proj1 (proj2 (proj2 C6_ParseUserInfo)) "bob" "p:w").
    unfold no_byte. simpl. intuition discriminate.
Defined.

Section ProxyFacts.

Lemma scheme_test (s : string) :
  negb (String.eqb s "http") && negb (String.eqb s "https")
  && negb (String.eqb s "socks5") && negb (String.eqb s "socks")
  && negb (String.eqb s "quic") = true
  <-> ~ In s proxy_schemes.
Proof.
  unfold proxy_schemes. split.
  - intros H [<-|[<-|[<-|[<-|[<-|[]]]]]]; discriminate H.
  - intros H. simpl in H.
    repeat match goal with
           | |- context [String.eqb s ?x] =>
               destruct (String.eqb_spec s x); [exfalso; apply H; subst; tauto|]
           end.
    reflexivity.
Qed.

Lemma isPort_false (port : string) :
  isPort port = false
  <-> Strconv.Atoi port = None
      \/ exists p, Strconv.Atoi port = Some p /\ ~ (1 <= p <= 65535)%Z.
Proof.
  unfold isPort. destruct (Strconv.Atoi port) as [p|].
  - rewrite andb_false_iff, !Z.leb_gt. split.
    + intros H. right. exists p. split; [reflexivity | lia].
    + intros [H|[q [[= <-] H]]]; [discriminate | lia].
  - split; [now left | reflexivity].
Qed.

Lemma validatedUserInfo_error (ui : option Userinfo) :
  validatedUserInfo ui <> None
  <-> exists i, ui = Some i /\ (username i = "" \/ password i = "").
Proof.
  destruct ui as [i|]; simpl.
  - destruct (isEmpty (username i)) eqn:Eu; [|destruct (isEmpty (password i)) eqn:Ep].
    + apply isEmpty_true in Eu. split; [|discriminate].
      intros _. exists i. tauto.
    + apply isEmpty_true in Ep. split; [|discriminate].
      intros _. exists i. tauto.
    + apply isEmpty_false in Eu, Ep. split; [congruence|].
      intros [j [[= <-] [H|H]]]; contradiction.
  - split; [congruence | intros [i [H _]]; discriminate].
Qed.

End ProxyFacts.

(** C3.  [validateProxyURI] accepts the nil URI; for a URI that is present it
    returns an error exactly when the scheme is not one of http, https,
    socks, socks5, quic, or the hostname has fewer than 4 bytes, or the port
    is missing, is not a number, or is outside 1..65535, or a credential is
    present with an empty username or an empty password. *)
Theorem C3_validateProxyURI :
  validateProxyURI None = None
  /\ forall u : URL,
      validateProxyURI (Some u) <> None
      <-> (~ In (Scheme u) proxy_schemes
           \/ (len (Hostname u) < 4)%nat
           \/ Port u = ""
           \/ Strconv.Atoi (Port u) = None
           \/ (exists p, Strconv.Atoi (Port u) = Some p
                         /\ ~ (1 <= p <= 65535)%Z)
           \/ (exists ui, User_ u = Some ui
                          /\ (username ui = "" \/ password ui = ""))).
Proof.
  split; [reflexivity|]. intros u. unfold validateProxyURI.
  pose proof (scheme_test (Scheme u)) as Hs.
  destruct (negb (String.eqb (Scheme u) "http") && _ && _ && _ && _) eqn:Es.
  { split; [intros _; left; now apply Hs | discriminate]. }
  assert (Hin : In (Scheme u) proxy_schemes).
  { destruct (In_dec string_dec (Scheme u) proxy_schemes) as [H|H];
      [exact H | apply Hs in H; discriminate]. }
  unfold minHostLength.
  destruct (len (Hostname u) <? 4)%nat eqn:Eh.
  { apply Nat.ltb_lt in Eh. split; [intros _; tauto | discriminate]. }
  apply Nat.ltb_ge in Eh.
  destruct (isEmpty (Port u)) eqn:Ep.
  { apply isEmpty_true in Ep. split; [intros _; tauto | discriminate]. }
  apply isEmpty_false in Ep.
  destruct (isPort (Port u)) eqn:Ei; simpl.
  - assert (Hport : ~ (Strconv.Atoi (Port u) = None
                       \/ exists p, Strconv.Atoi (Port u) = Some p
                                    /\ ~ (1 <= p <= 65535)%Z)).
    { intros H. apply isPort_false in H. congruence. }
    pose proof (validatedUserInfo_error (User_ u)) as Hu.
    destruct (validatedUserInfo (User_ u)) as [e|].
    + split; [intros _|discriminate].
      do 5 right. apply Hu. discriminate.
    + split; [congruence|].
      intros [H|[H|[H|[H|[H|H]]]]]; try tauto; try lia.
  - apply isPort_false in Ei. split; [intros _|discriminate].
    destruct Ei as [H|H]; tauto.
Qed.

Lemma C3_validateProxyURI_witness :
  validateProxyURI
    (Some (set_Host (set_Scheme zero "ftp") "host.example:8080")) <> None.
Proof.
  apply (proj2 C3_validateProxyURI).
  left. simpl. intuition discriminate.
Defined.

(** ** [ProxyConfig.Validate] *)

Section ValidateFacts.

Lemma validateDNSURIs_not_only_one (i : Z) (us : list (option URL)) :
  validateDNSURIs i us <> Returns (Some only_one_error).
Proof.
  revert i; induction us as [|[u|] us IH]; intros i; simpl;
    try discriminate.
  destruct (validateDNSURI u); [discriminate | apply IH].
Qed.

End ValidateFacts.

(** C5.  [Validate] returns an error for every configuration whose upstream
    proxy URI and PAC URI are both set. *)
Theorem C5_upstream_and_pac_both_set (c : ProxyConfig) (u p : URL) :
  UpstreamProxyURI c = Some u -> PACURI c = Some p ->
  exists e, Validate c = Returns (Some e).
Proof.
  intros Hu Hp. unfold Validate. rewrite Hu, Hp.
  destruct (LocalProxyURI c) as [l|]; [|eauto].
  destruct (validateProxyURI (Some l)); [eauto|].
  destruct (validateProxyURI (Some u)); [eauto|].
  destruct (validateProxyURI (Some p)); [eauto|].
  simpl. eauto.
Qed.

Lemma C5_upstream_and_pac_both_set_witness :
  exists e,
    Validate (mkProxyConfig (Some http_url) (Some http_url) (Some http_url)
                            [] [] false [])
    = Returns (Some e).
Proof.
  apply (C5_upstream_and_pac_both_set _ http_url http_url); reflexivity.
Defined.

(** C10, as stated, fails: with the upstream proxy URI and the PAC URI both
    set and the upstream one invalid, a configuration without a local proxy
    URI gets the error of the local proxy URI, which names neither
    "upstream_proxy_uri" nor "pac_uri". *)
Lemma C10_local_error_comes_first :
  let c := mkProxyConfig None (Some ftp_url) (Some http_url) [] [] false [] in
  UpstreamProxyURI c = Some ftp_url
  /\ PACURI c = Some http_url
  /\ validateProxyURI (Some ftp_url)
     = Some (Errorf "invalid scheme %q" [ArgS "ftp"])
  /\ Validate c = Returns (Some (Errorf "local_proxy_uri is required" []))
  /\ (forall e, Validate c
                <> Returns (Some (Errorf "upstream_proxy_uri: %w" [ArgW e])))
  /\ (forall e, Validate c
                <> Returns (Some (Errorf "pac_uri: %w" [ArgW e]))).
Proof. repeat split; intros; discriminate. Qed.

(** C10, amended.  For a configuration whose local proxy URI is present and
    valid and whose upstream proxy URI and PAC URI are both set: an invalid
    upstream URI gives its error wrapped with "upstream_proxy_uri"; a valid
    upstream URI and an invalid PAC URI give the PAC URI's error wrapped
    with "pac_uri"; two valid URIs give the "only one of" error.  And
    whenever [Validate] returns the "only one of" error, all three URIs are
    present and individually valid. *)
Theorem C10_checks_before_exclusion :
  (forall (c : ProxyConfig) (l u p : URL),
      LocalProxyURI c = Some l -> validateProxyURI (Some l) = None ->
      UpstreamProxyURI c = Some u -> PACURI c = Some p ->
      match validateProxyURI (Some u), validateProxyURI (Some p) with
      | Some e, _ =>
          Validate c = Returns (Some (Errorf "upstream_proxy_uri: %w" [ArgW e]))
      | None, Some e =>
          Validate c = Returns (Some (Errorf "pac_uri: %w" [ArgW e]))
      | None, None => Validate c = Returns (Some only_one_error)
      end)
  /\ (forall c : ProxyConfig,
         Validate c = Returns (Some only_one_error) ->
         exists l u p,
           LocalProxyURI c = Some l /\ UpstreamProxyURI c = Some u
           /\ PACURI c = Some p
           /\ validateProxyURI (Some l) = None
           /\ validateProxyURI (Some u) = None
           /\ validateProxyURI (Some p) = None).
Proof.
  split.
  - intros c l u p Hl Hlv Hu Hp. unfold Validate. rewrite Hl, Hlv, Hu, Hp.
    destruct (validateProxyURI (Some u)); [reflexivity|].
    destruct (validateProxyURI (Some p)); reflexivity.
  - intros c. unfold Validate.
    destruct (LocalProxyURI c) as [l|]; [|discriminate].
    destruct (validateProxyURI (Some l)) eqn:El; [discriminate|].
    destruct (validateProxyURI (UpstreamProxyURI c)) eqn:Eu; [discriminate|].
    destruct (validateProxyURI (PACURI c)) eqn:Ep; [discriminate|].
    destruct (UpstreamProxyURI c) as [u|], (PACURI c) as [p|]; simpl;
      intros H; try (now apply validateDNSURIs_not_only_one in H).
    exists l, u, p. tauto.
Qed.

Lemma C10_checks_before_exclusion_witness :
  Validate (mkProxyConfig (Some http_url) (Some ftp_url) (Some http_url)
                          [] [] false [])
  = Returns (Some (Errorf "upstream_proxy_uri: %w"
                          [ArgW (Errorf "invalid scheme %q" [ArgS "ftp"])]))
  /\ exists l u p,
      Some http_url = Some l /\ Some http_url = Some u /\ Some http_url = Some p
      /\ validateProxyURI (Some l) = None
      /\ validateProxyURI (Some u) = None
      /\ validateProxyURI (Some p) = None.
Proof.
  split.
  - exact (proj1 C10_checks_before_exclusion
             (mkProxyConfig (Some http_url) (Some ftp_url) (Some http_url)
                            [] [] false [])
             http_url ftp_url http_url eq_refl eq_refl eq_refl eq_refl).
  - exact (proj2 C10_checks_before_exclusion
             (mkProxyConfig (Some http_url) (Some http_url) (Some http_url)
                            [] [] false [])
             eq_refl).
Defined.

(** ** DNS URIs *)

Section DNSFacts.

Lemma Port_default (h : string) :
  snd (splitHostPort (h +:+ ":53")) = "53".
Proof.
  unfold splitHostPort, LastIndexByte.
  change (h +:+ ":53") with (h +:+ String ":" "53").
  rewrite LastIndex_byte_last by (simpl; intuition discriminate).
  rewrite str_drop_add, !str_drop_append.
  simpl str_drop. cbn [validOptionalPort].
  change (eqb_byte ":" ":" && forallb (between "0" "9")
                                      (list_ascii_of_string "53"))
    with true. cbv iota.
  destruct (HasPrefix _ "[" && _); reflexivity.
Qed.

Lemma validateDNSURI_ok (u : URL) :
  validateDNSURI u = None ->
  (Scheme u = "udp" \/ Scheme u = "tcp")
  /\ Net.ParseIP (Hostname u) <> None
  /\ (exists p, Strconv.Atoi (Port u) = Some p /\ (1 <= p <= 65535)%Z)
  /\ User_ u = None
  /\ Path u = "" /\ RawQuery u = "" /\ Fragment u = "".
Proof.
  unfold validateDNSURI.
  destruct (String.eqb_spec (Scheme u) "udp") as [Hs|Hs];
    destruct (String.eqb_spec (Scheme u) "tcp") as [Hs'|Hs']; simpl;
    try discriminate;
    (destruct (Net.ParseIP (Hostname u)) as [ip|] eqn:Eip; simpl;
     [|discriminate];
     destruct (isPort (Port u)) eqn:Ep; simpl; [|discriminate];
     destruct (User_ u) as [ui|]; simpl; [discriminate|];
     destruct (isEmpty (Path u)) eqn:E1; simpl; [|discriminate];
     destruct (isEmpty (RawQuery u)) eqn:E2; simpl; [|discriminate];
     destruct (isEmpty (Fragment u)) eqn:E3; simpl; [|discriminate];
     intros _; apply isEmpty_true in E1, E2, E3;
     unfold isPort in Ep;
     destruct (Strconv.Atoi (Port u)) as [p|]; [|discriminate];
     apply andb_prop in Ep as [Hlo Hhi];
     apply Z.leb_le in Hlo, Hhi;
     repeat split; try tauto; try discriminate; eauto).
Qed.

End DNSFacts.

(** C4.  [ParseDNSURI]: whenever it succeeds, the generic parse succeeded;
    the URL that is validated is the parsed one, or the URL whose host is
    the whole input when the parse found no host; an empty scheme has become
    "udp" and an empty port has become "53"; and the result has the scheme
    "udp" or "tcp", a hostname that is a literal IP address, a port in
    1..65535, no credential, no path, no query and no fragment.  So
    "1.1.1.1" gives scheme "udp", hostname "1.1.1.1" and port "53", and
    "dns.example.com" is rejected. *)
Theorem C4_ParseDNSURI :
  (forall (val : string) (r : URL),
      ParseDNSURI val = Ok r ->
      exists u,
        Parse val = Ok u
        /\ Scheme r = (if isEmpty (Scheme (dns_host_default val u)) then "udp"
                       else Scheme (dns_host_default val u))
        /\ (Host u = "" -> dns_host_default val u = set_Host zero val)
        /\ (Host u <> "" -> dns_host_default val u = u)
        /\ Host r
           = (if isEmpty (Port (dns_host_default val u))
              then Host (dns_host_default val u) +:+ ":53"
              else Host (dns_host_default val u))
        /\ (Port (dns_host_default val u) = "" -> Port r = "53")
        /\ (Port (dns_host_default val u) <> "" ->
            Port r = Port (dns_host_default val u))
        /\ (Scheme r = "udp" \/ Scheme r = "tcp")
        /\ Net.ParseIP (Hostname r) <> None
        /\ (exists p, Strconv.Atoi (Port r) = Some p /\ (1 <= p <= 65535)%Z)
        /\ User_ r = None
        /\ Path r = "" /\ RawQuery r = "" /\ Fragment r = "")
  /\ (exists r,
         ParseDNSURI "1.1.1.1" = Ok r
         /\ Scheme r = "udp" /\ Hostname r = "1.1.1.1" /\ Port r = "53")
  /\ ParseDNSURI "dns.example.com"
     = Err (Errorf "invalid hostname: %s DNS must be an IP address"
                   [ArgS "dns.example.com"]).
Proof.
  split; [|split; [eexists; repeat split | reflexivity]].
  intros val r H. unfold ParseDNSURI in H.
  destruct (Parse val) as [u|e]; [|discriminate]. simpl in H.
  exists u. split; [reflexivity|].
  fold (dns_host_default val u) in H.
  set (u1 := dns_host_default val u) in *.
  set (u2 := if isEmpty (Scheme u1) then set_Scheme u1 "udp" else u1) in *.
  set (u3 := if isEmpty (Port u2) then set_Host u2 (Host u2 +:+ ":53") else u2)
    in *.
  destruct (validateDNSURI u3) eqn:Ev; [discriminate|].
  injection H as <-.
  assert (Hh2 : Host u2 = Host u1)
    by (unfold u2; now destruct (isEmpty (Scheme u1))).
  assert (Hp2 : Port u2 = Port u1) by (unfold Port; now rewrite Hh2).
  assert (Hs3 : Scheme u3 = Scheme u2)
    by (unfold u3; now destruct (isEmpty (Port u2))).
  assert (Hs2 : Scheme u2 = if isEmpty (Scheme u1) then "udp" else Scheme u1).
  { unfold u2. now destruct (isEmpty (Scheme u1)). }
  split; [now rewrite Hs3|].
  split; [intros E; unfold u1, dns_host_default; now rewrite E|].
  split; [intros E; unfold u1, dns_host_default;
          apply isEmpty_false in E; now rewrite E|].
  split.
  { unfold u3. rewrite Hp2, Hh2. now destruct (isEmpty (Port u1)). }
  split.
  { intros E. unfold u3. rewrite Hp2, E. simpl.
    unfold Port. simpl Host. apply Port_default. }
  split.
  { intros E. unfold u3. rewrite Hp2. apply isEmpty_false in E.
    now rewrite E, Hp2. }
  now apply validateDNSURI_ok.
Qed.

Lemma C4_ParseDNSURI_witness :
  exists u,
    Parse "tcp://1.1.1.1:5353" = Ok u
    /\ Scheme (set_Host (set_Scheme zero "tcp") "1.1.1.1:5353")
       = (if isEmpty (Scheme (dns_host_default "tcp://1.1.1.1:5353" u))
          then "udp" else Scheme (dns_host_default "tcp://1.1.1.1:5353" u)).
Proof.
  destruct (proj1 C4_ParseDNSURI "tcp://1.1.1.1:5353"
              (set_Host (set_Scheme zero "tcp") "1.1.1.1:5353") eq_refl)
    as [u [Hu [Hs _]]].
  exists u. split; assumption.
Defined.

(** ** [Compose.Run] *)

(** C9.  [Run] calls save, up, wait, the callback and down in this order,
    each on the world the one before it left.  The first of them that
    returns an error ends the run: nothing further is called, the world is
    as that call left it, and [Run] returns the error of save, up, wait or
    down wrapped as "compose save: ...", "compose up: ...",
    "compose wait: ..." or "compose down: ...", and the error of the
    callback as it is.  When the four first calls return nil, down is called
    exactly when [preserve] is false, and [Run] returns nil when down does
    or is left out. *)
Theorem C9_Run_stages :
  forall (World : Type)
         (save : Compose.Compose -> string -> @Compose.action World)
         (up wait down : Compose.Compose -> @Compose.action World)
         (c : Compose.Compose) (callback : @Compose.action World)
         (preserve : bool) (w : World),
    let run := Compose.Run save up wait down c callback preserve (w, []) in
    match save c (Compose.Path c) w with
    | (w1, Some err) =>
        run = (Some (Errorf "compose save: %w" [ArgW err]),
               (w1, [Compose.Save]))
    | (w1, None) =>
    match up c w1 with
    | (w2, Some err) =>
        run = (Some (Errorf "compose up: %w" [ArgW err]),
               (w2, [Compose.Save; Compose.Up]))
    | (w2, None) =>
    match wait c w2 with
    | (w3, Some err) =>
        run = (Some (Errorf "compose wait: %w" [ArgW err]),
               (w3, [Compose.Save; Compose.Up; Compose.Wait]))
    | (w3, None) =>
    match callback w3 with
    | (w4, Some err) =>
        run = (Some err,
               (w4, [Compose.Save; Compose.Up; Compose.Wait;
                     Compose.Callback]))
    | (w4, None) =>
        if preserve then
          run = (None,
                 (w4, [Compose.Save; Compose.Up; Compose.Wait;
                       Compose.Callback]))
        else
          match down c w4 with
          | (w5, Some err) =>
              run = (Some (Errorf "compose down: %w" [ArgW err]),
                     (w5, [Compose.Save; Compose.Up; Compose.Wait;
                           Compose.Callback; Compose.Down]))
          | (w5, None) =>
              run = (None,
                     (w5, [Compose.Save; Compose.Up; Compose.Wait;
                           Compose.Callback; Compose.Down]))
          end
    end end end end.
Proof.
  intros World save up wait down c callback preserve w run. subst run.
  unfold Compose.Run, Compose.call. cbn beta iota.
  destruct (save c (Compose.Path c) w) as [w1 [e1|]]; [reflexivity|].
  destruct (up c w1) as [w2 [e2|]]; [reflexivity|].
  destruct (wait c w2) as [w3 [e3|]]; [reflexivity|].
  destruct (callback w3) as [w4 [e4|]]; [reflexivity|].
  destruct preserve; [reflexivity|]. cbn [negb].
  destruct (down c w4) as [w5 [e5|]]; reflexivity.
Qed.

(** A run in which wait fails, on a world that lists the commands run: the
    manifest was saved and the services were brought up, the callback and
    the teardown were not run, and the error of wait is reported. *)
Lemma C9_Run_stages_witness :
  Compose.Run (fun _ path => logged ("save " +:+ path) None)
              (fun _ => logged "up" None)
              (fun _ => logged "wait" (Some (New "not ready")))
              (fun _ => logged "down" None)
              Services.newCompose (logged "callback" None) false ([], [])
  = (Some (Errorf "compose wait: %w" [ArgW (New "not ready")]),
     (["save docker-compose.yaml"; "up"; "wait"],
      [Compose.Save; Compose.Up; Compose.Wait])).
Proof.
  exact (C9_Run_stages (list string)
           (fun _ path => logged ("save " +:+ path) None)
           (fun _ => logged "up" None)
           (fun _ => logged "wait" (Some (New "not ready")))
           (fun _ => logged "down" None)
           Services.newCompose (logged "callback" None) false []).
Defined.

(** ** Proxy URI strings *)

Section ProxyURIStrings.

Lemma all_bytes_nil (p : ascii -> bool) : all_bytes p "".
Proof. constructor. Qed.

Lemma all_bytes_cons (p : ascii -> bool) (c : ascii) (s : string) :
  all_bytes p (String c s) <-> p c = true /\ all_bytes p s.
Proof.
  unfold all_bytes. simpl. split.
  - intros H. inversion H; subst. tauto.
  - intros [Hc Hs]. now constructor.
Qed.

Lemma all_bytes_append (p : ascii -> bool) (a b : string) :
  all_bytes p (a +:+ b) <-> all_bytes p a /\ all_bytes p b.
Proof.
  induction a as [|c a IH]; simpl.
  - split; [intros H; split; [apply all_bytes_nil | exact H] | tauto].
  - rewrite !all_bytes_cons, IH. tauto.
Qed.

Lemma all_bytes_weaken (p q : ascii -> bool) (s : string) :
  (forall c, p c = true -> q c = true) -> all_bytes p s -> all_bytes q s.
Proof.
  intros Hpq. induction s as [|c s IH]; [intros _; apply all_bytes_nil|].
  rewrite !all_bytes_cons. intros [Hc Hs]. auto.
Qed.

Lemma all_bytes_no_byte (p : ascii -> bool) (x : ascii) (s : string) :
  p x = false -> all_bytes p s -> no_byte x s.
Proof.
  intros Hx. induction s as [|c s IH]; intros H.
  - intros [].
  - apply all_bytes_cons in H as [Hc Hs]. apply no_byte_cons. split.
    + intros ->. congruence.
    + now apply IH.
Qed.

Lemma plain_is_auth (c : ascii) : plain_byte c = true -> auth_byte c = true.
Proof. unfold auth_byte. now intros ->. Qed.

Lemma host_is_plain (c : ascii) : host_byte c = true -> plain_byte c = true.
Proof.
  unfold host_byte, plain_byte. destruct (is_alnum c); [reflexivity|].
  simpl. unfold one_of; simpl.
  destruct (eqb_byte c "-"); [reflexivity|].
  destruct (eqb_byte c "."); [reflexivity|]. discriminate.
Qed.

Lemma digit_is_host (c : ascii) : Strconv.is_digit c = true -> host_byte c = true.
Proof.
  unfold Strconv.is_digit, host_byte, is_alnum. intros ->.
  now rewrite orb_true_r.
Qed.

(** What the parser needs to know about one byte of an authority. *)
Lemma auth_byte_facts (c : ascii) :
  auth_byte c = true ->
  (byte c <? 32)%N || (byte c =? 127)%N = false
  /\ (is_alnum c || one_of "-._:~!$&'()*+,;=%@" c) = true
  /\ (plain_byte c = true \/ c = ":"%char -> copied encodeHost c = true)
  /\ (plain_byte c = true -> copied encodeUserPassword c = true).
Proof.
  destruct c as [[] [] [] [] [] [] [] []]; intros H; vm_compute in H;
    try discriminate H; clear H;
    (split; [reflexivity | split; [reflexivity | split]]);
    first [ intros _; reflexivity
          | intros [H|H]; discriminate H
          | intros H; discriminate H ].
Qed.

Lemma no_ctl_byte (s : string) :
  all_bytes not_ctl s -> stringContainsCTLByte s = false.
Proof.
  unfold stringContainsCTLByte.
  induction s as [|c s IH]; [reflexivity|].
  intros H. apply all_bytes_cons in H as [Hc Hs]. simpl.
  rewrite IH by assumption. unfold not_ctl in Hc.
  apply negb_true_iff in Hc. now rewrite Hc.
Qed.

Lemma validUserinfo_bytes (s : string) :
  all_bytes userinfo_byte s -> validUserinfo s = true.
Proof.
  unfold validUserinfo.
  induction s as [|c s IH]; [reflexivity|].
  intros H. apply all_bytes_cons in H as [Hc Hs]. simpl.
  rewrite IH by assumption. unfold userinfo_byte in Hc. now rewrite Hc.
Qed.

Lemma unescape_check_copied (mode : encoding) (s : string) (n : nat)
    (hasPlus : bool) :
  all_bytes (copied mode) s ->
  unescape_check s mode n hasPlus = Ok (n, hasPlus).
Proof.
  induction s as [|c s IH]; [reflexivity|].
  intros H. apply all_bytes_cons in H as [Hc Hs].
  unfold copied in Hc.
  apply andb_prop in Hc as [Hc H3]. apply andb_prop in Hc as [H1 H2].
  apply negb_true_iff in H1, H2, H3.
  simpl. rewrite H1, H2, H3. now apply IH.
Qed.

Lemma unescape_copied (mode : encoding) (s : string) :
  all_bytes (copied mode) s -> unescape s mode = Ok s.
Proof.
  intros H. unfold unescape. now rewrite unescape_check_copied.
Qed.

Lemma validOptionalPort_digits (port : string) :
  all_bytes Strconv.is_digit port ->
  validOptionalPort (String ":" port) = true.
Proof.
  intros H. simpl. change (eqb_byte ":" ":") with true. simpl.
  induction port as [|c s IH]; [reflexivity|].
  apply all_bytes_cons in H as [Hc Hs]. simpl.
  unfold Strconv.is_digit in Hc. rewrite Hc. now apply IH.
Qed.

Lemma Count_absent (s : string) (c : ascii) : no_byte c s -> Count s c = 0%nat.
Proof.
  induction s as [|x s IH]; [reflexivity|].
  intros H. apply no_byte_cons in H as [Hx Hs]. simpl.
  apply eqb_byte_neq in Hx. rewrite Hx. now apply IH.
Qed.

Lemma digits_value (s : string) (n : Z) :
  all_bytes Strconv.is_digit s ->
  Strconv.digits s n
  = Some (fold_left (fun n c => (n * 10 + (Z.of_N (N_of_ascii c) - 48))%Z)
                    (list_ascii_of_string s) n).
Proof.
  revert n; induction s as [|c s IH]; intros n H; [reflexivity|].
  apply all_bytes_cons in H as [Hc Hs]. simpl. rewrite Hc.
  now apply IH.
Qed.

Lemma Atoi_decimal (port : string) :
  port <> "" -> all_bytes Strconv.is_digit port ->
  (1 <= decimal_value port <= 65535)%Z ->
  Strconv.Atoi port = Some (decimal_value port).
Proof.
  intros Hne Hd Hr. destruct port as [|c s]; [congruence|].
  pose proof Hd as Hd'. apply all_bytes_cons in Hd' as [Hc _].
  unfold Strconv.Atoi.
  replace (eqb_byte c "-") with false.
  2:{ symmetry. apply eqb_byte_neq. intros ->. discriminate Hc. }
  replace (eqb_byte c "+") with false.
  2:{ symmetry. apply eqb_byte_neq. intros ->. discriminate Hc. }
  cbv [orb]. cbv iota.
  rewrite digits_value by assumption.
  fold (decimal_value (String c s)).
  replace ((Strconv.minInt <=? decimal_value (String c s))%Z) with true.
  2:{ symmetry. apply Z.leb_le. unfold Strconv.minInt. lia. }
  replace ((decimal_value (String c s) <=? Strconv.maxInt)%Z) with true.
  2:{ symmetry. apply Z.leb_le. unfold Strconv.maxInt. lia. }
  reflexivity.
Qed.

Lemma isPort_decimal (port : string) :
  port <> "" -> all_bytes Strconv.is_digit port ->
  (1 <= decimal_value port <= 65535)%Z ->
  isPort port = true.
Proof.
  intros Hne Hd Hr. unfold isPort. rewrite Atoi_decimal by assumption.
  apply andb_true_intro. split; apply Z.leb_le; lia.
Qed.

Lemma LastIndex_byte_absent (s : string) (c : ascii) :
  no_byte c s -> LastIndex s (String c "") = None.
Proof.
  induction s as [|x s IH]; [reflexivity|].
  intros H. apply no_byte_cons in H as [Hx Hs]. simpl.
  rewrite IH by assumption. apply eqb_byte_neq in Hx. now rewrite Hx.
Qed.

Variables host port : string.
Hypothesis host_nonempty : host <> "".
Hypothesis host_bytes : all_bytes host_byte host.
Hypothesis port_digits : all_bytes Strconv.is_digit port.

#[local] Abbreviation hostport := (host +:+ String ":" port).

Lemma port_no_colon : no_byte ":" port.
Proof. now apply (all_bytes_no_byte Strconv.is_digit). Qed.

Lemma host_not_bracketed : HasPrefix host "[" = false.
Proof.
  destruct host as [|c h]; [contradiction|].
  apply all_bytes_cons in host_bytes as [Hc _]. simpl.
  replace (eqb_byte c "[") with false; [reflexivity|].
  symmetry. apply eqb_byte_neq. intros ->. discriminate Hc.
Qed.

Lemma hostport_not_bracketed : HasPrefix hostport "[" = false.
Proof.
  pose proof host_not_bracketed as H.
  destruct host as [|c h]; [contradiction|]. exact H.
Qed.

Lemma hostport_copied : all_bytes (copied encodeHost) hostport.
Proof.
  apply all_bytes_append. split.
  - eapply all_bytes_weaken; [|exact host_bytes].
    intros c Hc. apply host_is_plain in Hc.
    apply (auth_byte_facts c (plain_is_auth c Hc)). now left.
  - apply all_bytes_cons. split; [reflexivity|].
    eapply all_bytes_weaken; [|exact port_digits].
    intros c Hc. apply digit_is_host, host_is_plain in Hc.
    apply (auth_byte_facts c (plain_is_auth c Hc)). now left.
Qed.

Lemma hostport_no_at : no_byte "@" hostport.
Proof.
  apply no_byte_append. split.
  - now apply (all_bytes_no_byte host_byte).
  - apply no_byte_cons. split; [discriminate|].
    now apply (all_bytes_no_byte Strconv.is_digit).
Qed.

Lemma splitHostPort_form : splitHostPort hostport = (host, port).
Proof.
  unfold splitHostPort, LastIndexByte.
  rewrite LastIndex_byte_last by apply port_no_colon.
  rewrite str_drop_append, validOptionalPort_digits by assumption.
  rewrite str_take_append, str_drop_add, str_drop_append.
  now rewrite host_not_bracketed.
Qed.

Lemma parseHost_form : parseHost hostport = Ok hostport.
Proof.
  unfold parseHost. rewrite hostport_not_bracketed.
  rewrite LastIndex_byte_last by apply port_no_colon.
  rewrite str_drop_append, validOptionalPort_digits by assumption.
  apply unescape_copied, hostport_copied.
Qed.

Lemma parseAuthority_hostport : parseAuthority hostport = Ok (None, hostport).
Proof.
  unfold parseAuthority.
  rewrite LastIndex_byte_absent by apply hostport_no_at.
  now rewrite parseHost_form.
Qed.

End ProxyURIStrings.

Section ParseProxyForm.

Variable auth : string.
Hypothesis auth_bytes : all_bytes auth_byte auth.

Lemma auth_no_byte (x : ascii) : auth_byte x = false -> no_byte x auth.
Proof. intros Hx. now apply (all_bytes_no_byte auth_byte). Qed.

Lemma auth_not_ctl : all_bytes not_ctl auth.
Proof.
  eapply all_bytes_weaken; [|exact auth_bytes].
  intros c Hc. unfold not_ctl. apply negb_true_iff.
  now apply (auth_byte_facts c Hc).
Qed.

End ParseProxyForm.

(** ** Proxy URI strings in the syntax of RFC 3986 *)

Section URIBytes.

Lemma query_char_facts (c : ascii) :
  query_char c = true -> not_ctl c = true /\ c <> "#"%char.
Proof.
  destruct c as [[] [] [] [] [] [] [] []]; intros H; vm_compute in H;
    try discriminate H; clear H; (split; [reflexivity | discriminate]).
Qed.

Lemma path_char_facts (c : ascii) :
  path_char c = true -> query_char c = true /\ c <> "?"%char.
Proof.
  destruct c as [[] [] [] [] [] [] [] []]; intros H; vm_compute in H;
    try discriminate H; clear H; (split; [reflexivity | discriminate]).
Qed.

Lemma password_byte_facts (c : ascii) :
  password_byte c = true ->
  path_char c = true /\ userinfo_byte c = true
  /\ c <> "/"%char /\ c <> "@"%char.
Proof.
  destruct c as [[] [] [] [] [] [] [] []]; intros H; vm_compute in H;
    try discriminate H; clear H;
    (split; [reflexivity | split; [reflexivity | split; discriminate]]).
Qed.

Lemma username_byte_facts (c : ascii) :
  username_byte c = true -> password_byte c = true /\ c <> ":"%char.
Proof.
  destruct c as [[] [] [] [] [] [] [] []]; intros H; vm_compute in H;
    try discriminate H; clear H; (split; [reflexivity | discriminate]).
Qed.

Lemma hostport_byte_facts (c : ascii) :
  hostport_byte c = true ->
  password_byte c = true
  /\ eqb_byte c "%" = false
  /\ (byte c <? 128)%N && shouldEscape c encodeHost = false.
Proof.
  destruct c as [[] [] [] [] [] [] [] []]; intros H; vm_compute in H;
    try discriminate H; clear H; repeat split.
Qed.

Lemma reg_name_byte_facts (c : ascii) :
  reg_name_byte c = true ->
  hostport_byte c = true /\ c <> ":"%char /\ c <> "["%char.
Proof.
  destruct c as [[] [] [] [] [] [] [] []]; intros H; vm_compute in H;
    try discriminate H; clear H;
    (split; [reflexivity | split; discriminate]).
Qed.

Lemma digit_is_reg_name (c : ascii) :
  Strconv.is_digit c = true -> reg_name_byte c = true.
Proof.
  intros H. unfold reg_name_byte.
  now rewrite (host_is_plain c (digit_is_host c H)).
Qed.

Lemma not_ctl_path_char (s : string) :
  all_bytes path_char s -> all_bytes not_ctl s.
Proof.
  apply all_bytes_weaken. intros c Hc.
  now apply query_char_facts, path_char_facts.
Qed.

Lemma path_char_password (s : string) :
  all_bytes password_byte s -> all_bytes path_char s.
Proof.
  apply all_bytes_weaken. intros c Hc. now apply password_byte_facts.
Qed.

Lemma no_byte_class (p : ascii -> bool) (x : ascii) (s : string) :
  (forall c, p c = true -> c <> x) -> all_bytes p s -> no_byte x s.
Proof.
  intros Hp. induction s as [|c s IH]; intros H; [intros []|].
  apply all_bytes_cons in H as [Hc Hs]. apply no_byte_cons.
  split; [now apply Hp | now apply IH].
Qed.

End URIBytes.

Section Escapes.

Variable mode : encoding.
Hypothesis not_host : encoding_eqb mode encodeHost = false.
Hypothesis not_zone : encoding_eqb mode encodeZone = false.

Lemma unescape_check_escapes (k : nat) :
  forall (s : string) (n : nat) (hasPlus : bool),
    (len s <= k)%nat -> escapes_ok s = true ->
    exists r, unescape_check s mode n hasPlus = Ok r.
Proof.
  induction k as [|k IH]; intros [|c s] n hasPlus Hlen He;
    try (eexists; reflexivity); [simpl in Hlen; lia|].
  cbn [unescape_check escapes_ok] in *.
  destruct (eqb_byte c "%").
  - destruct s as [|h1 [|h2 s]]; try discriminate He.
    apply andb_prop in He as [He He3]. apply andb_prop in He as [H1 H2].
    rewrite H1, H2, not_host, not_zone. cbn [negb orb andb].
    apply IH; [simpl in *; lia | assumption].
  - destruct (eqb_byte c "+"); [apply IH; [simpl in *; lia | assumption]|].
    rewrite not_host, not_zone. cbn [orb andb].
    apply IH; [simpl in *; lia | assumption].
Qed.

Lemma unescape_build_nonempty (s : string) :
  s <> "" -> escapes_ok s = true -> unescape_build s mode <> "".
Proof.
  destruct s as [|c s]; [congruence|]. intros _ He.
  cbn [unescape_build escapes_ok] in *.
  destruct (eqb_byte c "%").
  - destruct s as [|h1 [|h2 s]]; discriminate.
  - destruct (eqb_byte c "+"); discriminate.
Qed.

(** A string whose escapes are well formed is decoded, and to a string
    that is empty only if it is. *)
Lemma unescape_escapes (s : string) :
  escapes_ok s = true ->
  exists t, unescape s mode = Ok t /\ (s <> "" -> t <> "").
Proof.
  intros He. unfold unescape.
  destruct (unescape_check_escapes (len s) s 0 false (le_n _) He)
    as [[n hasPlus] ->].
  cbn [mbind result_bind].
  destruct ((n =? 0)%nat && negb hasPlus).
  - exists s. auto.
  - exists (unescape_build s mode). split; [reflexivity|].
    intros Hne. now apply unescape_build_nonempty.
Qed.

End Escapes.

Lemma unescape_hostport (s : string) :
  all_bytes hostport_byte s -> unescape s encodeHost = Ok s.
Proof.
  intros H. unfold unescape.
  assert (Hc : forall n, unescape_check s encodeHost n false = Ok (n, false)).
  { induction s as [|c s IH]; intros n; [reflexivity|].
    apply all_bytes_cons in H as [Hc Hs].
    destruct (hostport_byte_facts c Hc) as (_ & Hp & He).
    cbn [unescape_check]. rewrite Hp.
    destruct (eqb_byte c "+"); [now apply IH|].
    cbn [encoding_eqb orb andb]. rewrite He. now apply IH. }
  now rewrite Hc.
Qed.

Section ProxyAuthority.

Variables host port : string.
Hypothesis host_nonempty : host <> "".
Hypothesis host_bytes : all_bytes reg_name_byte host.
Hypothesis port_digits : all_bytes Strconv.is_digit port.

#[local] Abbreviation hostport := (host +:+ String ":" port).

Lemma reg_name_not_bracketed : HasPrefix host "[" = false.
Proof.
  destruct host as [|c h]; [contradiction|].
  apply all_bytes_cons in host_bytes as [Hc _]. simpl.
  replace (eqb_byte c "[") with false; [reflexivity|].
  symmetry. apply eqb_byte_neq. now apply reg_name_byte_facts.
Qed.

Lemma hostport_bytes : all_bytes hostport_byte hostport.
Proof.
  apply all_bytes_append. split.
  - eapply all_bytes_weaken; [|exact host_bytes].
    intros c Hc. now apply reg_name_byte_facts.
  - apply all_bytes_cons. split; [reflexivity|].
    eapply all_bytes_weaken; [|exact port_digits].
    intros c Hc. now apply reg_name_byte_facts, digit_is_reg_name.
Qed.

Lemma hostport_password_bytes : all_bytes password_byte hostport.
Proof.
  eapply all_bytes_weaken; [|exact hostport_bytes].
  intros c Hc. now apply hostport_byte_facts.
Qed.

Lemma hostport_without_at : no_byte "@" hostport.
Proof.
  apply (no_byte_class password_byte); [|exact hostport_password_bytes].
  intros c Hc. now apply password_byte_facts.
Qed.

Lemma splitHostPort_reg_name : splitHostPort hostport = (host, port).
Proof.
  unfold splitHostPort, LastIndexByte.
  rewrite LastIndex_byte_last
    by now apply (all_bytes_no_byte Strconv.is_digit).
  rewrite str_drop_append, validOptionalPort_digits by assumption.
  rewrite str_take_append, str_drop_add, str_drop_append.
  now rewrite reg_name_not_bracketed.
Qed.

Lemma parseHost_reg_name : parseHost hostport = Ok hostport.
Proof.
  unfold parseHost.
  replace (HasPrefix hostport "[") with false.
  2:{ pose proof reg_name_not_bracketed as H.
      destruct host as [|c h]; [contradiction | symmetry; exact H]. }
  rewrite LastIndex_byte_last
    by now apply (all_bytes_no_byte Strconv.is_digit).
  rewrite str_drop_append, validOptionalPort_digits by assumption.
  apply unescape_hostport, hostport_bytes.
Qed.

(** The authority of a proxy URI string is parsed into its credential,
    decoded, and its "host:port" as written; a credential that is written
    with a username and a password has them after decoding. *)
Lemma parseAuthority_credential (cred : string) :
  credential cred ->
  exists ui,
    parseAuthority (cred +:+ hostport) = Ok (ui, hostport)
    /\ forall i, ui = Some i -> username i <> "" /\ password i <> "".
Proof.
  intros [->|(user & pass & -> & Hu & Hp & Hub & Hue & Hpb & Hpe)];
    unfold parseAuthority.
  - simpl "+:+". rewrite LastIndex_byte_absent by apply hostport_without_at.
    rewrite parseHost_reg_name. cbn [mbind result_bind].
    exists None. split; [reflexivity | discriminate].
  - replace ((user +:+ ":" +:+ pass +:+ "@") +:+ hostport)
      with ((user +:+ String ":" pass) +:+ String "@" hostport).
    2:{ now rewrite !append_assoc. }
    rewrite LastIndex_byte_last by apply hostport_without_at.
    rewrite str_drop_add, str_drop_append, str_take_append.
    simpl str_drop. rewrite parseHost_reg_name. cbn [mbind result_bind].
    rewrite validUserinfo_bytes.
    2:{ apply all_bytes_append. split.
        - eapply all_bytes_weaken; [|exact Hub].
          intros c Hc. now apply password_byte_facts, username_byte_facts.
        - apply all_bytes_cons. split; [reflexivity|].
          eapply all_bytes_weaken; [|exact Hpb].
          intros c Hc. now apply password_byte_facts. }
    assert (Hnc : no_byte ":" user).
    { apply (no_byte_class username_byte); [|exact Hub].
      intros c Hc. now apply username_byte_facts. }
    unfold Contains. rewrite Index_byte_first by assumption.
    cbn [negb]. cbv iota.
    rewrite Cut_byte_first by assumption.
    destruct (unescape_escapes encodeUserPassword eq_refl eq_refl user Hue)
      as (user' & -> & Hu').
    destruct (unescape_escapes encodeUserPassword eq_refl eq_refl pass Hpe)
      as (pass' & -> & Hp').
    cbn [mbind result_bind].
    exists (Some (UserPassword user' pass')). split; [reflexivity|].
    intros i [= <-]. cbn. auto.
Qed.

End ProxyAuthority.

Section QuerySplit.

Lemma Count_append (a b : string) (c : ascii) :
  Count (a +:+ b) c = (Count a c + Count b c)%nat.
Proof.
  induction a as [|x a IH]; [reflexivity|]. simpl. rewrite IH. lia.
Qed.

Lemma HasSuffix_last (s : string) (c x : ascii) :
  HasSuffix (s +:+ String c "") (String x "") = eqb_byte c x.
Proof.
  unfold HasSuffix. rewrite len_append. cbn [len String.length].
  replace (len s + 1 - 1)%nat with (len s) by lia.
  rewrite str_drop_append.
  replace (1 <=? len s + 1)%nat with true by (symmetry; apply Nat.leb_le; lia).
  cbn [andb String.eqb]. unfold eqb_byte. now destruct (Ascii.eqb c x).
Qed.

Lemma last_byte (s : string) :
  s <> "" -> exists t c, s = t +:+ String c "".
Proof.
  induction s as [|x s IH]; [congruence|]. intros _.
  destruct s as [|y s].
  - now exists "", x.
  - destruct IH as (t & c & E); [discriminate|].
    exists (String x t), c. simpl. now rewrite <- E.
Qed.

(** The statement of [parse] that splits the query off, on a string whose
    first question mark, if there is one, introduces the query. *)
Lemma query_split (url0 : URL) (before : string) (query : option string) :
  no_byte "?" before ->
  exists url1,
    (if HasSuffix (before +:+ opt_part "?" query) "?"
        && (Count (before +:+ opt_part "?" query) "?" =? 1)%nat
     then (set_ForceQuery url0 true,
           str_take (len (before +:+ opt_part "?" query) - 1)
                    (before +:+ opt_part "?" query))
     else let '(rest0, q, _) := Cut (before +:+ opt_part "?" query) "?" in
          (set_RawQuery url0 q, rest0))
    = (url1, before)
    /\ Scheme url1 = Scheme url0.
Proof.
  intros Hb. destruct query as [q|]; cbn [opt_part].
  - change ("?" +:+ q) with (String "?" q).
    destruct (HasSuffix (before +:+ String "?" q) "?"
              && (Count (before +:+ String "?" q) "?" =? 1)%nat) eqn:E.
    + apply andb_prop in E as [Es Ec]. apply Nat.eqb_eq in Ec.
      rewrite Count_append, (Count_absent before) in Ec by assumption.
      cbn in Ec.
      assert (Hq : q = "").
      { destruct q as [|y q]; [reflexivity|]. exfalso.
        destruct (last_byte (String y q)) as (t & c & Et); [discriminate|].
        rewrite Et in Es, Ec.
        replace (before +:+ String "?" (t +:+ String c ""))
          with ((before +:+ String "?" t) +:+ String c "") in Es
          by (rewrite append_assoc; reflexivity).
        rewrite HasSuffix_last in Es. apply eqb_byte_eq in Es. subst c.
        rewrite Count_append in Ec. cbn in Ec. lia. }
      subst q. exists (set_ForceQuery url0 true). split; [|reflexivity].
      rewrite len_append. cbn [len String.length].
      replace (len before + 1 - 1)%nat with (len before) by lia.
      now rewrite str_take_append.
    + rewrite Cut_byte_first by assumption.
      exists (set_RawQuery url0 q). split; reflexivity.
  - rewrite append_nil_r, Count_absent by assumption.
    rewrite andb_false_r, Cut_byte_absent by assumption.
    exists (set_RawQuery url0 ""). split; reflexivity.
Qed.

End QuerySplit.

Section ParseURIForm.

Lemma getScheme_proxy (scheme t : string) :
  In scheme proxy_schemes ->
  getScheme (scheme +:+ "://" +:+ t) = Ok (scheme, "//" +:+ t)
  /\ ToLower scheme = scheme /\ isEmpty scheme = false
  /\ String.eqb (scheme +:+ "://" +:+ t) "*" = false
  /\ stringContainsCTLByte (scheme +:+ "://" +:+ t)
     = stringContainsCTLByte t
  /\ (no_byte "#" t -> no_byte "#" (scheme +:+ "://" +:+ t)).
Proof.
  intros [<-|[<-|[<-|[<-|[<-|[]]]]]]; repeat split; try reflexivity;
    intros H; simpl; repeat (apply no_byte_cons; split; [discriminate|]);
    exact H.
Qed.

Variables (scheme auth hp path : string) (ui : option Userinfo).
Variables (query frag : option string).
Hypothesis scheme_ok : In scheme proxy_schemes.
Hypothesis auth_bytes : all_bytes path_char auth.
Hypothesis auth_slash : no_byte "/" auth.
Hypothesis auth_parsed : parseAuthority auth = Ok (ui, hp).
Hypothesis path_ok : uri_path path.
Hypothesis query_ok : uri_query query.
Hypothesis frag_ok : uri_fragment frag.

Lemma no_question_mark (s : string) : all_bytes path_char s -> no_byte "?" s.
Proof.
  apply no_byte_class. intros c Hc. now apply path_char_facts.
Qed.

Lemma no_hash (s : string) : all_bytes query_char s -> no_byte "#" s.
Proof.
  apply no_byte_class. intros c Hc. now apply query_char_facts.
Qed.

Lemma query_chars (s : string) : all_bytes path_char s -> all_bytes query_char s.
Proof.
  apply all_bytes_weaken. intros c Hc. now apply path_char_facts.
Qed.

Lemma before_fragment_bytes :
  all_bytes query_char (auth +:+ path +:+ opt_part "?" query).
Proof.
  destruct path_ok as (_ & Hp & _).
  apply all_bytes_append. split; [now apply query_chars|].
  apply all_bytes_append. split; [now apply query_chars|].
  destruct query as [q|]; [|apply all_bytes_nil].
  apply all_bytes_cons. split; [reflexivity|]. now apply query_ok.
Qed.

(** The generic parse of the part of a proxy URI string before its
    fragment. *)
Lemma parse_proxy_uri :
  exists u,
    parse (scheme +:+ "://" +:+ auth +:+ path +:+ opt_part "?" query) = Ok u
    /\ Scheme u = scheme /\ Host u = hp /\ User_ u = ui.
Proof.
  destruct (getScheme_proxy scheme (auth +:+ path +:+ opt_part "?" query)
              scheme_ok) as (Hget & Hlow & Hne & Hstar & Hctl & _).
  destruct path_ok as (Hstart & Hpb & Hpe).
  unfold parse. rewrite Hctl, no_ctl_byte, Hstar, Hget.
  2:{ eapply all_bytes_weaken; [|exact before_fragment_bytes].
      intros c Hc. now apply query_char_facts. }
  cbn [mbind result_bind]. rewrite Hlow.
  replace ("//" +:+ auth +:+ path +:+ opt_part "?" query)
    with (("//" +:+ auth +:+ path) +:+ opt_part "?" query)
    by (simpl; now rewrite append_assoc).
  destruct (query_split (set_Scheme zero scheme) ("//" +:+ auth +:+ path) query)
    as (url1 & -> & Hs1).
  { simpl. repeat (apply no_byte_cons; split; [discriminate|]).
    apply no_byte_append. split; now apply no_question_mark. }
  cbn [Scheme set_Scheme] in Hs1.
  change (HasPrefix ("//" +:+ auth +:+ path) "/") with true.
  change (HasPrefix ("//" +:+ auth +:+ path) "//") with true.
  cbn [negb andb]. rewrite Hs1, Hne. cbn [negb orb andb].
  change (str_drop 2 ("//" +:+ auth +:+ path)) with (auth +:+ path).
  assert (Hcut : match Index (auth +:+ path) "/" with
                 | Some i => (str_take i (auth +:+ path),
                              str_drop i (auth +:+ path))
                 | None => (auth +:+ path, "")
                 end = (auth, path)).
  { destruct Hstart as [->|Hsl].
    - rewrite append_nil_r, Index_byte_absent by assumption. reflexivity.
    - apply HasPrefix_spec in Hsl as [p ->].
      change ("/" +:+ p) with (String "/" p).
      rewrite Index_byte_first by assumption.
      now rewrite str_take_append, str_drop_append. }
  rewrite Hcut, auth_parsed. cbn [mbind result_bind].
  unfold setPath.
  destruct (unescape_escapes encodePath eq_refl eq_refl path Hpe)
    as (p' & -> & _).
  cbn [mbind result_bind].
  destruct (String.eqb path _); eexists; (split; [reflexivity|]);
    cbn; auto.
Qed.

(** The generic parse of a proxy URI string: it succeeds, and its result
    has the scheme that is written, and the credential and the "host:port"
    that [parseAuthority] finds in the authority. *)
Lemma Parse_proxy_uri :
  exists u,
    Parse (scheme +:+ "://" +:+ auth +:+ path +:+ opt_part "?" query
           +:+ opt_part "#" frag) = Ok u
    /\ Scheme u = scheme /\ Host u = hp /\ User_ u = ui.
Proof.
  destruct parse_proxy_uri as (u0 & Hparse & Hs & Hh & Hu).
  destruct (getScheme_proxy scheme (auth +:+ path +:+ opt_part "?" query)
              scheme_ok) as (_ & _ & _ & _ & _ & Hhash).
  specialize (Hhash (no_hash _ before_fragment_bytes)).
  replace (scheme +:+ "://" +:+ auth +:+ path +:+ opt_part "?" query
           +:+ opt_part "#" frag)
    with ((scheme +:+ "://" +:+ auth +:+ path +:+ opt_part "?" query)
          +:+ opt_part "#" frag)
    by (rewrite !append_assoc; reflexivity).
  unfold Parse. destruct frag as [f|]; cbn [opt_part].
  - change ("#" +:+ f) with (String "#" f).
    rewrite Cut_byte_first by assumption. rewrite Hparse.
    destruct (isEmpty f); [now exists u0|].
    destruct (frag_ok f eq_refl) as [_ Hfe].
    unfold setFragment.
    destruct (unescape_escapes encodeFragment eq_refl eq_refl f Hfe)
      as (f' & -> & _).
    cbn [mbind result_bind].
    destruct (String.eqb f _); eexists; (split; [reflexivity|]);
      cbn; auto.
  - rewrite append_nil_r, Cut_byte_absent by assumption.
    rewrite Hparse. now exists u0.
Qed.

End ParseURIForm.

(** [ParseProxyURI] accepts exactly the strings that [url.Parse] accepts and
    whose URL passes [validateProxyURI], and returns that URL unchanged. *)
Lemma ParseProxyURI_accepts (val : string) (u : URL) :
  ParseProxyURI val = Ok u
  <-> Parse val = Ok u /\ validateProxyURI (Some u) = None.
Proof.
  unfold ParseProxyURI. destruct (Parse val) as [u0|e]; cbn [mbind result_bind].
  - destruct (validateProxyURI (Some u0)) eqn:E; split.
    + discriminate.
    + intros [[= ->] H]. congruence.
    + intros [= ->]. split; [reflexivity | exact E].
    + intros [[= ->] _]. reflexivity.
  - split; [discriminate | intros [H _]; discriminate].
Qed.

(** C2, as stated, fails: a proxy URI string with an allowed scheme, a
    hostname of 12 bytes and the port 8080 is rejected when its credential
    has an empty password. *)
Lemma C2_empty_password_rejected :
  (exists u,
      Parse "http://user:@host.example:8080" = Ok u
      /\ In (Scheme u) proxy_schemes
      /\ Hostname u = "host.example" /\ (4 <= len (Hostname u))%nat
      /\ Port u = "8080" /\ Strconv.Atoi (Port u) = Some 8080%Z)
  /\ ParseProxyURI "http://user:@host.example:8080"
     = Err (Errorf "password cannot be empty" []).
Proof.
  split; [|reflexivity].
  eexists. split; [reflexivity|].
  split; [now left|]. split; [reflexivity|]. split; [simpl; lia|].
  split; reflexivity.
Qed.

(** A percent-escape in the host does not come back as it is written:
    [url.Parse] rejects the escape of an ASCII byte there, and decodes the
    escape of any other byte. *)
Lemma percent_escapes_in_host :
  ParseProxyURI "http://ex%61mple.com:8080"
  = Err (UrlError "parse" "http://ex%61mple.com:8080" (EscapeError "%61"))
  /\ exists u,
       ParseProxyURI "http://h%C3%B6st.example:8080" = Ok u
       /\ Hostname u <> "h%C3%B6st.example".
Proof.
  split; [reflexivity|]. eexists. split; [reflexivity | discriminate].
Qed.

(** C2, amended.  For every proxy URI string
    scheme://[username:password@]host:port[path][?query][#fragment]
    written in the syntax of RFC 3986, whose scheme is one of http, https,
    socks, socks5, quic, whose host is a registered name or an IPv4 address
    of at least 4 bytes written without percent-escapes (letters, digits
    and the bytes -._~!$&'()*+,;=), whose port is a string of decimal
    digits, not empty, with a value in 1..65535, and whose credential, if
    there is one, has a username and a password that are not empty,
    [ParseProxyURI] succeeds, and the scheme, the hostname and the port of
    the URI it returns are exactly those written in the string.

    In detail: the username is made of letters, digits, the bytes
    -._~!$&'()*+,;= and percent-escapes, the password of these and colons;
    the path is empty or begins with a slash and is made of the bytes of a
    password, at signs and slashes; the query and the fragment are made of
    the bytes of a path and question marks; and every percent sign in the
    username, the password, the path and the fragment is followed by two
    hexadecimal digits. *)
Theorem C2_ParseProxyURI_roundtrip
    (scheme cred host port path : string) (query frag : option string) :
  In scheme proxy_schemes ->
  credential cred ->
  all_bytes reg_name_byte host -> (4 <= len host)%nat ->
  port <> "" -> all_bytes Strconv.is_digit port ->
  (1 <= decimal_value port <= 65535)%Z ->
  uri_path path -> uri_query query -> uri_fragment frag ->
  exists u,
    ParseProxyURI (scheme +:+ "://" +:+ cred +:+ host +:+ ":" +:+ port
                   +:+ path +:+ opt_part "?" query +:+ opt_part "#" frag)
    = Ok u
    /\ Scheme u = scheme /\ Hostname u = host /\ Port u = port.
Proof.
  intros Hs Hcred Hhost Hlen Hport Hdigits Hrange Hpath Hquery Hfrag.
  assert (Hne : host <> "") by (intros ->; simpl in Hlen; lia).
  set (hp := host +:+ String ":" port).
  destruct (parseAuthority_credential host port Hne Hhost Hdigits cred Hcred)
    as (ui & Hauth & Hui).
  fold hp in Hauth.
  assert (Hcb : all_bytes path_char (cred +:+ hp)).
  { apply all_bytes_append. split.
    - destruct Hcred as [->|(user & pass & -> & _ & _ & Hub & _ & Hpb & _)];
        [apply all_bytes_nil|].
      apply all_bytes_append. split.
      + eapply all_bytes_weaken; [|exact Hub].
        intros c Hc. now apply password_byte_facts, username_byte_facts.
      + apply all_bytes_cons. split; [reflexivity|].
        apply all_bytes_append. split; [now apply path_char_password|].
        apply all_bytes_cons. split; [reflexivity | apply all_bytes_nil].
    - apply path_char_password.
      now apply hostport_password_bytes. }
  assert (Hsl : no_byte "/" (cred +:+ hp)).
  { apply no_byte_append. split.
    - destruct Hcred as [->|(user & pass & -> & _ & _ & Hub & _ & Hpb & _)];
        [intros []|].
      apply no_byte_append. split.
      + apply (no_byte_class username_byte); [|exact Hub].
        intros c Hc. now apply password_byte_facts, username_byte_facts.
      + apply no_byte_cons. split; [discriminate|].
        apply no_byte_append. split.
        * apply (no_byte_class password_byte); [|exact Hpb].
          intros c Hc. now apply password_byte_facts.
        * apply no_byte_cons. split; [discriminate | intros []].
    - apply (no_byte_class password_byte);
        [|now apply hostport_password_bytes].
      intros c Hc. now apply password_byte_facts. }
  destruct (Parse_proxy_uri scheme (cred +:+ hp) hp path ui query frag
              Hs Hcb Hsl Hauth Hpath Hquery Hfrag)
    as (u & Hparse & Hsch & Hh & Hu).
  exists u.
  assert (Hsplit : splitHostPort (Host u) = (host, port)).
  { rewrite Hh. now apply splitHostPort_reg_name. }
  assert (Hname : Hostname u = host) by (unfold Hostname; now rewrite Hsplit).
  assert (Hp : Port u = port) by (unfold Port; now rewrite Hsplit).
  split; [|auto].
  apply ParseProxyURI_accepts. split.
  - rewrite <- Hparse. f_equal. unfold hp.
    now rewrite !append_assoc.
  - unfold validateProxyURI. rewrite Hsch, Hname, Hp, Hu.
    replace (negb (String.eqb scheme "http") && _ && _ && _ && _) with false.
    2:{ symmetry. apply not_true_is_false. intros H.
        apply scheme_test in H. now apply H. }
    unfold minHostLength.
    replace (len host <? 4)%nat with false.
    2:{ symmetry. apply Nat.ltb_ge. exact Hlen. }
    replace (isEmpty port) with false.
    2:{ symmetry. now apply isEmpty_false. }
    rewrite isPort_decimal by assumption. cbn [negb].
    destruct (validatedUserInfo ui) as [e|] eqn:Ev; [|reflexivity].
    exfalso.
    destruct (proj1 (validatedUserInfo_error ui)) as (i & Hi & Hbad);
      [congruence|].
    destruct (Hui i Hi). tauto.
Qed.

Lemma C2_ParseProxyURI_roundtrip_witness :
  exists u,
    ParseProxyURI
      "https://us%65r:p%40ss:w0rd@my_host.example:8080/a%20b/c?x=1&y=%7E#top"
    = Ok u
    /\ Scheme u = "https" /\ Hostname u = "my_host.example"
    /\ Port u = "8080".
Proof.
  apply (C2_ParseProxyURI_roundtrip "https" "us%65r:p%40ss:w0rd@"
           "my_host.example" "8080" "/a%20b/c" (Some "x=1&y=%7E")
           (Some "top")).
  - right. now left.
  - right. exists "us%65r", "p%40ss:w0rd".
    repeat split; try discriminate; repeat constructor.
  - repeat constructor.
  - simpl. lia.
  - discriminate.
  - repeat constructor.
  - vm_compute. split; discriminate.
  - split; [now right|]. split; [repeat constructor | reflexivity].
  - intros s [= <-]. repeat constructor.
  - intros s [= <-]. split; [repeat constructor | reflexivity].
Defined.

(** ** [ProxyConfig.Clone] *)

Import Memory.

Section CloneFacts.

Implicit Types (h : heap) (p : option loc) (ps : list (option loc)).

Lemma allocated_since_before h0 h h' X :
  h0 ⊆ h -> allocated_since h h' X -> allocated_since h0 h' X.
Proof.
  intros Hsub HX l Hl. destruct (HX l Hl) as [Hin Hout]. split; [exact Hin|].
  intros Hd. apply Hout. revert Hd. apply subseteq_dom, Hsub.
Qed.

Lemma allocated_since_after h h' h2 X :
  h' ⊆ h2 -> allocated_since h h' X -> allocated_since h h2 X.
Proof.
  intros Hsub HX l Hl. destruct (HX l Hl) as [Hin Hout]. split; [|exact Hout].
  revert Hin. apply subseteq_dom, Hsub.
Qed.

Lemma allocated_since_union h h' X Y :
  allocated_since h h' X -> allocated_since h h' Y ->
  allocated_since h h' (X ∪ Y).
Proof. intros HX HY l [Hl|Hl]%elem_of_union; auto. Qed.

Lemma allocated_since_empty h h' : allocated_since h h' ∅.
Proof. intros l Hl. set_solver. Qed.

Lemma alloc_spec h x h' l :
  alloc h x = (h', l) ->
  h !! l = None /\ h' = <[l := x]> h /\ h ⊆ h'
  /\ allocated_since h h' {[ l ]}.
Proof.
  unfold alloc. intros [= <- <-].
  assert (Hfresh : h !! fresh (dom h) = None)
    by apply not_elem_of_dom, is_fresh.
  split; [exact Hfresh|]. split; [reflexivity|].
  split; [now apply insert_subseteq|].
  intros l ->%elem_of_singleton. split.
  - apply elem_of_dom. rewrite lookup_insert_eq. eauto.
  - apply is_fresh.
Qed.

(** *** Credentials *)

Lemma read_userinfo_mono h h' p v :
  h ⊆ h' -> read_userinfo h p = Some v -> read_userinfo h' p = Some v.
Proof.
  intros Hsub. destruct p as [l|]; simpl; [|auto].
  destruct (h !! l) as [[ui| | | |]|] eqn:E; try discriminate.
  now rewrite (lookup_weaken _ _ _ _ E Hsub).
Qed.

Lemma read_userinfo_dom h p v :
  read_userinfo h p = Some v -> cells_ptr p ⊆ dom h.
Proof.
  destruct p as [l|]; simpl; [|set_solver].
  destruct (h !! l) eqn:E; [|discriminate]. intros _.
  apply singleton_subseteq_l, elem_of_dom. eauto.
Qed.

Lemma read_userinfo_frame h h2 p :
  (forall l, l ∈ cells_ptr p -> h2 !! l = h !! l) ->
  read_userinfo h2 p = read_userinfo h p.
Proof.
  destruct p as [l|]; simpl; [|reflexivity].
  intros H. rewrite H by set_solver. reflexivity.
Qed.

Lemma copy_userinfo_spec h p v h' p' :
  read_userinfo h p = Some v -> copy_userinfo h p = (h', p') ->
  h ⊆ h' /\ read_userinfo h' p' = Some v
  /\ allocated_since h h' (cells_ptr p').
Proof.
  destruct p as [l|]; simpl.
  - destruct (h !! l) as [[ui| | | |]|] eqn:E; try discriminate.
    intros [= <-] [= <- <-].
    destruct (alloc_spec h (CUserinfo ui) _ _ eq_refl) as (_ & _ & Hsub & Hal).
    split; [exact Hsub|]. split; [|exact Hal].
    simpl. now rewrite lookup_insert_eq.
  - intros [= <-] [= <- <-]. split; [reflexivity|]. split; [reflexivity|].
    apply allocated_since_empty.
Qed.

(** *** Backing arrays of strings *)

Lemma read_strings_mono h h' p v :
  h ⊆ h' -> read_strings h p = Some v -> read_strings h' p = Some v.
Proof.
  intros Hsub. destruct p as [l|]; simpl; [|auto].
  destruct (h !! l) as [[| |xs| |]|] eqn:E; try discriminate.
  now rewrite (lookup_weaken _ _ _ _ E Hsub).
Qed.

Lemma read_strings_dom h p v :
  read_strings h p = Some v -> cells_ptr p ⊆ dom h.
Proof.
  destruct p as [l|]; simpl; [|set_solver].
  destruct (h !! l) eqn:E; [|discriminate]. intros _.
  apply singleton_subseteq_l, elem_of_dom. eauto.
Qed.

Lemma read_strings_frame h h2 p :
  (forall l, l ∈ cells_ptr p -> h2 !! l = h !! l) ->
  read_strings h2 p = read_strings h p.
Proof.
  destruct p as [l|]; simpl; [|reflexivity].
  intros H. rewrite H by set_solver. reflexivity.
Qed.

Lemma copy_strings_spec h p v h' p' :
  read_strings h p = Some v -> copy_strings h p = (h', p') ->
  h ⊆ h' /\ read_strings h' p' = Some v
  /\ allocated_since h h' (cells_ptr p').
Proof.
  destruct p as [l|]; simpl.
  - destruct (h !! l) as [[| |xs| |]|] eqn:E; try discriminate.
    intros [= <-] [= <- <-].
    destruct (alloc_spec h (CStrings xs) _ _ eq_refl) as (_ & _ & Hsub & Hal).
    split; [exact Hsub|]. split; [|exact Hal].
    simpl. now rewrite lookup_insert_eq.
  - intros [= <-] [= <- <-]. split; [reflexivity|]. split; [reflexivity|].
    apply allocated_since_empty.
Qed.

(** *** URLs *)

Lemma read_url_mono h h' p v :
  h ⊆ h' -> read_url h p = Some v -> read_url h' p = Some v.
Proof.
  intros Hsub. destruct p as [l|]; unfold read_url; [|auto].
  destruct (h !! l) as [[|f up| | |]|] eqn:E; try discriminate.
  destruct (read_userinfo h up) as [ui|] eqn:Eu; [|discriminate].
  rewrite (lookup_weaken _ _ _ _ E Hsub).
  now rewrite (read_userinfo_mono _ _ _ _ Hsub Eu).
Qed.

Lemma read_url_dom h p v : read_url h p = Some v -> cells_url h p ⊆ dom h.
Proof.
  destruct p as [l|]; unfold read_url, cells_url; [|set_solver].
  destruct (h !! l) as [[|f up| | |]|] eqn:E; try discriminate.
  destruct (read_userinfo h up) as [ui|] eqn:Eu; [|discriminate].
  intros _. apply read_userinfo_dom in Eu.
  apply union_subseteq. split; [|exact Eu].
  apply singleton_subseteq_l, elem_of_dom. eauto.
Qed.

Lemma cells_url_mono h h' p v :
  h ⊆ h' -> read_url h p = Some v -> cells_url h' p = cells_url h p.
Proof.
  intros Hsub. destruct p as [l|]; unfold read_url, cells_url; [|auto].
  destruct (h !! l) as [[|f up| | |]|] eqn:E; try discriminate.
  now rewrite (lookup_weaken _ _ _ _ E Hsub).
Qed.

Lemma read_url_frame h h2 p :
  (forall l, l ∈ cells_url h p -> h2 !! l = h !! l) ->
  read_url h2 p = read_url h p.
Proof.
  destruct p as [l|]; unfold read_url, cells_url; [|reflexivity].
  intros H.
  assert (Hl : h2 !! l = h !! l).
  { apply H. destruct (h !! l) as [[]|]; set_solver. }
  rewrite Hl. destruct (h !! l) as [[|f up| | |]|]; try reflexivity.
  rewrite (read_userinfo_frame h h2 up); [reflexivity|].
  intros l' Hl'. apply H. set_solver.
Qed.

Lemma copy_url_spec h p v h' p' :
  read_url h p = Some v -> copy_url h p = (h', p') ->
  h ⊆ h' /\ read_url h' p' = Some v
  /\ allocated_since h h' (cells_url h' p').
Proof.
  destruct p as [l|]; unfold read_url, copy_url.
  - destruct (h !! l) as [[|f up| | |]|] eqn:E; try discriminate.
    destruct (read_userinfo h up) as [ui|] eqn:Eu; [|discriminate].
    intros [= <-].
    destruct (copy_userinfo h up) as [h1 up'] eqn:Ec.
    destruct (copy_userinfo_spec _ _ _ _ _ Eu Ec) as (Hsub1 & Hr1 & Hal1).
    destruct (alloc h1 (CURL f up')) as [h2 l2] eqn:Ea.
    intros [= <- <-].
    apply alloc_spec in Ea as (Hf & -> & Hsub2 & Hal2).
    split; [now transitivity h1|]. split.
    + unfold read_url. rewrite lookup_insert_eq.
      now rewrite (read_userinfo_mono _ _ _ _ Hsub2 Hr1).
    + unfold cells_url. rewrite lookup_insert_eq.
      apply allocated_since_union.
      * eapply allocated_since_before; [exact Hsub1 | exact Hal2].
      * eapply allocated_since_after; [exact Hsub2 | exact Hal1].
  - intros [= <-] [= <- <-]. split; [reflexivity|]. split; [reflexivity|].
    apply allocated_since_empty.
Qed.

(** *** Lists of URL pointers *)

Lemma read_url_list_mono h h' ps v :
  h ⊆ h' -> read_url_list h ps = Some v -> read_url_list h' ps = Some v.
Proof.
  intros Hsub. revert v; induction ps as [|p ps IH]; intros v; simpl; [auto|].
  destruct (read_url h p) as [u|] eqn:Eu; [|discriminate].
  destruct (read_url_list h ps) as [us|] eqn:Eus; [|discriminate].
  intros [= <-].
  now rewrite (read_url_mono _ _ _ _ Hsub Eu), (IH _ eq_refl).
Qed.

Lemma read_url_list_dom h ps v :
  read_url_list h ps = Some v -> cells_url_list h ps ⊆ dom h.
Proof.
  revert v; induction ps as [|p ps IH]; intros v; simpl; [set_solver|].
  destruct (read_url h p) as [u|] eqn:Eu; [|discriminate].
  destruct (read_url_list h ps) as [us|] eqn:Eus; [|discriminate].
  intros _. apply read_url_dom in Eu. specialize (IH _ eq_refl).
  apply union_subseteq. split; assumption.
Qed.

Lemma cells_url_list_mono h h' ps v :
  h ⊆ h' -> read_url_list h ps = Some v ->
  cells_url_list h' ps = cells_url_list h ps.
Proof.
  intros Hsub. revert v; induction ps as [|p ps IH]; intros v; simpl; [auto|].
  destruct (read_url h p) as [u|] eqn:Eu; [|discriminate].
  destruct (read_url_list h ps) as [us|] eqn:Eus; [|discriminate].
  intros _.
  now rewrite (cells_url_mono _ _ _ _ Hsub Eu), (IH _ eq_refl).
Qed.

Lemma read_url_list_frame h h2 ps :
  (forall l, l ∈ cells_url_list h ps -> h2 !! l = h !! l) ->
  read_url_list h2 ps = read_url_list h ps.
Proof.
  induction ps as [|p ps IH]; simpl; intros H; [reflexivity|].
  rewrite (read_url_frame h h2 p), IH; [reflexivity| |];
    intros l Hl; apply H; set_solver.
Qed.

Lemma copy_url_list_spec h ps v h' ps' :
  read_url_list h ps = Some v -> copy_url_list h ps = (h', ps') ->
  h ⊆ h' /\ read_url_list h' ps' = Some v
  /\ allocated_since h h' (cells_url_list h' ps').
Proof.
  revert h v h' ps'; induction ps as [|p ps IH]; intros h v h' ps'; simpl.
  - intros [= <-] [= <- <-]. split; [reflexivity|]. split; [reflexivity|].
    apply allocated_since_empty.
  - destruct (read_url h p) as [u|] eqn:Eu; [|discriminate].
    destruct (read_url_list h ps) as [us|] eqn:Eus; [|discriminate].
    intros [= <-].
    destruct (copy_url h p) as [h1 p1] eqn:Ec.
    destruct (copy_url_spec _ _ _ _ _ Eu Ec) as (Hsub1 & Hr1 & Hal1).
    destruct (copy_url_list h1 ps) as [h2 ps2] eqn:Ecs.
    intros [= <- <-].
    destruct (IH h1 us h2 ps2 (read_url_list_mono _ _ _ _ Hsub1 Eus) Ecs)
      as (Hsub2 & Hr2 & Hal2).
    split; [now transitivity h1|]. split.
    + simpl. now rewrite (read_url_mono _ _ _ _ Hsub2 Hr1), Hr2.
    + simpl. apply allocated_since_union.
      * rewrite (cells_url_mono _ _ _ _ Hsub2 Hr1).
        eapply allocated_since_after; [exact Hsub2 | exact Hal1].
      * eapply allocated_since_before; [exact Hsub1 | exact Hal2].
Qed.

(** *** Backing arrays of URL pointers *)

Lemma read_urls_mono h h' p v :
  h ⊆ h' -> read_urls h p = Some v -> read_urls h' p = Some v.
Proof.
  intros Hsub. destruct p as [l|]; unfold read_urls; [|auto].
  destruct (h !! l) as [[| | |ps|]|] eqn:E; try discriminate.
  rewrite (lookup_weaken _ _ _ _ E Hsub). now apply read_url_list_mono.
Qed.

Lemma read_urls_dom h p v : read_urls h p = Some v -> cells_urls h p ⊆ dom h.
Proof.
  destruct p as [l|]; unfold read_urls, cells_urls; [|set_solver].
  destruct (h !! l) as [[| | |ps|]|] eqn:E; try discriminate.
  intros Hr%read_url_list_dom.
  apply union_subseteq. split; [|exact Hr].
  apply singleton_subseteq_l, elem_of_dom. eauto.
Qed.

Lemma cells_urls_mono h h' p v :
  h ⊆ h' -> read_urls h p = Some v -> cells_urls h' p = cells_urls h p.
Proof.
  intros Hsub. destruct p as [l|]; unfold read_urls, cells_urls; [|auto].
  destruct (h !! l) as [[| | |ps|]|] eqn:E; try discriminate.
  intros Hr. rewrite (lookup_weaken _ _ _ _ E Hsub).
  now rewrite (cells_url_list_mono _ _ _ _ Hsub Hr).
Qed.

Lemma read_urls_frame h h2 p :
  (forall l, l ∈ cells_urls h p -> h2 !! l = h !! l) ->
  read_urls h2 p = read_urls h p.
Proof.
  destruct p as [l|]; unfold read_urls, cells_urls; [|reflexivity].
  intros H.
  assert (Hl : h2 !! l = h !! l).
  { apply H. destruct (h !! l) as [[]|]; set_solver. }
  rewrite Hl. destruct (h !! l) as [[| | |ps|]|]; try reflexivity.
  apply read_url_list_frame. intros l' Hl'. apply H. set_solver.
Qed.

Lemma copy_urls_spec h p v h' p' :
  read_urls h p = Some v -> copy_urls h p = (h', p') ->
  h ⊆ h' /\ read_urls h' p' = Some v
  /\ allocated_since h h' (cells_urls h' p').
Proof.
  destruct p as [l|]; unfold read_urls, copy_urls.
  - destruct (h !! l) as [[| | |ps|]|] eqn:E; try discriminate.
    intros Hr.
    destruct (copy_url_list h ps) as [h1 ps'] eqn:Ec.
    destruct (copy_url_list_spec _ _ _ _ _ Hr Ec) as (Hsub1 & Hr1 & Hal1).
    destruct (alloc h1 (CURLs ps')) as [h2 l2] eqn:Ea.
    intros [= <- <-].
    apply alloc_spec in Ea as (Hf & -> & Hsub2 & Hal2).
    split; [now transitivity h1|]. split.
    + unfold read_urls. rewrite lookup_insert_eq.
      now apply (read_url_list_mono _ _ _ _ Hsub2).
    + unfold cells_urls. rewrite lookup_insert_eq.
      apply allocated_since_union.
      * eapply allocated_since_before; [exact Hsub1 | exact Hal2].
      * rewrite (cells_url_list_mono _ _ _ _ Hsub2 Hr1).
        eapply allocated_since_after; [exact Hsub2 | exact Hal1].
  - intros [= <-] [= <- <-]. split; [reflexivity|]. split; [reflexivity|].
    apply allocated_since_empty.
Qed.

(** *** The cells of a value depend on these cells only *)

Lemma cells_url_frame h h2 p :
  (forall l, l ∈ cells_url h p -> h2 !! l = h !! l) ->
  cells_url h2 p = cells_url h p.
Proof.
  destruct p as [l|]; unfold cells_url; [|reflexivity].
  intros H. rewrite H; [reflexivity|].
  destruct (h !! l) as [[]|]; set_solver.
Qed.

Lemma cells_url_list_frame h h2 ps :
  (forall l, l ∈ cells_url_list h ps -> h2 !! l = h !! l) ->
  cells_url_list h2 ps = cells_url_list h ps.
Proof.
  induction ps as [|p ps IH]; simpl; intros H; [reflexivity|].
  rewrite (cells_url_frame h h2 p), IH; [reflexivity| |];
    intros l Hl; apply H; apply elem_of_union; tauto.
Qed.

Lemma cells_urls_frame h h2 p :
  (forall l, l ∈ cells_urls h p -> h2 !! l = h !! l) ->
  cells_urls h2 p = cells_urls h p.
Proof.
  destruct p as [l|]; unfold cells_urls; [|reflexivity].
  intros H.
  assert (Hl : h2 !! l = h !! l).
  { apply H. destruct (h !! l) as [[]|]; set_solver. }
  rewrite Hl. destruct (h !! l) as [[| | |ps|]|]; try reflexivity.
  rewrite (cells_url_list_frame h h2 ps); [reflexivity|].
  intros l' Hl'. apply H. set_solver.
Qed.

(** *** Configurations *)

Lemma read_config_dom h c v :
  read_config h c = Some v -> cells_config h c ⊆ dom h.
Proof.
  unfold read_config, cells_config.
  destruct (h !! c) as [[| | | |k]|] eqn:E; try discriminate.
  destruct (read_url h (pLocalProxyURI k)) eqn:E1; [|discriminate].
  destruct (read_url h (pUpstreamProxyURI k)) eqn:E2; [|discriminate].
  destruct (read_url h (pPACURI k)) eqn:E3; [|discriminate].
  destruct (read_strings h (pPACProxiesCredentials k)) eqn:E4; [|discriminate].
  destruct (read_urls h (pDNSURIs k)) eqn:E5; [|discriminate].
  destruct (read_strings h (pSiteCredentials k)) eqn:E6; [|discriminate].
  intros _.
  apply read_url_dom in E1, E2, E3. apply read_strings_dom in E4, E6.
  apply read_urls_dom in E5.
  assert (Hc : c ∈ dom h) by (apply elem_of_dom; eauto).
  repeat (apply union_subseteq; split); try assumption.
  now apply singleton_subseteq_l.
Qed.

Lemma read_config_frame h h2 c :
  (forall l, l ∈ cells_config h c -> h2 !! l = h !! l) ->
  read_config h2 c = read_config h c.
Proof.
  unfold read_config, cells_config. intros H.
  assert (Hc : h2 !! c = h !! c).
  { apply H. destruct (h !! c) as [[]|]; set_solver. }
  rewrite Hc. destruct (h !! c) as [[| | | |k]|]; try reflexivity.
  rewrite (read_url_frame h h2 (pLocalProxyURI k)),
    (read_url_frame h h2 (pUpstreamProxyURI k)),
    (read_url_frame h h2 (pPACURI k)),
    (read_strings_frame h h2 (pPACProxiesCredentials k)),
    (read_urls_frame h h2 (pDNSURIs k)),
    (read_strings_frame h h2 (pSiteCredentials k));
    [reflexivity|..]; intros l Hl; apply H; set_solver.
Qed.

Lemma cells_config_frame h h2 c :
  (forall l, l ∈ cells_config h c -> h2 !! l = h !! l) ->
  cells_config h2 c = cells_config h c.
Proof.
  unfold cells_config. intros H.
  assert (Hc : h2 !! c = h !! c).
  { apply H. destruct (h !! c) as [[]|]; set_solver. }
  rewrite Hc. destruct (h !! c) as [[| | | |k]|]; try reflexivity.
  rewrite (cells_url_frame h h2 (pLocalProxyURI k)),
    (cells_url_frame h h2 (pUpstreamProxyURI k)),
    (cells_url_frame h h2 (pPACURI k)),
    (cells_urls_frame h h2 (pDNSURIs k));
    [reflexivity|..]; intros l Hl; apply H; set_solver.
Qed.

(** A heap that extends [h] agrees with [h] on the cells of a readable
    configuration. *)
Lemma extension_agrees h h' c v :
  h ⊆ h' -> read_config h c = Some v ->
  forall l, l ∈ cells_config h c -> h' !! l = h !! l.
Proof.
  intros Hsub Hr l Hl. apply read_config_dom in Hr.
  assert (Hd : l ∈ dom h) by set_solver.
  apply elem_of_dom in Hd as [x Hx]. rewrite Hx.
  exact (lookup_weaken _ _ _ _ Hx Hsub).
Qed.

(** *** [Clone] *)

(** Overwriting a cell [d] that existed at [h0] leaves alone whatever was
    allocated since. *)
Lemma overwrite_agrees (h0 h6 : heap) (d : loc) (x : cell) (X : gset loc) :
  d ∈ dom h0 -> allocated_since h0 h6 X ->
  forall l, l ∈ X -> <[d := x]> h6 !! l = h6 !! l.
Proof.
  intros Hd HX l Hl. apply lookup_insert_ne. intros ->.
  now apply (HX l Hl).
Qed.

Lemma allocated_since_overwrite (h h6 : heap) (d : loc) (x : cell)
    (X : gset loc) :
  allocated_since h h6 X -> allocated_since h (<[d := x]> h6) X.
Proof.
  intros HX l Hl. destruct (HX l Hl) as [Hin Hout]. split; [|exact Hout].
  rewrite dom_insert. apply elem_of_union. now right.
Qed.

Lemma Clone_spec h c v h' c' :
  read_config h c = Some v -> Clone h c = (h', c') ->
  h ⊆ h' /\ read_config h' c' = Some v
  /\ allocated_since h h' (cells_config h' c').
Proof.
  intros Hread. unfold Clone.
  destruct (alloc h (CConfig zeroConfig)) as [h0 d] eqn:Ea.
  intros [= <- <-].
  apply alloc_spec in Ea as (Hfresh & Eh0 & Hsub0 & Hal0).
  assert (Hd0 : d ∈ dom h0) by now apply (Hal0 d), elem_of_singleton.
  unfold read_config in Hread. unfold deepCopy.
  destruct (h !! c) as [[| | | |k]|] eqn:Ec; try discriminate.
  rewrite (lookup_weaken _ _ _ _ Ec Hsub0).
  destruct (read_url h (pLocalProxyURI k)) as [v1|] eqn:E1; [|discriminate].
  destruct (read_url h (pUpstreamProxyURI k)) as [v2|] eqn:E2; [|discriminate].
  destruct (read_url h (pPACURI k)) as [v3|] eqn:E3; [|discriminate].
  destruct (read_strings h (pPACProxiesCredentials k)) as [v4|] eqn:E4;
    [|discriminate].
  destruct (read_urls h (pDNSURIs k)) as [v5|] eqn:E5; [|discriminate].
  destruct (read_strings h (pSiteCredentials k)) as [v6|] eqn:E6;
    [|discriminate].
  injection Hread as <-.
  destruct (copy_url h0 (pLocalProxyURI k)) as [h1 p1] eqn:C1.
  destruct (copy_url_spec _ _ _ _ _ (read_url_mono _ _ _ _ Hsub0 E1) C1)
    as (S1 & R1 & A1).
  assert (T1 : h ⊆ h1) by now transitivity h0.
  destruct (copy_url h1 (pUpstreamProxyURI k)) as [h2 p2] eqn:C2.
  destruct (copy_url_spec _ _ _ _ _ (read_url_mono _ _ _ _ T1 E2) C2)
    as (S2 & R2 & A2).
  assert (T2 : h ⊆ h2) by now transitivity h1.
  destruct (copy_url h2 (pPACURI k)) as [h3 p3] eqn:C3.
  destruct (copy_url_spec _ _ _ _ _ (read_url_mono _ _ _ _ T2 E3) C3)
    as (S3 & R3 & A3).
  assert (T3 : h ⊆ h3) by now transitivity h2.
  destruct (copy_strings h3 (pPACProxiesCredentials k)) as [h4 p4] eqn:C4.
  destruct (copy_strings_spec _ _ _ _ _ (read_strings_mono _ _ _ _ T3 E4) C4)
    as (S4 & R4 & A4).
  assert (T4 : h ⊆ h4) by now transitivity h3.
  destruct (copy_urls h4 (pDNSURIs k)) as [h5 p5] eqn:C5.
  destruct (copy_urls_spec _ _ _ _ _ (read_urls_mono _ _ _ _ T4 E5) C5)
    as (S5 & R5 & A5).
  assert (T5 : h ⊆ h5) by now transitivity h4.
  destruct (copy_strings h5 (pSiteCredentials k)) as [h6 p6] eqn:C6.
  destruct (copy_strings_spec _ _ _ _ _ (read_strings_mono _ _ _ _ T5 E6) C6)
    as (S6 & R6 & A6).
  assert (T6 : h ⊆ h6) by now transitivity h5.
  (* everything read in the last heap before the struct is written *)
  assert (S56 : h5 ⊆ h6) by exact S6.
  assert (S46 : h4 ⊆ h6) by now transitivity h5.
  assert (S36 : h3 ⊆ h6) by now transitivity h4.
  assert (S26 : h2 ⊆ h6) by now transitivity h3.
  assert (S16 : h1 ⊆ h6) by now transitivity h2.
  assert (S06 : h0 ⊆ h6) by now transitivity h1.
  assert (S02 : h0 ⊆ h2) by now transitivity h1.
  assert (S03 : h0 ⊆ h3) by now transitivity h2.
  assert (S04 : h0 ⊆ h4) by now transitivity h3.
  assert (S05 : h0 ⊆ h5) by now transitivity h4.
  pose proof (read_url_mono _ _ _ _ S16 R1) as R1'.
  pose proof (read_url_mono _ _ _ _ S26 R2) as R2'.
  pose proof (read_url_mono _ _ _ _ S36 R3) as R3'.
  pose proof (read_strings_mono _ _ _ _ S46 R4) as R4'.
  pose proof (read_urls_mono _ _ _ _ S56 R5) as R5'.
  assert (A1' : allocated_since h0 h6 (cells_url h6 p1)).
  { rewrite (cells_url_mono _ _ _ _ S16 R1).
    now apply (allocated_since_after h0 h1 h6). }
  assert (A2' : allocated_since h0 h6 (cells_url h6 p2)).
  { rewrite (cells_url_mono _ _ _ _ S26 R2).
    apply (allocated_since_after h0 h2 h6); [assumption|].
    eapply allocated_since_before; [exact S1 | exact A2]. }
  assert (A3' : allocated_since h0 h6 (cells_url h6 p3)).
  { rewrite (cells_url_mono _ _ _ _ S36 R3).
    apply (allocated_since_after h0 h3 h6); [assumption|].
    eapply allocated_since_before; [exact S02 | exact A3]. }
  assert (A4' : allocated_since h0 h6 (cells_ptr p4)).
  { apply (allocated_since_after h0 h4 h6); [assumption|].
    eapply allocated_since_before; [exact S03 | exact A4]. }
  assert (A5' : allocated_since h0 h6 (cells_urls h6 p5)).
  { rewrite (cells_urls_mono _ _ _ _ S56 R5).
    apply (allocated_since_after h0 h5 h6); [assumption|].
    eapply allocated_since_before; [exact S04 | exact A5]. }
  assert (A6' : allocated_since h0 h6 (cells_ptr p6)).
  { eapply allocated_since_before; [exact S05 | exact A6]. }
  set (k' := mkConfigCell p1 p2 p3 p4 p5 (vProxyLocalhost k) p6).
  set (hf := <[d := CConfig k']> h6).
  split; [apply insert_subseteq_r; assumption|]. split.
  - unfold read_config, hf. rewrite lookup_insert_eq. cbn [k' pLocalProxyURI
      pUpstreamProxyURI pPACURI pPACProxiesCredentials pDNSURIs
      vProxyLocalhost pSiteCredentials].
    rewrite (read_url_frame h6 _ p1), R1'
      by (eapply overwrite_agrees; eassumption).
    rewrite (read_url_frame h6 _ p2), R2'
      by (eapply overwrite_agrees; eassumption).
    rewrite (read_url_frame h6 _ p3), R3'
      by (eapply overwrite_agrees; eassumption).
    rewrite (read_strings_frame h6 _ p4), R4'
      by (eapply overwrite_agrees; eassumption).
    rewrite (read_urls_frame h6 _ p5), R5'
      by (eapply overwrite_agrees; eassumption).
    rewrite (read_strings_frame h6 _ p6), R6
      by (eapply overwrite_agrees; eassumption).
    reflexivity.
  - unfold cells_config, hf. rewrite lookup_insert_eq. cbn [k' pLocalProxyURI
      pUpstreamProxyURI pPACURI pPACProxiesCredentials pDNSURIs
      vProxyLocalhost pSiteCredentials].
    rewrite (cells_url_frame h6 _ p1)
      by (eapply overwrite_agrees; eassumption).
    rewrite (cells_url_frame h6 _ p2)
      by (eapply overwrite_agrees; eassumption).
    rewrite (cells_url_frame h6 _ p3)
      by (eapply overwrite_agrees; eassumption).
    rewrite (cells_urls_frame h6 _ p5)
      by (eapply overwrite_agrees; eassumption).
    apply allocated_since_overwrite.
    repeat apply allocated_since_union;
      try (eapply allocated_since_before; [exact Hsub0 | eassumption]).
    now apply (allocated_since_after h h0 h6).
Qed.

End CloneFacts.

(** C7.  [Clone] returns a deep copy that shares nothing with its source.
    For a heap [h] in which the configuration at [c] reads as [v], the
    clone reads as [v] too and the source still does; every cell of the
    clone (the struct, each URL, each credential, each backing array, each
    URL of the DNS list) was allocated by [Clone], so no cell belongs to
    both; whatever is then written to the clone's cells, or to cells
    allocated later, the source still reads as [v]; and whatever is written
    to the source's cells, the clone still reads as [v]. *)
Theorem C7_Clone_shares_nothing (h : heap) (c : loc) (v : ProxyConfig) :
  read_config h c = Some v ->
  let h' := fst (Clone h c) in
  let c' := snd (Clone h c) in
  read_config h' c' = Some v
  /\ read_config h' c = Some v
  /\ (forall l, l ∈ cells_config h' c' -> l ∉ dom h)
  /\ cells_config h' c' ## cells_config h' c
  /\ (forall h'' : heap,
        (forall l, l ∈ dom h' -> l ∉ cells_config h' c' -> h'' !! l = h' !! l) ->
        read_config h'' c = Some v)
  /\ (forall h'' : heap,
        (forall l, l ∈ dom h' -> l ∉ cells_config h' c -> h'' !! l = h' !! l) ->
        read_config h'' c' = Some v).
Proof.
  intros Hread h' c'.
  destruct (Clone_spec h c v h' c' Hread) as (Hsub & Hclone & Hnew).
  { unfold h', c'. now destruct (Clone h c). }
  assert (Hsrc : read_config h' c = Some v).
  { rewrite <- Hread. apply read_config_frame.
    now apply (extension_agrees h h' c v). }
  assert (Hcells : cells_config h' c = cells_config h c).
  { apply cells_config_frame. now apply (extension_agrees h h' c v). }
  assert (Hold : cells_config h' c ⊆ dom h).
  { rewrite Hcells. now apply (read_config_dom h c v). }
  assert (Hdisj : cells_config h' c' ## cells_config h' c).
  { intros l Hl1 Hl2. apply (Hnew l Hl1). now apply Hold. }
  split; [exact Hclone|]. split; [exact Hsrc|].
  split; [intros l Hl; now apply (Hnew l Hl)|].
  split; [exact Hdisj|]. split.
  - intros h'' Hsame. rewrite <- Hsrc. apply read_config_frame.
    intros l Hl. apply Hsame.
    + apply (subseteq_dom h h'); [exact Hsub | now apply Hold].
    + intros Hl'. exact (Hdisj l Hl' Hl).
  - intros h'' Hsame. rewrite <- Hclone. apply read_config_frame.
    intros l Hl. apply Hsame.
    + now apply (Hnew l Hl).
    + intros Hl'. exact (Hdisj l Hl Hl').
Qed.

Lemma C7_Clone_shares_nothing_witness :
  read_config (fst (Clone sample_heap 1%positive))
              (snd (Clone sample_heap 1%positive)) = Some sample_config
  /\ read_config (fst (Clone sample_heap 1%positive)) 1%positive
     = Some sample_config.
Proof.
  destruct (C7_Clone_shares_nothing sample_heap 1%positive sample_config)
    as (Hclone & Hsrc & _).
  - vm_compute. reflexivity.
  - split; assumption.
Defined.

(** * Further properties *)

(** ** [ParseFilePathOrURL] *)

Section FileurlMore.

Lemma ReplaceAll_empty (s : string) :
  ReplaceAll s backslash "/" = "" -> s = "".
Proof.
  destruct s as [|c s]; [reflexivity|]. simpl.
  destruct (eqb_byte c backslash); discriminate.
Qed.

Lemma ReplaceAll_dash (s : string) :
  ReplaceAll s backslash "/" = "-" -> s = "-".
Proof.
  destruct s as [|c s]; [discriminate|]. simpl.
  destruct (eqb_byte c backslash); [discriminate|].
  intros [= -> Hs]. now rewrite (ReplaceAll_empty s Hs).
Qed.

Lemma ReplaceAll_idempotent (s : string) :
  ReplaceAll (ReplaceAll s backslash "/") backslash "/"
  = ReplaceAll s backslash "/".
Proof. apply ReplaceAll_no_byte, ReplaceAll_clears. Qed.

Lemma windowsVolumeRegex_letter (s m0 m1 : string) :
  windowsVolumeRegex s = Some (m0, m1) ->
  exists l, m1 = String l "" /\ is_letter l = true.
Proof.
  unfold windowsVolumeRegex.
  destruct (str_drop _ s) as [|l [|sep [|sl t]]]; try discriminate.
  destruct (is_letter l) eqn:El; [|discriminate].
  destruct (_ && _); [|discriminate].
  intros [= _ <-]. eauto.
Qed.

Lemma windowsVolumeRegex_drive (lead : string) (l sep : ascii) (rest : string) :
  lead = "" \/ lead = "/" ->
  is_letter l = true -> sep = ":"%char \/ sep = "|"%char ->
  windowsVolumeRegex (lead +:+ String l (String sep (String "/" rest)))
  = Some (lead +:+ String l (String sep "/"), String l "").
Proof.
  intros Hlead Hl Hsep.
  assert (Hl' : eqb_byte l "/" = false).
  { apply eqb_byte_neq. intros ->. discriminate Hl. }
  destruct Hlead as [-> | ->], Hsep as [-> | ->];
    unfold windowsVolumeRegex; simpl; rewrite ?Hl'; simpl; rewrite Hl;
    reflexivity.
Qed.

(** The two ways [file_fixup] can end. *)
Lemma file_fixup_cases (u0 : URL) :
  (Scheme u0 <> "" /\ Scheme u0 <> "file" /\ file_fixup u0 = u0)
  \/ (Scheme (file_fixup u0) = "file"
      /\ OmitHost (file_fixup u0) = false
      /\ Opaque (file_fixup u0)
         = (if isEmpty (Path u0) && negb (isEmpty (Opaque u0)) then Path u0
            else Opaque u0)
      /\ exists p,
          p = (if isEmpty (Path u0) && negb (isEmpty (Opaque u0))
               then Opaque u0 else Path u0)
          /\ Path (file_fixup u0)
             = match windowsVolumeRegex p with
               | Some (m0, m1) => m1 +:+ ":/" +:+ str_drop (len m0) p
               | None => p
               end).
Proof.
  unfold file_fixup.
  set (u1 := if isEmpty (Scheme u0) then set_Scheme u0 "file" else u0).
  assert (H1 : Path u1 = Path u0 /\ Opaque u1 = Opaque u0)
    by (unfold u1; now destruct (isEmpty (Scheme u0))).
  destruct H1 as [Hp1 Ho1].
  destruct (String.eqb_spec (Scheme u1) "file") as [E|E]; cbn [negb].
  - right. rewrite Hp1, Ho1.
    set (u2 := if isEmpty (Path u0) && negb (isEmpty (Opaque u0))
               then set_Opaque (set_Path u1 (Opaque u0)) (Path u0) else u1).
    assert (H2 : Scheme u2 = "file"
                 /\ Path u2 = (if isEmpty (Path u0) && negb (isEmpty (Opaque u0))
                               then Opaque u0 else Path u0)
                 /\ Opaque u2 = (if isEmpty (Path u0) && negb (isEmpty (Opaque u0))
                                 then Path u0 else Opaque u0)).
    { unfold u2. destruct (isEmpty (Path u0) && negb (isEmpty (Opaque u0)));
        simpl; auto. }
    destruct H2 as (Hs2 & Hp2 & Ho2). rewrite Hp2.
    remember (if isEmpty (Path u0) && negb (isEmpty (Opaque u0))
              then Opaque u0 else Path u0) as p eqn:Ep.
    destruct (windowsVolumeRegex p) as [[m0 m1]|] eqn:Er; simpl;
      (split; [assumption|]; split; [reflexivity|]; split; [assumption|]);
      exists p; (split; [reflexivity|]); rewrite Er; simpl;
      try assumption; reflexivity.
  - left. unfold u1 in *. destruct (isEmpty (Scheme u0)) eqn:E0.
    + exfalso. apply E. reflexivity.
    + apply isEmpty_false in E0. auto.
Qed.

End FileurlMore.

(** X1.  A path written with backslashes is parsed exactly as the same path
    written with forward slashes. *)
Theorem X1_backslashes_are_slashes (val : string) :
  ParseFilePathOrURL val
  = ParseFilePathOrURL (ReplaceAll val backslash "/").
Proof.
  destruct (string_dec val "-") as [->|Hne]; [reflexivity|].
  rewrite (ParseFilePathOrURL_steps val Hne).
  rewrite ParseFilePathOrURL_steps.
  - now rewrite ReplaceAll_idempotent.
  - intros H. apply Hne. now apply ReplaceAll_dash.
Qed.

(** X2.  In a result of scheme "file", a path that begins with a drive is in
    the form [L:/...]: it never begins with [/L:/], [L|/] or [/L|/]. *)
Theorem X2_drive_paths_are_canonical
    (val : string) (u : URL) (lead : string) (l sep : ascii) (rest : string) :
  ParseFilePathOrURL val = Ok u -> Scheme u = "file" ->
  lead = "" \/ lead = "/" ->
  is_letter l = true -> sep = ":"%char \/ sep = "|"%char ->
  Path u = lead +:+ String l (String sep (String "/" rest)) ->
  lead = "" /\ sep = ":"%char.
Proof.
  intros Hparse Hs Hlead Hl Hsep Hp.
  destruct (string_dec val "-") as [->|Hne].
  { injection Hparse as <-. simpl in Hp.
    destruct Hlead as [-> | ->]; discriminate Hp. }
  rewrite (ParseFilePathOrURL_steps val Hne) in Hparse.
  destruct (Parse _) as [u0|e]; [|discriminate].
  cbn [mbind result_bind] in Hparse. injection Hparse as <-.
  destruct (file_fixup_cases u0) as [(_ & Hnf & Hid)|(_ & _ & _ & p & _ & Hpath)].
  - rewrite Hid in Hs. contradiction.
  - rewrite Hpath in Hp. clear Hpath.
    destruct (windowsVolumeRegex p) as [[m0 m1]|] eqn:Er.
    + destruct (windowsVolumeRegex_letter _ _ _ Er) as (l0 & -> & Hl0).
      destruct Hlead as [-> | ->]; simpl in Hp.
      * injection Hp as <- <-. auto.
      * injection Hp as ->. discriminate Hl0.
    + subst p. rewrite windowsVolumeRegex_drive in Er by assumption.
      discriminate Er.
Qed.

Lemma X2_drive_paths_are_canonical_witness :
  "" = "" /\ ":"%char = ":"%char.
Proof.
  apply (X2_drive_paths_are_canonical "/C|\foo"
           (set_RawPath (set_Path (set_Scheme zero "file") "C:/foo") "/C|/foo")
           "" "C"%char ":"%char "foo").
  - reflexivity.
  - reflexivity.
  - now left.
  - reflexivity.
  - now left.
  - reflexivity.
Defined.

(** ** What [url.Parse] leaves in its result *)

Section ParseShape.

Lemma setPath_keeps (u u' : URL) (p : string) :
  setPath u p = Ok u' ->
  Scheme u' = Scheme u /\ Opaque u' = Opaque u /\ Host u' = Host u
  /\ User_ u' = User_ u /\ OmitHost u' = OmitHost u.
Proof.
  unfold setPath. destruct (unescape p encodePath) as [path|e]; [|discriminate].
  cbn [mbind result_bind]. destruct (String.eqb p _); intros [= <-]; auto.
Qed.

Lemma setFragment_keeps (u u' : URL) (f : string) :
  setFragment u f = Ok u' ->
  Scheme u' = Scheme u /\ Opaque u' = Opaque u /\ Path u' = Path u
  /\ Host u' = Host u /\ User_ u' = User_ u /\ OmitHost u' = OmitHost u.
Proof.
  unfold setFragment.
  destruct (unescape f encodeFragment) as [frag|e]; [|discriminate].
  cbn [mbind result_bind]. destruct (String.eqb f _); intros [= <-];
    repeat split.
Qed.

(** The scheme of a parsed URL is the lower-cased scheme that [getScheme]
    split off, and a URL with an opaque part has no path. *)
Lemma parse_shape (s : string) (u : URL) :
  parse s = Ok u ->
  (Opaque u = "" \/ Path u = "")
  /\ ((s = "*" /\ Scheme u = "")
      \/ exists sch rest, getScheme s = Ok (sch, rest) /\ Scheme u = ToLower sch).
Proof.
  unfold parse. destruct (stringContainsCTLByte s); [discriminate|].
  destruct (String.eqb_spec s "*") as [->|Hne].
  { intros [= <-]. split; [now left | left; split; reflexivity]. }
  destruct (getScheme s) as [[sch rest]|e]; [|discriminate].
  cbn [mbind result_bind].
  set (url0 := set_Scheme zero (ToLower sch)).
  assert (Hq : exists url rest0,
             (if HasSuffix rest "?" && (Count rest "?" =? 1)%nat
              then (set_ForceQuery url0 true, str_take (len rest - 1) rest)
              else let '(rest0, query, _) := Cut rest "?" in
                   (set_RawQuery url0 query, rest0)) = (url, rest0)
             /\ Scheme url = ToLower sch /\ Opaque url = "" /\ Path url = "").
  { destruct (HasSuffix rest "?" && (Count rest "?" =? 1)%nat).
    - eexists _, _. split; [reflexivity|]. repeat split.
    - destruct (Cut rest "?") as [[r q] f]. eexists _, _.
      split; [reflexivity|]. repeat split. }
  destruct Hq as (url & rest0 & -> & Hs & Ho & Hp).
  destruct (negb (HasPrefix rest0 "/") && negb (isEmpty (Scheme url))).
  { intros [= <-]. split; [now right|]. right. exists sch, rest. now split. }
  destruct (negb (HasPrefix rest0 "/") && Contains _ ":"); [discriminate|].
  assert (Hfin : forall url1 rest1 u,
             Scheme url1 = ToLower sch -> Opaque url1 = "" ->
             setPath url1 rest1 = Ok u ->
             (Opaque u = "" \/ Path u = "")
             /\ ((s = "*" /\ Scheme u = "")
                 \/ exists sch0 rest2, Ok (sch, rest) = Ok (sch0, rest2)
                                       /\ Scheme u = ToLower sch0)).
  { intros url1 rest1 u1 Hs1 Ho1 Hset.
    apply setPath_keeps in Hset as (Hs' & Ho' & _).
    split; [left; congruence|]. right. exists sch, rest.
    split; [reflexivity | congruence]. }
  destruct ((negb (isEmpty (Scheme url)) || negb (HasPrefix rest0 "///"))
            && HasPrefix rest0 "//").
  - destruct (Index (str_drop 2 rest0) "/") as [i|];
      (destruct (parseAuthority _) as [[user host]|e]; [|discriminate]);
      cbn [mbind result_bind]; apply Hfin; assumption.
  - destruct (negb (isEmpty (Scheme url)) && HasPrefix rest0 "/");
      cbn [mbind result_bind]; apply Hfin; assumption.
Qed.

Lemma Parse_shape (v : string) (u : URL) :
  Parse v = Ok u ->
  exists u0,
    parse (fst (fst (Cut v "#"))) = Ok u0
    /\ Scheme u = Scheme u0 /\ Opaque u = Opaque u0 /\ Path u = Path u0.
Proof.
  unfold Parse. destruct (Cut v "#") as [[s frag] f]. cbn [fst].
  destruct (parse s) as [u0|e]; [|discriminate].
  destruct (isEmpty frag).
  - intros [= <-]. exists u0. auto.
  - destruct (setFragment u0 frag) as [u1|e] eqn:Ef; [|discriminate].
    intros [= <-]. exists u0. split; [reflexivity|].
    apply setFragment_keeps in Ef. tauto.
Qed.

(** The part of [v] before its first [#] begins as [v] does, as far as the
    beginning has no [#]. *)
Lemma before_hash_prefix (p v : string) :
  no_byte "#" p -> HasPrefix v p = true ->
  HasPrefix (fst (fst (Cut v "#"))) p = true.
Proof.
  intros Hp Hv. apply HasPrefix_spec in Hv as [t ->].
  unfold Cut.
  assert (H : forall t, match Index (p +:+ t) "#" with
                        | Some i => exists r, str_take i (p +:+ t) = p +:+ r
                        | None => True
                        end).
  { clear t. induction p as [|c p IH]; intros t.
    - simpl "+:+". destruct (Index t "#"); [|exact I]. eauto.
    - apply no_byte_cons in Hp as [Hc Hp]. specialize (IH Hp t).
      simpl. apply eqb_byte_neq in Hc. rewrite Hc. cbn [andb].
      destruct (Index (p +:+ t) "#") as [i|]; [|exact I].
      destruct IH as [r Hr]. exists r. simpl. now rewrite Hr. }
  specialize (H t). destruct (Index (p +:+ t) "#") as [i|]; cbn [fst].
  - destruct H as [r ->]. apply HasPrefix_append.
  - apply HasPrefix_append.
Qed.

End ParseShape.

(** X3.  A URL returned by [ParseFilePathOrURL] always has a scheme, and one
    of scheme "file" always shows its host when printed ([OmitHost] is off)
    and carries its location in the path, never in the opaque part. *)
Theorem X3_file_results (val : string) (u : URL) :
  ParseFilePathOrURL val = Ok u ->
  Scheme u <> ""
  /\ (Scheme u = "file" -> OmitHost u = false /\ Opaque u = "").
Proof.
  intros Hparse.
  destruct (string_dec val "-") as [->|Hne].
  { injection Hparse as <-. split; [discriminate | intros _; split; reflexivity]. }
  rewrite (ParseFilePathOrURL_steps val Hne) in Hparse.
  destruct (Parse _) as [u0|e] eqn:E0; [|discriminate].
  cbn [mbind result_bind] in Hparse. injection Hparse as <-.
  destruct (file_fixup_cases u0) as [(Hn & Hnf & ->)|(Hs & Hom & Hop & _)].
  - split; [assumption | intros H; contradiction].
  - split; [rewrite Hs; discriminate|]. intros _. split; [exact Hom|].
    rewrite Hop. apply Parse_shape in E0 as (u1 & E1 & _ & Ho & Hp).
    apply parse_shape in E1 as [Hshape _]. rewrite <- Ho, <- Hp in Hshape.
    destruct (isEmpty (Path u0)) eqn:Ep; cbn [andb].
    + apply isEmpty_true in Ep.
      destruct (isEmpty (Opaque u0)) eqn:Eo; cbn [negb]; [|exact Ep].
      now apply isEmpty_true.
    + apply isEmpty_false in Ep. destruct Hshape; [assumption | contradiction].
Qed.

Lemma X3_file_results_witness :
  Scheme (set_Path (set_Scheme zero "file") "C:/foo") <> ""
  /\ (Scheme (set_Path (set_Scheme zero "file") "C:/foo") = "file" ->
      OmitHost (set_Path (set_Scheme zero "file") "C:/foo") = false
      /\ Opaque (set_Path (set_Scheme zero "file") "C:/foo") = "").
Proof.
  apply (X3_file_results "file:C:/foo"). reflexivity.
Defined.

(** X4.  A URL of any scheme other than "file" is returned exactly as
    [url.Parse] returns it for the value with its backslashes replaced:
    neither the UNC rewriting nor the repairs for file URLs touch it. *)
Theorem X4_other_schemes_pass_through (val : string) (u : URL) :
  Parse (ReplaceAll val backslash "/") = Ok u ->
  Scheme u <> "" -> Scheme u <> "file" ->
  ParseFilePathOrURL val = Ok u.
Proof.
  intros Hparse Hs Hf.
  assert (Hne : val <> "-").
  { intros ->. injection Hparse as <-. now apply Hs. }
  rewrite (ParseFilePathOrURL_steps val Hne).
  set (v := ReplaceAll val backslash "/") in *.
  assert (Hscheme : forall p sch rest,
             no_byte "#" p -> HasPrefix v p = true ->
             (forall t, p +:+ t <> "*") ->
             (forall t, getScheme (p +:+ t) = Ok (sch, rest t)) ->
             Scheme u = ToLower sch).
  { intros p sch rest Hp Hv Hstar Hg.
    apply (before_hash_prefix p v Hp) in Hv.
    apply HasPrefix_spec in Hv as [t Ht].
    apply Parse_shape in Hparse as (u0 & E0 & Hs0 & _).
    rewrite Ht in E0. apply parse_shape in E0 as [_ [[Est _]|(sch0 & r0 & Eg & Hsch)]].
    - now apply Hstar in Est.
    - rewrite Hg in Eg. injection Eg as <- _. congruence. }
  assert (Hunc : unc_rewrite v = v).
  { unfold unc_rewrite.
    destruct (HasPrefix v "//") eqn:E2.
    { exfalso. apply Hs.
      apply (Hscheme "//" "" (fun t => "//" +:+ t)); try assumption.
      - unfold no_byte. simpl. intuition discriminate.
      - discriminate.
      - reflexivity. }
    unfold uncEmptyAuthorityRegex.
    destruct (HasPrefix v "file:") eqn:E5; [|reflexivity].
    exfalso. apply Hf.
    apply (Hscheme "file:" "file" (fun t => t)); try assumption.
    - unfold no_byte. simpl. intuition discriminate.
    - discriminate.
    - reflexivity. }
  rewrite Hunc, Hparse. cbn [mbind result_bind]. f_equal.
  destruct (file_fixup_cases u) as [(_ & _ & E)|(E & _)]; [exact E|].
  unfold file_fixup in E |- *.
  apply isEmpty_false in Hs. rewrite Hs in E |- *.
  apply String.eqb_neq in Hf. now rewrite Hf.
Qed.

Lemma X4_other_schemes_pass_through_witness :
  ParseFilePathOrURL "http://example.com/data.pac"
  = Ok (set_Path (set_Host (set_Scheme zero "http") "example.com") "/data.pac").
Proof.
  apply X4_other_schemes_pass_through.
  - reflexivity.
  - discriminate.
  - discriminate.
Defined.

(** ** Plain paths *)

Section PlainPaths.

Lemma getScheme_loop_no_colon (raw s : string) (i : nat) :
  no_byte ":" s -> getScheme_loop raw i s = Ok ("", raw).
Proof.
  revert i; induction s as [|c s IH]; intros i H; [reflexivity|].
  apply no_byte_cons in H as [Hc Hs]. simpl.
  destruct (is_alpha c); [now apply IH|].
  destruct (between "0" "9" c || one_of "+-." c).
  - destruct (i =? 0)%nat; [reflexivity | now apply IH].
  - apply eqb_byte_neq in Hc. now rewrite Hc.
Qed.

Lemma getScheme_no_colon (s : string) :
  no_byte ":" s -> getScheme s = Ok ("", s).
Proof. apply getScheme_loop_no_colon. Qed.

Lemma escape_same (s : string) :
  all_bytes (fun c => negb (shouldEscape c encodePath)) s ->
  escape s encodePath = s.
Proof.
  induction s as [|c s IH]; [reflexivity|].
  intros H. apply all_bytes_cons in H as [Hc Hs]. simpl.
  rewrite andb_false_r. apply negb_true_iff in Hc. rewrite Hc.
  now rewrite IH.
Qed.

Lemma no_byte_str_take (c : ascii) (i : nat) (s : string) :
  no_byte c s -> no_byte c (str_take i s).
Proof.
  revert i; induction s as [|x s IH]; intros i H.
  - destruct i; intros [].
  - destruct i as [|i]; [intros []|].
    apply no_byte_cons in H as [Hx Hs].
    change (str_take (S i) (String x s)) with (String x (str_take i s)).
    apply no_byte_cons. auto.
Qed.

Lemma all_bytes_str_drop (p : ascii -> bool) (i : nat) (s : string) :
  all_bytes p s -> all_bytes p (str_drop i s).
Proof.
  revert i; induction s as [|x s IH]; intros [|i] H; simpl; try assumption.
  apply all_bytes_cons in H as [_ Hs]. now apply IH.
Qed.

Lemma no_byte_before_cut (c : ascii) (s sep : string) :
  no_byte c s -> no_byte c (fst (fst (Cut s sep))).
Proof.
  intros H. unfold Cut. destruct (Index s sep); cbn [fst]; [|exact H].
  now apply no_byte_str_take.
Qed.

(** What the parser needs to know about one byte of a plain path. *)
Lemma path_byte_facts (c : ascii) :
  path_byte c = true ->
  not_ctl c = true
  /\ copied encodePath c = true
  /\ shouldEscape c encodePath = false
  /\ c <> "#"%char /\ c <> "?"%char /\ c <> ":"%char /\ c <> "|"%char
  /\ c <> "*"%char /\ c <> backslash.
Proof.
  destruct c as [[] [] [] [] [] [] [] []]; intros H; vm_compute in H;
    try discriminate H; clear H; repeat split; discriminate.
Qed.

Variable p : string.
Hypothesis p_bytes : all_bytes path_byte p.

Lemma path_no_byte (x : ascii) : path_byte x = false -> no_byte x p.
Proof. intros Hx. now apply (all_bytes_no_byte path_byte). Qed.

Lemma windowsVolumeRegex_plain : windowsVolumeRegex p = None.
Proof.
  unfold windowsVolumeRegex.
  pose proof (all_bytes_str_drop path_byte
                (len (if HasPrefix p "/" then "/" else "")) p p_bytes) as H.
  destruct (str_drop _ p) as [|l [|sep [|sl t]]]; try reflexivity.
  apply all_bytes_cons in H as [_ H]. apply all_bytes_cons in H as [Hsep _].
  apply path_byte_facts in Hsep as (_ & _ & _ & _ & _ & Hc & Hb & _).
  apply eqb_byte_neq in Hc, Hb. rewrite Hc, Hb.
  now rewrite andb_false_r.
Qed.

Hypothesis p_not_unc : HasPrefix p "//" = false.

Lemma Parse_plain_path : Parse p = Ok (set_Path zero p).
Proof.
  pose proof (path_no_byte "#" eq_refl) as Hhash.
  pose proof (path_no_byte "?" eq_refl) as Hq.
  pose proof (path_no_byte ":" eq_refl) as Hcolon.
  unfold Parse. rewrite Cut_byte_absent by assumption. cbn [isEmpty].
  unfold parse. rewrite no_ctl_byte.
  2:{ eapply all_bytes_weaken; [|exact p_bytes].
      intros c Hc. now apply path_byte_facts in Hc. }
  destruct (String.eqb_spec p "*") as [E|_].
  { exfalso. rewrite E in p_bytes. apply all_bytes_cons in p_bytes as [H _].
    discriminate H. }
  rewrite getScheme_no_colon by assumption. cbn [mbind result_bind].
  rewrite Count_absent by assumption. rewrite andb_false_r.
  rewrite Cut_byte_absent by assumption.
  cbn [ToLower Scheme set_RawQuery set_Scheme zero isEmpty negb].
  rewrite andb_false_r.
  unfold Contains.
  rewrite (Index_byte_absent (fst (fst (Cut p "/"))) ":")
    by now apply no_byte_before_cut.
  rewrite andb_false_r, p_not_unc, andb_false_r. cbn [andb].
  cbn [mbind result_bind]. unfold setPath.
  rewrite unescape_copied.
  2:{ eapply all_bytes_weaken; [|exact p_bytes].
      intros c Hc. now apply path_byte_facts in Hc. }
  cbn [mbind result_bind]. rewrite escape_same.
  2:{ eapply all_bytes_weaken; [|exact p_bytes].
      intros c Hc. apply path_byte_facts in Hc as (_ & _ & -> & _).
      reflexivity. }
  now rewrite String.eqb_refl.
Qed.

End PlainPaths.

(** X5.  A plain file path (letters, digits, [-._~] and slashes, not
    beginning with two slashes), absolute or relative, becomes the URL of
    scheme "file" with exactly this path and nothing else set. *)
Theorem X5_plain_path_is_file_url (p : string) :
  all_bytes path_byte p -> HasPrefix p "//" = false ->
  ParseFilePathOrURL p = Ok (set_Path (set_Scheme zero "file") p).
Proof.
  intros Hb Hunc.
  destruct (string_dec p "-") as [->|Hne]; [reflexivity|].
  rewrite (ParseFilePathOrURL_steps p Hne).
  rewrite ReplaceAll_no_byte.
  2:{ apply (all_bytes_no_byte path_byte); [reflexivity | assumption]. }
  assert (Hun : unc_rewrite p = p).
  { unfold unc_rewrite. rewrite Hunc. unfold uncEmptyAuthorityRegex.
    destruct (HasPrefix p "file:") eqn:E; [|reflexivity].
    apply HasPrefix_spec in E as [t ->].
    apply all_bytes_append in Hb as [Hb _].
    repeat (apply all_bytes_cons in Hb as [? Hb]). discriminate. }
  rewrite Hun, Parse_plain_path by assumption. cbn [mbind result_bind].
  unfold file_fixup.
  cbn [Scheme Path Opaque set_Path set_Scheme zero isEmpty String.eqb
       Ascii.eqb Bool.eqb negb].
  rewrite andb_false_r. rewrite windowsVolumeRegex_plain by assumption.
  reflexivity.
Qed.

Lemma X5_plain_path_is_file_url_witness :
  ParseFilePathOrURL "/etc/forwarder/config.yaml"
  = Ok (set_Path (set_Scheme zero "file") "/etc/forwarder/config.yaml").
Proof.
  apply X5_plain_path_is_file_url.
  - repeat constructor.
  - reflexivity.
Defined.

(** ** Credentials and ports *)

Section CredentialFacts.

Lemma Index_byte_found (s : string) (c : ascii) (i : nat) :
  Index s (String c "") = Some i ->
  s = str_take i s +:+ String c (str_drop (i + 1) s)
  /\ no_byte c (str_take i s).
Proof.
  revert i; induction s as [|x s IH]; intros i; [discriminate|].
  simpl. destruct (eqb_byte x c) eqn:E; cbn [andb].
  - intros [= <-]. apply eqb_byte_eq in E as ->. simpl.
    split; [reflexivity | intros []].
  - destruct (Index s (String c "")) as [j|]; [|discriminate].
    intros [= <-]. destruct (IH j eq_refl) as [Hs Hn].
    change (str_take (S j) (String x s)) with (String x (str_take j s)).
    change (str_drop (S j + 1) (String x s)) with (str_drop (j + 1) s).
    split.
    + simpl. now rewrite <- Hs.
    + apply no_byte_cons. apply eqb_byte_neq in E. auto.
Qed.

Lemma Cut_byte_found (s : string) (c : ascii) (a b : string) :
  Cut s (String c "") = (a, b, true) ->
  s = a +:+ String c b /\ no_byte c a.
Proof.
  unfold Cut. destruct (Index s (String c "")) as [i|] eqn:E; [|discriminate].
  intros [= <- <-]. now apply Index_byte_found.
Qed.

Lemma digit_range (c : ascii) :
  Strconv.is_digit c = true -> (0 <= Z.of_N (N_of_ascii c) - 48 <= 9)%Z.
Proof.
  unfold Strconv.is_digit, between, byte. intros H.
  apply andb_prop in H as [H1 H2]. apply N.leb_le in H1, H2.
  change (N_of_ascii "0") with 48%N in H1.
  change (N_of_ascii "9") with 57%N in H2. lia.
Qed.

Lemma fold_digits_lower (l : list ascii) (n : Z) :
  Forall (fun c => Strconv.is_digit c = true) l -> (0 <= n)%Z ->
  (n <= fold_left (fun n c => (n * 10 + (Z.of_N (N_of_ascii c) - 48))%Z) l n)%Z.
Proof.
  revert n; induction l as [|c l IH]; intros n Hl Hn; simpl; [lia|].
  inversion Hl as [|? ? Hc Hl']; subst. apply digit_range in Hc.
  etransitivity; [|apply IH; [assumption | lia]]. lia.
Qed.

Lemma decimal_value_nonneg (s : string) :
  all_bytes Strconv.is_digit s -> (0 <= decimal_value s)%Z.
Proof. intros H. now apply fold_digits_lower. Qed.

Lemma digits_some (s : string) (n m : Z) :
  Strconv.digits s n = Some m -> all_bytes Strconv.is_digit s.
Proof.
  revert n; induction s as [|c s IH]; intros n; simpl.
  - intros _. apply all_bytes_nil.
  - destruct (Strconv.is_digit c) eqn:E; [|discriminate].
    intros H. apply all_bytes_cons. split; [exact E | eapply IH, H].
Qed.

(** [Atoi] on a non-empty string of digits. *)
Lemma Atoi_digits (s : string) :
  s <> "" -> all_bytes Strconv.is_digit s ->
  Strconv.Atoi s
  = if (decimal_value s <=? Strconv.maxInt)%Z then Some (decimal_value s)
    else None.
Proof.
  intros Hne Hd. destruct s as [|c s]; [congruence|].
  pose proof (decimal_value_nonneg _ Hd) as Hpos.
  pose proof Hd as Hd'. apply all_bytes_cons in Hd' as [Hc _].
  unfold Strconv.Atoi.
  replace (eqb_byte c "-") with false.
  2:{ symmetry. apply eqb_byte_neq. intros ->. discriminate Hc. }
  replace (eqb_byte c "+") with false.
  2:{ symmetry. apply eqb_byte_neq. intros ->. discriminate Hc. }
  cbv [orb]. cbv iota.
  rewrite digits_value by assumption.
  fold (decimal_value (String c s)).
  replace ((Strconv.minInt <=? decimal_value (String c s))%Z) with true.
  2:{ symmetry. apply Z.leb_le. unfold Strconv.minInt. lia. }
  reflexivity.
Qed.

End CredentialFacts.

(** X6.  [ParseUserInfo] returns no credential exactly for the empty input,
    and a credential it returns spells the input back: the input is the
    username, a colon and the password; both are non-empty, the username
    has no colon, and the password counts as set. *)
Theorem X6_ParseUserInfo_round_trip :
  (forall val : string, ParseUserInfo val = Ok None <-> val = "")
  /\ (forall (val : string) (ui : Userinfo),
         ParseUserInfo val = Ok (Some ui) ->
         val = username ui +:+ ":" +:+ password ui
         /\ username ui <> "" /\ password ui <> ""
         /\ no_byte ":" (username ui)
         /\ passwordSet ui = true).
Proof.
  split.
  - intros val. unfold ParseUserInfo. destruct val as [|c s]; [tauto|].
    cbn [isEmpty]. split; [|discriminate].
    destruct (Cut (String c s) ":") as [[u p] ok].
    destruct ok; cbn [negb]; [|discriminate]. simpl.
    destruct (isEmpty u); [discriminate|].
    destruct (isEmpty p); discriminate.
  - intros val ui. unfold ParseUserInfo.
    destruct (isEmpty val); [discriminate|].
    destruct (Cut val ":") as [[u p] ok] eqn:Ec.
    destruct ok; cbn [negb]; [|discriminate]. simpl.
    destruct (isEmpty u) eqn:Eu; [discriminate|].
    destruct (isEmpty p) eqn:Ep; [discriminate|].
    intros [= <-]. simpl.
    apply Cut_byte_found in Ec as [-> Hn].
    apply isEmpty_false in Eu, Ep. auto.
Qed.

Lemma X6_ParseUserInfo_round_trip_witness :
  "alice:s:1" = username (UserPassword "alice" "s:1") +:+ ":"
                +:+ password (UserPassword "alice" "s:1").
Proof.
  apply (proj2 X6_ParseUserInfo_round_trip "alice:s:1"
          (UserPassword "alice" "s:1")).
  reflexivity.
Defined.

(** X7.  [isPort] accepts exactly the strings made of an optional plus sign
    and at least one decimal digit that write a number from 1 to 65535,
    however many leading zeros or digits there are. *)
Theorem X7_isPort (port : string) :
  isPort port = true
  <-> exists body : string,
      (port = body \/ port = String "+" body)
      /\ body <> "" /\ all_bytes Strconv.is_digit body
      /\ (1 <= decimal_value body <= 65535)%Z.
Proof.
  split.
  - unfold isPort, Strconv.Atoi. destruct port as [|c s]; [discriminate|].
    set (body := if eqb_byte c "-" || eqb_byte c "+" then s else String c s).
    destruct body as [|b bs] eqn:Eb; [discriminate|].
    destruct (Strconv.digits (String b bs) 0) as [n|] eqn:Ed; [|discriminate].
    pose proof (digits_some _ _ _ Ed) as Hd.
    rewrite digits_value in Ed by assumption. fold (decimal_value (String b bs)) in Ed.
    injection Ed as <-.
    pose proof (decimal_value_nonneg _ Hd) as Hpos.
    destruct ((Strconv.minInt <=? _)%Z && (_ <=? Strconv.maxInt)%Z);
      [|discriminate].
    intros H. apply andb_prop in H as [H1 H2]. apply Z.leb_le in H1, H2.
    destruct (eqb_byte c "-") eqn:Em; [lia|].
    exists (String b bs). split; [|split; [discriminate | split; [assumption | lia]]].
    unfold body in Eb. cbn [orb] in Eb.
    destruct (eqb_byte c "+") eqn:Ep.
    + apply eqb_byte_eq in Ep. right. now subst.
    + left. now rewrite Eb.
  - intros (body & Hform & Hne & Hd & Hr).
    assert (Hat : Strconv.Atoi body = Some (decimal_value body)).
    { rewrite Atoi_digits by assumption.
      replace (decimal_value body <=? Strconv.maxInt)%Z with true; [reflexivity|].
      symmetry. apply Z.leb_le. unfold Strconv.maxInt. lia. }
    assert (Hplus : Strconv.Atoi (String "+" body) = Strconv.Atoi body).
    { destruct body as [|b bs]; [congruence|].
      pose proof Hd as Hd'. apply all_bytes_cons in Hd' as [Hb _].
      unfold Strconv.Atoi.
      replace (eqb_byte b "-") with false.
      2:{ symmetry. apply eqb_byte_neq. intros ->. discriminate Hb. }
      replace (eqb_byte b "+") with false.
      2:{ symmetry. apply eqb_byte_neq. intros ->. discriminate Hb. }
      reflexivity. }
    unfold isPort. destruct Hform as [-> | ->]; rewrite ?Hplus, Hat;
      apply andb_true_intro; split; apply Z.leb_le; lia.
Qed.

Lemma X7_isPort_witness : isPort "0008080" = true.
Proof.
  apply (proj2 (X7_isPort "0008080")). exists "0008080".
  split; [now left|]. split; [discriminate|].
  split; [repeat constructor|]. vm_compute. split; discriminate.
Defined.

(** ** What the parsers return *)

Section ParserResults.

Lemma isPort_true (port : string) :
  isPort port = true
  <-> exists p, Strconv.Atoi port = Some p /\ (1 <= p <= 65535)%Z.
Proof.
  unfold isPort. destruct (Strconv.Atoi port) as [p|].
  - rewrite andb_true_iff, !Z.leb_le. split.
    + intros H. exists p. split; [reflexivity | lia].
    + intros (q & [= <-] & H). lia.
  - split; [discriminate | intros (p & H & _); discriminate].
Qed.

Lemma isPort_nonempty (port : string) : isPort port = true -> port <> "".
Proof. intros H ->. discriminate H. Qed.

Lemma validateProxyURI_ok (u : URL) :
  validateProxyURI (Some u) = None <-> proxy_uri_ok u.
Proof.
  unfold validateProxyURI, proxy_uri_ok.
  pose proof (scheme_test (Scheme u)) as Hs.
  destruct (negb (String.eqb (Scheme u) "http") && _ && _ && _ && _) eqn:Es.
  { split; [discriminate|]. intros (Hin & _). now apply Hs in Hin. }
  assert (Hin : In (Scheme u) proxy_schemes).
  { destruct (In_dec string_dec (Scheme u) proxy_schemes) as [H|H];
      [exact H | apply Hs in H; discriminate]. }
  unfold minHostLength.
  destruct (len (Hostname u) <? 4)%nat eqn:Eh.
  { apply Nat.ltb_lt in Eh. split; [discriminate|]. intros (_ & H & _). lia. }
  apply Nat.ltb_ge in Eh.
  destruct (isEmpty (Port u)) eqn:Ep.
  { apply isEmpty_true in Ep. split; [discriminate|].
    intros (_ & _ & (p & Hp & _) & _). rewrite Ep in Hp. discriminate Hp. }
  destruct (isPort (Port u)) eqn:Ei; cbn [negb].
  - apply isPort_true in Ei.
    pose proof (validatedUserInfo_error (User_ u)) as Hu.
    destruct (validatedUserInfo (User_ u)) as [e|].
    + split; [discriminate|]. intros (_ & _ & _ & Hc).
      destruct Hu as [Hu _]. destruct Hu as (ui & Hui & Hbad); [discriminate|].
      destruct (Hc ui Hui). tauto.
    + split; [|reflexivity]. intros _.
      split; [assumption|]. split; [assumption|]. split; [assumption|].
      intros ui Hui.
      split; intros E; apply (proj2 Hu); try reflexivity; exists ui; tauto.
  - split; [discriminate|]. intros (_ & _ & Hp & _).
    apply isPort_true in Hp. congruence.
Qed.

Lemma validateDNSURI_none (u : URL) :
  validateDNSURI u = None <-> dns_uri_ok u.
Proof.
  split; [apply validateDNSURI_ok|].
  unfold dns_uri_ok. intros (Hs & Hip & Hp & Hu & Hpath & Hq & Hf).
  unfold validateDNSURI.
  replace (negb (String.eqb (Scheme u) "udp") && negb (String.eqb (Scheme u) "tcp"))
    with false by (destruct Hs as [-> | ->]; reflexivity).
  destruct (Net.ParseIP (Hostname u)); [|contradiction]. cbn [is_Some_b negb].
  apply isPort_true in Hp. rewrite Hp, Hu, Hpath, Hq, Hf. reflexivity.
Qed.

End ParserResults.

(** X8.  [ParseProxyURI] succeeds exactly on the strings that [url.Parse]
    accepts and whose URL has an allowed scheme, a hostname of at least 4
    bytes, a port from 1 to 65535 and, if it has a credential, a non-empty
    username and password; and it returns the URL of [url.Parse]
    unchanged. *)
Theorem X8_ParseProxyURI_result (val : string) (u : URL) :
  ParseProxyURI val = Ok u <-> Parse val = Ok u /\ proxy_uri_ok u.
Proof.
  rewrite <- validateProxyURI_ok. unfold ParseProxyURI.
  destruct (Parse val) as [u0|e]; cbn [mbind result_bind].
  - destruct (validateProxyURI (Some u0)) eqn:E; split.
    + discriminate.
    + intros [[= ->] H]. congruence.
    + intros [= ->]. split; [reflexivity | exact E].
    + intros [[= ->] _]. reflexivity.
  - split; [discriminate | intros [H _]; discriminate].
Qed.

Lemma X8_ParseProxyURI_result_witness :
  Parse "socks5://10.0.0.1:1080" = Ok (set_Host (set_Scheme zero "socks5") "10.0.0.1:1080")
  /\ proxy_uri_ok (set_Host (set_Scheme zero "socks5") "10.0.0.1:1080").
Proof.
  apply (proj1 (X8_ParseProxyURI_result "socks5://10.0.0.1:1080" _)).
  reflexivity.
Defined.

(** ** DNS URI strings *)

Section DNSStrings.

Lemma host_is_path (c : ascii) : host_byte c = true -> path_byte c = true.
Proof. intros H. unfold path_byte. now rewrite (host_is_plain c H). Qed.

Lemma digit_not_alpha (d : ascii) :
  Strconv.is_digit d = true ->
  is_alpha d = false /\ between "0" "9" d = true /\ d <> "/"%char
  /\ d <> "*"%char.
Proof.
  destruct d as [[] [] [] [] [] [] [] []]; intros H; vm_compute in H;
    try discriminate H; clear H; repeat split; discriminate.
Qed.

Lemma splitHostPort_no_colon (h : string) :
  no_byte ":" h -> HasPrefix h "[" = false -> splitHostPort h = (h, "").
Proof.
  intros Hc Hb. unfold splitHostPort, LastIndexByte.
  rewrite LastIndex_byte_absent by assumption. now rewrite Hb.
Qed.

Variable ip : string.
Hypothesis ip_bytes : all_bytes host_byte ip.
Hypothesis ip_literal : Net.ParseIP ip <> None.

Lemma ip_nonempty : ip <> "".
Proof. intros E. apply ip_literal. now rewrite E. Qed.

Lemma ip_no_byte (x : ascii) : host_byte x = false -> no_byte x ip.
Proof. intros Hx. now apply (all_bytes_no_byte host_byte). Qed.

Lemma ip_copied : all_bytes (copied encodeHost) ip.
Proof.
  eapply all_bytes_weaken; [|exact ip_bytes].
  intros c Hc. apply host_is_plain in Hc.
  apply (auth_byte_facts c (plain_is_auth c Hc)). now left.
Qed.

Lemma parseAuthority_bare : parseAuthority ip = Ok (None, ip).
Proof.
  unfold parseAuthority.
  rewrite LastIndex_byte_absent by now apply ip_no_byte.
  unfold parseHost.
  rewrite (host_not_bracketed ip ip_nonempty ip_bytes).
  rewrite LastIndex_byte_absent by now apply ip_no_byte.
  now rewrite (unescape_copied encodeHost ip ip_copied).
Qed.

Lemma Hostname_default : fst (splitHostPort (ip +:+ ":53")) = ip.
Proof.
  change (ip +:+ ":53") with (ip +:+ String ":" "53").
  rewrite (splitHostPort_form ip "53" ip_nonempty ip_bytes); [reflexivity|].
  repeat constructor.
Qed.

Lemma default_port_ok (u : URL) :
  (Scheme u = "udp" \/ Scheme u = "tcp") ->
  Host u = ip +:+ ":53" -> User_ u = None -> Path u = "" ->
  RawQuery u = "" -> Fragment u = "" ->
  validateDNSURI u = None.
Proof.
  intros Hs Hh Hu Hp Hq Hf. apply validateDNSURI_none.
  unfold dns_uri_ok, Hostname, Port. rewrite Hh, Hostname_default, Port_default.
  repeat split; try assumption.
  exists 53%Z. split; [reflexivity | lia].
Qed.

End DNSStrings.

Section ParseDNSForm.

Variables (auth hp : string) (ui : option Userinfo).
Hypothesis auth_bytes : all_bytes auth_byte auth.
Hypothesis auth_parsed : parseAuthority auth = Ok (ui, hp).

(** The generic parse of scheme://authority for the two DNS schemes. *)
Lemma Parse_dns_form (scheme : string) :
  In scheme dns_schemes ->
  Parse (scheme +:+ "://" +:+ auth)
  = Ok (set_Host (set_User (set_Scheme zero scheme) ui) hp).
Proof.
  intros Hs.
  pose proof (auth_no_byte auth auth_bytes "#" eq_refl) as Hhash.
  pose proof (auth_no_byte auth auth_bytes "?" eq_refl) as Hq.
  pose proof (auth_no_byte auth auth_bytes "/" eq_refl) as Hsl.
  pose proof (auth_not_ctl auth auth_bytes) as Hctl.
  destruct Hs as [<-|[<-|[]]].
  all: unfold Parse; rewrite Cut_byte_absent;
    [|simpl; repeat (apply no_byte_cons; split; [discriminate|]);
      exact Hhash];
    cbn [isEmpty]; unfold parse; rewrite no_ctl_byte;
    [|simpl; repeat (apply all_bytes_cons; split; [reflexivity|]);
      exact Hctl].
  all: match goal with
       | |- context [getScheme (?sch +:+ "://" +:+ auth)] =>
           change (String.eqb (sch +:+ "://" +:+ auth) "*") with false;
           cbv iota;
           change (getScheme (sch +:+ "://" +:+ auth))
             with (Ok (sch, "//" +:+ auth) : result (string * string))
       end;
    cbn [mbind result_bind];
    rewrite Count_absent, Cut_byte_absent;
    try (simpl; repeat (apply no_byte_cons; split; [discriminate|]);
         exact Hq);
    rewrite andb_false_r;
    change ("//" +:+ auth) with (String "/" (String "/" auth));
    cbn -[parseAuthority setPath Index];
    rewrite Index_byte_absent by exact Hsl;
    rewrite auth_parsed; reflexivity.
Qed.

End ParseDNSForm.

(** X9.  A bare IPv4 literal is a DNS URI: [ParseDNSURI] gives it the scheme
    "udp" and the port 53. *)
Theorem X9_bare_ip_gets_defaults (ip : string) :
  all_bytes host_byte ip -> Net.ParseIP ip <> None ->
  ParseDNSURI ip = Ok (set_Host (set_Scheme zero "udp") (ip +:+ ":53")).
Proof.
  intros Hb Hip.
  pose proof (ip_nonempty ip Hip) as Hne.
  unfold ParseDNSURI. rewrite Parse_plain_path.
  2:{ eapply all_bytes_weaken; [|exact Hb]. apply host_is_path. }
  2:{ destruct ip as [|c t]; [congruence|].
      apply all_bytes_cons in Hb as [Hc _]. simpl.
      replace (eqb_byte c "/") with false; [reflexivity|].
      symmetry. apply eqb_byte_neq. intros ->. discriminate Hc. }
  cbn [mbind result_bind Host set_Path zero isEmpty Scheme set_Host].
  assert (Hport : Port (set_Scheme (set_Host zero ip) "udp") = "").
  { unfold Port. cbn [Host set_Scheme set_Host zero].
    rewrite splitHostPort_no_colon; [reflexivity| |].
    - now apply (all_bytes_no_byte host_byte).
    - now apply host_not_bracketed. }
  rewrite Hport. cbn [isEmpty].
  rewrite (default_port_ok ip Hb Hip); [reflexivity|..]; try reflexivity.
  now left.
Qed.

Lemma X9_bare_ip_gets_defaults_witness :
  ParseDNSURI "8.8.4.4" = Ok (set_Host (set_Scheme zero "udp") "8.8.4.4:53").
Proof.
  apply (X9_bare_ip_gets_defaults "8.8.4.4").
  - repeat constructor.
  - discriminate.
Defined.

(** X10.  An address followed by a port but without a scheme, such as
    1.1.1.1:53, is not accepted: the generic parse already rejects a first
    path segment with a colon, and [ParseDNSURI] returns that error. *)
Theorem X10_ip_port_needs_scheme (d : ascii) (t port : string) :
  Strconv.is_digit d = true -> all_bytes host_byte t ->
  all_bytes Strconv.is_digit port ->
  ParseDNSURI (String d t +:+ ":" +:+ port)
  = Err (UrlError "parse" (String d t +:+ ":" +:+ port)
           (New "first path segment in URL cannot contain colon")).
Proof.
  intros Hd Ht Hp.
  destruct (digit_not_alpha d Hd) as (Ha & Hb & Hsl & Hst).
  set (val := String d t +:+ ":" +:+ port).
  assert (Hval : all_bytes auth_byte val).
  { unfold val. apply all_bytes_append. split.
    - apply all_bytes_cons. split.
      + now apply plain_is_auth, host_is_plain, digit_is_host.
      + eapply all_bytes_weaken; [|exact Ht].
        intros c Hc. now apply plain_is_auth, host_is_plain.
    - apply all_bytes_cons. split; [reflexivity|].
      eapply all_bytes_weaken; [|exact Hp].
      intros c Hc. now apply plain_is_auth, host_is_plain, digit_is_host. }
  pose proof (auth_no_byte val Hval "#" eq_refl) as Hhash.
  pose proof (auth_no_byte val Hval "?" eq_refl) as Hq.
  pose proof (auth_no_byte val Hval "/" eq_refl) as Hslash.
  assert (Hcolon : Index val ":" = Some (len (String d t))).
  { unfold val. change (":" +:+ port) with (String ":" port).
    apply Index_byte_first. apply (all_bytes_no_byte host_byte); [reflexivity|].
    apply all_bytes_cons. split; [now apply digit_is_host | assumption]. }
  unfold ParseDNSURI, Parse. rewrite Cut_byte_absent by assumption.
  unfold parse. rewrite no_ctl_byte by now apply auth_not_ctl.
  replace (String.eqb val "*") with false.
  2:{ symmetry. apply String.eqb_neq. unfold val. simpl. intros [= E _].
      contradiction. }
  replace (getScheme val) with (Ok ("", val) : result (string * string)).
  2:{ unfold getScheme, val. simpl. now rewrite Ha, Hb. }
  cbn [mbind result_bind].
  rewrite Count_absent by assumption. rewrite andb_false_r.
  rewrite Cut_byte_absent by assumption.
  cbn [ToLower Scheme set_RawQuery set_Scheme zero isEmpty negb].
  rewrite andb_false_r.
  replace (HasPrefix val "/") with false.
  2:{ unfold val. simpl. apply eqb_byte_neq in Hsl. now rewrite Hsl. }
  rewrite Cut_byte_absent by assumption. cbn [fst negb andb].
  unfold Contains. rewrite Hcolon. reflexivity.
Qed.

Lemma X10_ip_port_needs_scheme_witness :
  ParseDNSURI "1.1.1.1:53"
  = Err (UrlError "parse" "1.1.1.1:53"
           (New "first path segment in URL cannot contain colon")).
Proof.
  apply (X10_ip_port_needs_scheme "1"%char ".1.1.1" "53").
  - reflexivity.
  - repeat constructor.
  - repeat constructor.
Defined.

(** X11.  With one of the schemes udp and tcp in front, an IPv4 literal with
    a port from 1 to 65535 is accepted as it is written, and one without a
    port is accepted with the port 53 appended. *)
Theorem X11_dns_uri_strings (scheme ip port : string) :
  In scheme dns_schemes ->
  all_bytes host_byte ip -> Net.ParseIP ip <> None ->
  (port <> "" -> all_bytes Strconv.is_digit port ->
   (1 <= decimal_value port <= 65535)%Z ->
   ParseDNSURI (scheme +:+ "://" +:+ ip +:+ ":" +:+ port)
   = Ok (set_Host (set_Scheme zero scheme) (ip +:+ ":" +:+ port)))
  /\ ParseDNSURI (scheme +:+ "://" +:+ ip)
     = Ok (set_Host (set_Scheme zero scheme) (ip +:+ ":53")).
Proof.
  intros Hs Hb Hip.
  pose proof (ip_nonempty ip Hip) as Hne.
  assert (Hsch : scheme = "udp" \/ scheme = "tcp").
  { destruct Hs as [<-|[<-|[]]]; auto. }
  assert (Hse : isEmpty scheme = false).
  { destruct Hsch as [-> | ->]; reflexivity. }
  assert (Hauth : all_bytes auth_byte ip).
  { eapply all_bytes_weaken; [|exact Hb].
    intros c Hc. now apply plain_is_auth, host_is_plain. }
  split.
  - intros Hpne Hd Hr. unfold ParseDNSURI.
    rewrite (Parse_dns_form (ip +:+ String ":" port)
               (ip +:+ String ":" port) None).
    + cbn [mbind result_bind Host set_Host Scheme set_User set_Scheme zero].
      replace (isEmpty (ip +:+ String ":" port)) with false
        by (now destruct ip).
      change (Scheme (set_Host (set_User (set_Scheme zero scheme) None)
                        (ip +:+ String ":" port))) with scheme.
      rewrite Hse.
      assert (Hport : Port (set_Host (set_User (set_Scheme zero scheme) None)
                              (ip +:+ String ":" port)) = port).
      { unfold Port. cbn [Host set_Host].
        now rewrite (splitHostPort_form ip port Hne Hb Hd). }
      rewrite Hport.
      replace (isEmpty port) with false by (symmetry; now apply isEmpty_false).
      replace (validateDNSURI _) with (@None error); [reflexivity|].
      symmetry. apply validateDNSURI_none.
      unfold dns_uri_ok, Hostname, Port. cbn [Host set_Host].
      rewrite (splitHostPort_form ip port Hne Hb Hd). cbn [fst snd].
      repeat split; try assumption.
      exists (decimal_value port). split; [|assumption].
      now apply Atoi_decimal.
    + apply all_bytes_append. split; [assumption|].
      apply all_bytes_cons. split; [reflexivity|].
      eapply all_bytes_weaken; [|exact Hd].
      intros c Hc. now apply plain_is_auth, host_is_plain, digit_is_host.
    + apply (parseAuthority_hostport ip port Hne Hb Hd).
    + assumption.
  - unfold ParseDNSURI.
    rewrite (Parse_dns_form ip ip None Hauth
               (parseAuthority_bare ip Hb Hip) scheme Hs).
    cbn [mbind result_bind Host set_Host Scheme set_User set_Scheme zero].
    replace (isEmpty ip) with false by (symmetry; now apply isEmpty_false).
    change (Scheme (set_Host (set_User (set_Scheme zero scheme) None) ip))
      with scheme.
    rewrite Hse.
    assert (Hport : Port (set_Host (set_User (set_Scheme zero scheme) None) ip)
                    = "").
    { unfold Port. cbn [Host set_Host].
      rewrite splitHostPort_no_colon; [reflexivity| |].
      - now apply (all_bytes_no_byte host_byte).
      - now apply host_not_bracketed. }
    rewrite Hport. cbn [isEmpty].
    rewrite (default_port_ok ip Hb Hip); [reflexivity|..]; try reflexivity.
    exact Hsch.
Qed.

Lemma X11_dns_uri_strings_witness :
  ParseDNSURI "tcp://9.9.9.9:5353"
  = Ok (set_Host (set_Scheme zero "tcp") "9.9.9.9:5353")
  /\ ParseDNSURI "tcp://9.9.9.9"
     = Ok (set_Host (set_Scheme zero "tcp") "9.9.9.9:53").
Proof.
  destruct (X11_dns_uri_strings "tcp" "9.9.9.9" "5353") as [H1 H2].
  - right. now left.
  - repeat constructor.
  - discriminate.
  - split; [|exact H2]. apply H1.
    + discriminate.
    + repeat constructor.
    + vm_compute. split; discriminate.
Defined.

(** ** [ProxyConfig.Validate] as a whole *)

Section ValidateMore.

Lemma validateProxyURI_opt (o : option URL) :
  validateProxyURI o = None <-> proxy_opt_ok o.
Proof.
  destruct o as [u|].
  - rewrite validateProxyURI_ok. unfold proxy_opt_ok. split.
    + intros H u' [= <-]. exact H.
    + intros H. now apply H.
  - split; [intros _ u H; discriminate | reflexivity].
Qed.

(** The outcome of the loop over the DNS URIs, by its first entry that is
    not a valid URI. *)
Lemma validateDNSURIs_outcome (us : list (option URL)) (i : Z) :
  (Forall dns_entry_ok us /\ validateDNSURIs i us = Returns None)
  \/ exists (k : nat) (d : option URL),
      us !! k = Some d /\ Forall dns_entry_ok (take k us)
      /\ match d with
         | None => validateDNSURIs i us = Panics
         | Some u =>
             exists e, validateDNSURI u = Some e
                       /\ validateDNSURIs i us
                          = Returns (Some (Errorf "dns_uris[%d]: %w"
                                             [ArgD (i + Z.of_nat k); ArgW e]))
         end.
Proof.
  revert i; induction us as [|d us IH]; intros i.
  - left. split; [constructor | reflexivity].
  - destruct d as [u|].
    + simpl. destruct (validateDNSURI u) as [e|] eqn:Ev.
      * right. exists 0%nat, (Some u). split; [reflexivity|].
        split; [constructor|]. exists e. split; [assumption|].
        now rewrite Z.add_0_r.
      * assert (Hu : dns_entry_ok (Some u)).
        { exists u. split; [reflexivity | now apply validateDNSURI_none]. }
        destruct (IH (i + 1)%Z) as [[Hall Hnil]|(k & d & Hk & Hpre & Hd)].
        -- left. split; [now constructor | assumption].
        -- right. exists (S k), d. split; [exact Hk|].
           split; [simpl; now constructor|].
           destruct d as [u'|]; [|exact Hd].
           destruct Hd as (e & He & Hv). exists e. split; [assumption|].
           rewrite Hv.
           replace (i + 1 + Z.of_nat k)%Z with (i + Z.of_nat (S k))%Z by lia.
           reflexivity.
    + right. exists 0%nat, None. split; [reflexivity|].
      split; [constructor | reflexivity].
Qed.

Lemma dns_entry_ok_lookup (us : list (option URL)) (k : nat) (d : option URL) :
  Forall dns_entry_ok us -> us !! k = Some d -> dns_entry_ok d.
Proof.
  intros Hall Hk. exact (Forall_lookup_1 _ _ _ _ Hall Hk).
Qed.

Lemma validateDNSURIs_nil (us : list (option URL)) (i : Z) :
  validateDNSURIs i us = Returns None <-> Forall dns_entry_ok us.
Proof.
  destruct (validateDNSURIs_outcome us i)
    as [[Hall Hnil]|(k & d & Hk & Hpre & Hd)]; [tauto|].
  split.
  - intros H. destruct d as [u|].
    + destruct Hd as (e & _ & Hv). congruence.
    + congruence.
  - intros Hall. exfalso.
    destruct (dns_entry_ok_lookup _ _ _ Hall Hk) as (u & -> & Hok).
    destruct Hd as (e & He & _).
    apply validateDNSURI_none in Hok. congruence.
Qed.

Lemma Validate_nil_iff (c : ProxyConfig) :
  Validate c = Returns None
  <-> (exists l, LocalProxyURI c = Some l /\ proxy_uri_ok l)
      /\ proxy_opt_ok (UpstreamProxyURI c)
      /\ proxy_opt_ok (PACURI c)
      /\ (UpstreamProxyURI c = None \/ PACURI c = None)
      /\ Forall dns_entry_ok (DNSURIs c).
Proof.
  unfold Validate.
  destruct (LocalProxyURI c) as [l|].
  2:{ split; [discriminate | intros ((l & H & _) & _); discriminate]. }
  pose proof (validateProxyURI_ok l) as Hl.
  pose proof (validateProxyURI_opt (UpstreamProxyURI c)) as Hu.
  pose proof (validateProxyURI_opt (PACURI c)) as Hp.
  destruct (validateProxyURI (Some l)).
  { split; [discriminate|]. intros ((l' & [= <-] & H) & _).
    apply Hl in H. discriminate. }
  destruct (validateProxyURI (UpstreamProxyURI c)).
  { split; [discriminate|]. intros (_ & H & _). apply Hu in H. discriminate. }
  destruct (validateProxyURI (PACURI c)).
  { split; [discriminate|]. intros (_ & _ & H & _). apply Hp in H. discriminate. }
  assert (Hl' : proxy_uri_ok l) by now apply Hl.
  assert (Hu' : proxy_opt_ok (UpstreamProxyURI c)) by now apply Hu.
  assert (Hp' : proxy_opt_ok (PACURI c)) by now apply Hp.
  clear Hl Hu Hp.
  destruct (UpstreamProxyURI c) as [u|], (PACURI c) as [p|];
    cbn [is_Some_b andb].
  - split; [discriminate|]. intros (_ & _ & _ & [H|H] & _); discriminate.
  - rewrite validateDNSURIs_nil. split; [|tauto].
    intros H. split; [eauto|]. tauto.
  - rewrite validateDNSURIs_nil. split; [|tauto].
    intros H. split; [eauto|]. tauto.
  - rewrite validateDNSURIs_nil. split; [|tauto].
    intros H. split; [eauto|]. tauto.
Qed.

End ValidateMore.

Section ValidateStages.

Lemma Validate_dns_stage (c : ProxyConfig) :
  prechecks_ok c -> Validate c = validateDNSURIs 0 (DNSURIs c).
Proof.
  intros ((l & Hl & Hlok) & Hu & Hp & Hone). unfold Validate.
  rewrite Hl. apply validateProxyURI_ok in Hlok. rewrite Hlok.
  apply validateProxyURI_opt in Hu, Hp. rewrite Hu, Hp.
  destruct Hone as [-> | ->]; [reflexivity|].
  now rewrite andb_false_r.
Qed.

Lemma validateDNSURIs_first_bad (us : list (option URL)) (i : Z) (k : nat)
    (d : option URL) :
  us !! k = Some d -> Forall dns_entry_ok (take k us) ->
  match d with
  | None => validateDNSURIs i us = Panics
  | Some u =>
      forall e, validateDNSURI u = Some e ->
                validateDNSURIs i us
                = Returns (Some (Errorf "dns_uris[%d]: %w"
                                   [ArgD (i + Z.of_nat k); ArgW e]))
  end.
Proof.
  revert us i; induction k as [|k IH]; intros us i Hk Hpre.
  - destruct us as [|d0 us]; [discriminate|]. injection Hk as ->.
    destruct d as [u|]; [|reflexivity].
    intros e He. simpl. rewrite He. now rewrite Z.add_0_r.
  - destruct us as [|d0 us]; [discriminate|].
    simpl in Hk, Hpre. inversion Hpre as [|? ? Hd0 Hrest]; subst.
    destruct Hd0 as (u0 & -> & Hok). apply validateDNSURI_none in Hok.
    specialize (IH us (i + 1)%Z Hk Hrest). simpl. rewrite Hok.
    destruct d as [u|]; [|exact IH].
    intros e He. rewrite (IH e He).
    replace (i + 1 + Z.of_nat k)%Z with (i + Z.of_nat (S k))%Z by lia.
    reflexivity.
Qed.

Lemma ParseProxyURI_ok (val : string) (u : URL) :
  ParseProxyURI val = Ok u -> proxy_uri_ok u.
Proof.
  intros H. apply ParseProxyURI_accepts in H as [_ H].
  now apply validateProxyURI_ok.
Qed.

Lemma ParseDNSURI_ok (val : string) (u : URL) :
  ParseDNSURI val = Ok u -> dns_uri_ok u.
Proof.
  unfold ParseDNSURI. destruct (Parse val) as [u0|e]; [|discriminate].
  cbn [mbind result_bind].
  destruct (validateDNSURI _) eqn:E; [discriminate|].
  intros [= <-]. now apply validateDNSURI_none.
Qed.

End ValidateStages.

(** X12.  [Validate] returns nil exactly for the configurations that have a
    valid local proxy URI, an upstream proxy URI and a PAC URI that are each
    absent or valid by the proxy rules, at most one of these two set, and
    only DNS URIs that are present and valid. *)
Theorem X12_Validate_accepts (c : ProxyConfig) :
  Validate c = Returns None
  <-> (exists l, LocalProxyURI c = Some l /\ proxy_uri_ok l)
      /\ proxy_opt_ok (UpstreamProxyURI c)
      /\ proxy_opt_ok (PACURI c)
      /\ (UpstreamProxyURI c = None \/ PACURI c = None)
      /\ Forall dns_entry_ok (DNSURIs c).
Proof. exact (Validate_nil_iff c). Qed.

Lemma X12_Validate_accepts_witness :
  Forall dns_entry_ok [Some (set_Host (set_Scheme zero "udp") "1.1.1.1:53")].
Proof.
  apply (proj1 (X12_Validate_accepts
                  (mkProxyConfig (Some http_url) None None []
                     [Some (set_Host (set_Scheme zero "udp") "1.1.1.1:53")]
                     false []))).
  reflexivity.
Defined.

(** X13.  When the checks of the three proxy URIs pass, the outcome of
    [Validate] is decided by the first DNS entry that is not a valid URI:
    an invalid URI at index [k] gives its error wrapped as "dns_uris[k]",
    and a nil entry makes [Validate] panic. *)
Theorem X13_first_bad_dns_entry
    (c : ProxyConfig) (k : nat) (d : option URL) :
  prechecks_ok c ->
  DNSURIs c !! k = Some d -> Forall dns_entry_ok (take k (DNSURIs c)) ->
  match d with
  | None => Validate c = Panics
  | Some u =>
      forall e, validateDNSURI u = Some e ->
                Validate c
                = Returns (Some (Errorf "dns_uris[%d]: %w"
                                   [ArgD (Z.of_nat k); ArgW e]))
  end.
Proof.
  intros Hpre Hk Hfirst. rewrite (Validate_dns_stage c Hpre).
  exact (validateDNSURIs_first_bad (DNSURIs c) 0 k d Hk Hfirst).
Qed.

Lemma X13_first_bad_dns_entry_witness :
  Validate (mkProxyConfig (Some http_url) None None []
              [Some (set_Host (set_Scheme zero "udp") "1.1.1.1:53");
               Some (set_Host (set_Scheme zero "udp") "dns.example.com:53")]
              false [])
  = Returns (Some (Errorf "dns_uris[%d]: %w"
                     [ArgD 1;
                      ArgW (Errorf "invalid hostname: %s DNS must be an IP address"
                              [ArgS "dns.example.com"])])).
Proof.
  apply (X13_first_bad_dns_entry
           (mkProxyConfig (Some http_url) None None []
              [Some (set_Host (set_Scheme zero "udp") "1.1.1.1:53");
               Some (set_Host (set_Scheme zero "udp") "dns.example.com:53")]
              false [])
           1%nat
           (Some (set_Host (set_Scheme zero "udp") "dns.example.com:53"))).
  - split; [|split; [|split]].
    + exists http_url. split; [reflexivity|].
      apply validateProxyURI_ok. reflexivity.
    + intros u H. discriminate H.
    + intros u H. discriminate H.
    + now left.
  - reflexivity.
  - constructor; [|constructor].
    eexists. split; [reflexivity|]. apply validateDNSURI_none. reflexivity.
  - reflexivity.
Defined.

(** X14.  A configuration put together from what the parsers return passes
    [Validate]: a local proxy URI from [ParseProxyURI], an upstream proxy
    URI and a PAC URI that are absent or from [ParseProxyURI] and not both
    set, and DNS URIs from [ParseDNSURI]. *)
Theorem X14_parsed_config_validates
    (lv : string) (l : URL) (up pac : option URL) (ds : list URL)
    (creds sites : list string) (localhost : bool) :
  ParseProxyURI lv = Ok l ->
  parsed_proxy up -> parsed_proxy pac -> up = None \/ pac = None ->
  Forall (fun d => exists v, ParseDNSURI v = Ok d) ds ->
  Validate (mkProxyConfig (Some l) up pac creds (map Some ds) localhost sites)
  = Returns None.
Proof.
  intros Hl Hup Hpac Hone Hds. apply Validate_nil_iff. cbn.
  split; [exists l; split; [reflexivity | now apply (ParseProxyURI_ok lv)]|].
  split; [intros u Hu; destruct (Hup u Hu) as [v Hv];
          now apply (ParseProxyURI_ok v)|].
  split; [intros u Hu; destruct (Hpac u Hu) as [v Hv];
          now apply (ParseProxyURI_ok v)|].
  split; [assumption|].
  induction Hds as [|d ds (v & Hv) _ IH]; cbn; constructor; [|exact IH].
  exists d. split; [reflexivity | now apply (ParseDNSURI_ok v)].
Qed.

Lemma X14_parsed_config_validates_witness :
  Validate (mkProxyConfig
              (Some (set_Host (set_Scheme zero "http") "127.0.0.1:8080"))
              None None []
              (map Some [set_Host (set_Scheme zero "udp") "1.1.1.1:53"])
              true [])
  = Returns None.
Proof.
  apply (X14_parsed_config_validates "http://127.0.0.1:8080").
  - reflexivity.
  - intros u H. discriminate H.
  - intros u H. discriminate H.
  - now left.
  - constructor; [|constructor]. exists "1.1.1.1". reflexivity.
Defined.

(** ** Services of a compose *)

Section ServicesFacts.

Context {World : Type}.
Implicit Types (c : @Compose.Compose World) (s : option (@Compose.Service World)).

Lemma addService_cases c s :
  match Services.addService c s with
  | (c', None) =>
      exists sv,
        s = Some sv /\ Compose.Name sv <> "" /\ Compose.Image sv <> ""
        /\ Compose.Services c !! Compose.Name sv = None
        /\ c' = Compose.mkCompose (Compose.Path c) (Compose.Version c)
                  (<[Compose.Name sv := sv]> (Compose.Services c))
  | (c', Some e) =>
      c' = c
      /\ (s = None
          \/ exists sv,
              s = Some sv
              /\ (Compose.Image sv = "" \/ Compose.Name sv = ""
                  \/ is_Some (Compose.Services c !! Compose.Name sv)))
  end.
Proof.
  unfold Services.addService, Services.Service_Validate.
  destruct s as [sv|]; [|split; [reflexivity | now left]].
  destruct (isEmpty (Compose.Image sv)) eqn:Ei.
  { apply isEmpty_true in Ei. split; [reflexivity|]. right. exists sv. tauto. }
  destruct (isEmpty (Compose.Name sv)) eqn:En.
  { apply isEmpty_true in En. split; [reflexivity|]. right. exists sv. tauto. }
  apply isEmpty_false in Ei, En.
  destruct (Compose.Services c !! Compose.Name sv) as [old|] eqn:El; cbn.
  - split; [reflexivity|]. right. exists sv. split; [reflexivity|].
    right. right. rewrite El. eauto.
  - exists sv. rewrite El. tauto.
Qed.

Lemma addService_keeps_ok c s :
  services_ok c -> services_ok (fst (Services.addService c s)).
Proof.
  intros Hok. pose proof (addService_cases c s) as H.
  destruct (Services.addService c s) as [c' [e|]]; cbn [fst].
  - destruct H as [-> _]. exact Hok.
  - destruct H as (sv & _ & Hn & Hi & _ & ->). intros k x. cbn.
    destruct (decide (Compose.Name sv = k)) as [<-|Hne].
    + rewrite lookup_insert_eq. intros [= <-]. auto.
    + rewrite lookup_insert_ne by assumption. apply Hok.
Qed.

Lemma addService_keeps_entries c s (k : string) (x : @Compose.Service World) :
  Compose.Services c !! k = Some x ->
  Compose.Services (fst (Services.addService c s)) !! k = Some x.
Proof.
  intros Hk. pose proof (addService_cases c s) as H.
  destruct (Services.addService c s) as [c' [e|]]; cbn [fst].
  - destruct H as [-> _]. exact Hk.
  - destruct H as (sv & _ & _ & _ & Hfree & ->). cbn.
    rewrite lookup_insert_ne; [exact Hk|]. intros E. congruence.
Qed.

Lemma addService_keeps_file c s :
  Compose.Path (fst (Services.addService c s)) = Compose.Path c
  /\ Compose.Version (fst (Services.addService c s)) = Compose.Version c.
Proof.
  pose proof (addService_cases c s) as H.
  destruct (Services.addService c s) as [c' [e|]]; cbn [fst].
  - destruct H as [-> _]. auto.
  - destruct H as (sv & _ & _ & _ & _ & ->). auto.
Qed.

End ServicesFacts.

(** X15.  [addService] either stores the service or changes nothing.  It
    returns nil only for a service that is not nil, has an image and a
    name, and whose name is not taken; the service is then found under its
    name, every other entry is as before, and path and version are kept.
    When it returns an error, the compose is unchanged, and the service is
    nil, lacks an image or a name, or its name is taken. *)
Theorem X15_addService
    (World : Type) (c : @Compose.Compose World)
    (s : option (@Compose.Service World)) :
  match Services.addService c s with
  | (c', None) =>
      exists sv,
        s = Some sv /\ Compose.Name sv <> "" /\ Compose.Image sv <> ""
        /\ Compose.Services c !! Compose.Name sv = None
        /\ Compose.Services c' !! Compose.Name sv = Some sv
        /\ (forall k, k <> Compose.Name sv ->
                      Compose.Services c' !! k = Compose.Services c !! k)
        /\ Compose.Path c' = Compose.Path c
        /\ Compose.Version c' = Compose.Version c
  | (c', Some e) =>
      c' = c
      /\ (s = None
          \/ exists sv,
              s = Some sv
              /\ (Compose.Image sv = "" \/ Compose.Name sv = ""
                  \/ is_Some (Compose.Services c !! Compose.Name sv)))
  end.
Proof.
  pose proof (addService_cases c s) as H.
  destruct (Services.addService c s) as [c' [e|]]; [exact H|].
  destruct H as (sv & Hs & Hn & Hi & Hfree & ->). exists sv. cbn.
  repeat split; try assumption.
  - apply lookup_insert_eq.
  - intros k Hk. now apply lookup_insert_ne.
Qed.

(** X16.  Whatever services are added to a new compose, in whatever order
    and whether or not each call succeeds, every service it holds is stored
    under its own name and has a name and an image, and the compose still
    has the path "docker-compose.yaml" and the version "3.8". *)
Theorem X16_services_stay_well_formed
    (World : Type) (ss : list (option (@Compose.Service World))) :
  services_ok (add_all Services.newCompose ss)
  /\ Compose.Path (add_all (@Services.newCompose World) ss)
     = "docker-compose.yaml"
  /\ Compose.Version (add_all (@Services.newCompose World) ss) = "3.8".
Proof.
  assert (H : forall c : @Compose.Compose World,
             services_ok c ->
             services_ok (add_all c ss)
             /\ Compose.Path (add_all c ss) = Compose.Path c
             /\ Compose.Version (add_all c ss) = Compose.Version c).
  { induction ss as [|s ss IH]; intros c Hok; [auto|].
    unfold add_all in *. cbn [fold_left].
    destruct (IH _ (addService_keeps_ok c s Hok)) as (H1 & H2 & H3).
    destruct (addService_keeps_file c s) as [H4 H5].
    split; [exact H1|]. split; congruence. }
  apply H. intros k x Hk. cbn in Hk. now rewrite lookup_empty in Hk.
Qed.

(** X17.  A service that is registered is never replaced or removed by
    later calls of [addService]: the first registration of a name stays. *)
Theorem X17_registered_services_stay
    (World : Type) (c : @Compose.Compose World)
    (ss : list (option (@Compose.Service World)))
    (k : string) (x : @Compose.Service World) :
  Compose.Services c !! k = Some x ->
  Compose.Services (add_all c ss) !! k = Some x.
Proof.
  revert c; induction ss as [|s ss IH]; intros c Hk; [exact Hk|].
  unfold add_all in *. cbn [fold_left]. apply IH.
  now apply addService_keeps_entries.
Qed.

Lemma X17_registered_services_stay_witness :
  Compose.Services
    (add_all
       (Compose.mkCompose "c.yaml" "3.8"
          {[ "web" := Compose.mkService "web" "nginx" "" ∅ [] [] None ]})
       [Some (@Compose.mkService unit "web" "apache" "" ∅ [] [] None)])
  !! "web"
  = Some (Compose.mkService "web" "nginx" "" ∅ [] [] None).
Proof.
  apply X17_registered_services_stay. apply lookup_singleton_eq.
Defined.

(** ** [Compose.Run] and the teardown *)


